(** * Fitness tracker: workout session store and progress analytics

    A shallow embedding of the workout store (store/fitness/workoutStore),
    the Set model (store/fitness/models/Set), the WorkoutService history
    query and the ProgressService analytics, followed by the properties of
    the specification that concern them.

    Conventions of the embedding.
    - A JavaScript [number] is an exact rational; rounding and overflow of
      IEEE doubles are not modelled.  Where the source can divide by zero or
      take the maximum of an empty list, or where the input may be any
      number, the value lives in [num], the rationals extended with
      [+Infinity], [-Infinity] and [NaN] (a zero divisor is taken as [+0]).
    - A [Date] is its [getTime()] value: milliseconds since the epoch, in Z.
    - Values written to AsyncStorage are kept as values, not JSON text.
    - [new Date()], the id and name generators and the outcome of every
      AsyncStorage write are inputs of a command, gathered in [Env]. *)

From Stdlib Require Import ZArith QArith Qabs Qround Qminmax.
From Stdlib Require Import List String Bool Lia Lqa Sorted Permutation.
Import ListNotations.

Local Open Scope string_scope.
Local Open Scope list_scope.
Local Open Scope Z_scope.
Local Open Scope Q_scope.

(** ** JavaScript numbers with their special values *)

Module JsNum.

Inductive num : Type :=
| Fin (q : Q)
| PInf
| NInf
| NaN.

(** The sign of a rational, as used by the rules for infinities. *)
Definition sign_case {A : Type} (x : Q) (neg zero pos : A) : A :=
  match x ?= 0 with
  | Lt => neg
  | Eq => zero
  | Gt => pos
  end.

Definition nopp (a : num) : num :=
  match a with
  | Fin x => Fin (- x)
  | PInf => NInf
  | NInf => PInf
  | NaN => NaN
  end.

Definition nadd (a b : num) : num :=
  match a, b with
  | NaN, _ | _, NaN => NaN
  | Fin x, Fin y => Fin (x + y)
  | PInf, NInf | NInf, PInf => NaN
  | PInf, _ | _, PInf => PInf
  | NInf, _ | _, NInf => NInf
  end.

Definition nsub (a b : num) : num := nadd a (nopp b).

Definition nmul (a b : num) : num :=
  match a, b with
  | NaN, _ | _, NaN => NaN
  | Fin x, Fin y => Fin (x * y)
  | Fin x, PInf | PInf, Fin x => sign_case x NInf NaN PInf
  | Fin x, NInf | NInf, Fin x => sign_case x PInf NaN NInf
  | PInf, PInf | NInf, NInf => PInf
  | PInf, NInf | NInf, PInf => NInf
  end.

Definition ndiv (a b : num) : num :=
  match a, b with
  | NaN, _ | _, NaN => NaN
  | Fin x, Fin y =>
      if Qeq_bool y 0 then sign_case x NInf NaN PInf else Fin (x / y)
  | Fin _, PInf | Fin _, NInf => Fin 0
  | PInf, Fin y => if Qle_bool 0 y then PInf else NInf
  | NInf, Fin y => if Qle_bool 0 y then NInf else PInf
  | PInf, PInf | PInf, NInf | NInf, PInf | NInf, NInf => NaN
  end.

(** [a < b]; every comparison with [NaN] is false. *)
Definition nlt (a b : num) : bool :=
  match a, b with
  | NaN, _ | _, NaN => false
  | Fin x, Fin y => negb (Qle_bool y x)
  | _, NInf => false
  | NInf, _ => true
  | PInf, _ => false
  | Fin _, PInf => true
  end.

Definition ngt (a b : num) : bool := nlt b a.

(** [a <= b]. *)
Definition nle (a b : num) : bool :=
  match a, b with
  | NaN, _ | _, NaN => false
  | Fin x, Fin y => Qle_bool x y
  | NInf, _ => true
  | _, PInf => true
  | _, _ => false
  end.

(** [Math.max(a, b)]. *)
Definition nmax (a b : num) : num :=
  match a, b with
  | NaN, _ | _, NaN => NaN
  | _, _ => if nlt a b then b else a
  end.

(** [Math.max(...xs)]: [-Infinity] on the empty list. *)
Definition nmax_list (xs : list num) : num := fold_left nmax xs NInf.

(** [a || 0]: [0] and [NaN] are falsy. *)
Definition n_or0 (a : num) : num :=
  match a with
  | Fin x => if Qeq_bool x 0 then Fin 0 else a
  | NaN => Fin 0
  | _ => a
  end.

(** Equality of numbers up to the representation of a fraction. *)
Definition num_eq (a b : num) : Prop :=
  match a, b with
  | Fin x, Fin y => x == y
  | PInf, PInf | NInf, NInf | NaN, NaN => True
  | _, _ => False
  end.

End JsNum.
Import JsNum.

(** On rationals: [a > b], [Math.max(a, b)] and [a || 0]. *)
Definition Qgtb (a b : Q) : bool := negb (Qle_bool a b).
Definition Qmaxb (a b : Q) : Q := if Qle_bool a b then b else a.
Definition Q_or0 (a : Q) : Q := if Qeq_bool a 0 then 0 else a.

(** [Number.isInteger]. *)
Definition Q_isInteger (a : Q) : bool := Pos.eqb (Qden (Qred a)) 1.

(** ** Data model (store/fitness/models.ts) *)

Record Exercise : Type := {
  ex_id : string;
  ex_name : string
}.

(** [Set] of the source. *)
Record WorkoutSet : Type := {
  reps : Q;
  weight : Q;
  completed : bool;
  restTime : Q
}.

Record WorkoutExercise : Type := {
  exerciseId : string;
  sets : list WorkoutSet;
  we_restTime : Q;
  we_notes : string
}.

Record Workout : Type := {
  w_id : string;
  w_name : string;
  startTime : Z;
  endTime : option Z;
  exercises : list WorkoutExercise;
  notes : string
}.

Record SetInput : Type := {
  in_reps : Q;
  in_weight : Q;
  in_completed : option bool
}.

Record TimeRange : Type := {
  startDate : Z;
  endDate : Z
}.

(** [Partial<Set>]: an absent field is [undefined], and a number may be
    [NaN] or an infinity. *)
Record PartialSet : Type := {
  p_reps : option num;
  p_weight : option num;
  p_completed : option bool;
  p_restTime : option num
}.

(** The result of code that can throw. *)
Inductive result (A : Type) : Type :=
| Ok (a : A)
| Err (msg : string).
Arguments Ok {A} a.
Arguments Err {A} msg.

(** ** Set model (store/fitness/models/Set) *)

Module SetValidator.

(** [Number.isInteger]: false of [NaN] and of the infinities. *)
Definition isInteger (v : num) : bool :=
  match v with
  | Fin x => Q_isInteger x
  | _ => false
  end.

(** The truth value of a number: [0] and [NaN] are falsy. *)
Definition truthy (v : num) : bool :=
  match v with
  | Fin x => negb (Qeq_bool x 0)
  | NaN => false
  | PInf | NInf => true
  end.

(** [typeof x !== 'number' || bad x] for a field that may be absent. *)
Definition not_number_or (bad : num -> bool) (x : option num) : bool :=
  match x with
  | None => true
  | Some v => bad v
  end.

(** [x && x > bound]: absent, zero and [NaN] are falsy. *)
Definition truthy_and_gt (bound : Q) (x : option num) : bool :=
  match x with
  | None => false
  | Some v => truthy v && ngt v (Fin bound)
  end.

Definition push_if (c : bool) (msg : string) (errors : list string) : list string :=
  if c then errors ++ [msg] else errors.

Definition errors_of (set : PartialSet) : list string :=
  let errors := [] in
  let errors :=
    push_if (not_number_or (fun r => nle r (Fin 0) || negb (isInteger r)) (p_reps set))
            "Reps must be a positive integer" errors in
  let errors :=
    push_if (not_number_or (fun w => nlt w (Fin 0)) (p_weight set))
            "Weight must be a non-negative number" errors in
  (* [completed], when present, is a boolean by its type: no error *)
  let errors :=
    push_if (not_number_or (fun t => nlt t (Fin 0)) (p_restTime set))
            "Rest time must be a non-negative number" errors in
  let errors :=
    push_if (truthy_and_gt 1000 (p_reps set)) "Reps must be less than 1000" errors in
  let errors :=
    push_if (truthy_and_gt 10000 (p_weight set))
            "Weight must be less than 10000 kg/lbs" errors in
  let errors :=
    push_if (truthy_and_gt 7200 (p_restTime set))
            "Rest time must be less than 2 hours (7200 seconds)" errors in
  errors.

Definition validate (set : PartialSet) : bool * list string :=
  let errors := errors_of set in
  (Nat.eqb (List.length errors) 0, errors).

Definition isValid (set : PartialSet) : bool := fst (validate set).

(** [x || 0] for a field that may be absent. *)
Definition or0 (x : option num) : num :=
  match x with
  | None => Fin 0
  | Some v => n_or0 v
  end.

(** [Math.floor]. *)
Definition floor (v : num) : num :=
  match v with
  | Fin x => Fin (inject_Z (Qfloor x))
  | _ => v
  end.

(** What [sanitize] returns: on data that was not validated a number may
    still be an infinity. *)
Record Sanitized : Type := {
  s_reps : num;
  s_weight : num;
  s_completed : bool;
  s_restTime : num
}.

Definition sanitize (set : PartialSet) : Sanitized :=
  {| s_reps := nmax (Fin 0) (floor (or0 (p_reps set)));
     s_weight := nmax (Fin 0) (or0 (p_weight set));
     s_completed := match p_completed set with Some c => c | None => true end;
     s_restTime := nmax (Fin 0) (or0 (p_restTime set)) |}.

End SetValidator.

Module SetModel.

(** The value of a number that is finite. *)
Definition finite (v : num) : Q :=
  match v with
  | Fin x => x
  | _ => 0
  end.

(** The set a model holds.  The numbers of validated data are finite after
    [sanitize] (see [SetFacts.sanitize_finite]), so nothing is lost here. *)
Definition held (s : SetValidator.Sanitized) : WorkoutSet :=
  {| reps := finite (SetValidator.s_reps s);
     weight := finite (SetValidator.s_weight s);
     completed := SetValidator.s_completed s;
     restTime := finite (SetValidator.s_restTime s) |}.

(** The constructor: validate, then sanitize. *)
Definition new (data : PartialSet) : result WorkoutSet :=
  let validation := SetValidator.validate data in
  if negb (fst validation)
  then Err ("Invalid set data: " ++ String.concat ", " (snd validation))%string
  else Ok (held (SetValidator.sanitize data)).


(** Brzycki formula, guarded at one repetition and beyond 36. *)
Definition getEstimatedOneRepMax (data : WorkoutSet) : Q :=
  if Qeq_bool (reps data) 1 then weight data
  else if Qgtb (reps data) 36 then weight data
  else weight data * (36 / (37 - reps data)).

Inductive Intensity : Type := Light | Moderate | Heavy | Max.

Definition getIntensityCategory (data : WorkoutSet) : Intensity :=
  if Qle_bool 15 (reps data) then Light
  else if Qle_bool 8 (reps data) then Moderate
  else if Qle_bool 3 (reps data) then Heavy
  else Max.

(** [{ ...this.data }]: every field present. *)
Definition spread (data : WorkoutSet) : PartialSet :=
  {| p_reps := Some (Fin (reps data)); p_weight := Some (Fin (weight data));
     p_completed := Some (completed data);
     p_restTime := Some (Fin (restTime data)) |}.

Definition spread_completed (data : WorkoutSet) (c : bool) : PartialSet :=
  {| p_reps := Some (Fin (reps data)); p_weight := Some (Fin (weight data));
     p_completed := Some c; p_restTime := Some (Fin (restTime data)) |}.

Definition spread_restTime (data : WorkoutSet) (t : Q) : PartialSet :=
  {| p_reps := Some (Fin (reps data)); p_weight := Some (Fin (weight data));
     p_completed := Some (completed data); p_restTime := Some (Fin t) |}.

Definition markCompleted (data : WorkoutSet) : result WorkoutSet :=
  new (spread_completed data true).

Definition markIncomplete (data : WorkoutSet) : result WorkoutSet :=
  new (spread_completed data false).

Definition updateRestTime (data : WorkoutSet) (restTime : Q) : result WorkoutSet :=
  new (spread_restTime data restTime).




Definition compareByReps (a b : WorkoutSet) : Q := reps b - reps a.

End SetModel.

(** ** Arrays *)

(** [Array.prototype.findIndex]; [None] stands for [-1]. *)
Fixpoint findIndex {A : Type} (p : A -> bool) (l : list A) : option nat :=
  match l with
  | [] => None
  | x :: l' =>
      if p x then Some O
      else match findIndex p l' with
           | Some i => Some (S i)
           | None => None
           end
  end.

(** [copy[i] = x] for an index inside the array. *)
Fixpoint update_at {A : Type} (i : nat) (x : A) (l : list A) : list A :=
  match l, i with
  | [], _ => []
  | _ :: l', O => x :: l'
  | y :: l', S i' => y :: update_at i' x l'
  end.

(** [Array.prototype.sort] with a comparator: a stable sort, written as an
    insertion sort that keeps the earlier of two equal elements first. *)
Fixpoint insert_by {A : Type} (cmp : A -> A -> Z) (x : A) (l : list A) : list A :=
  match l with
  | [] => [x]
  | y :: l' => if (cmp x y <=? 0)%Z then x :: l else y :: insert_by cmp x l'
  end.

Definition js_sort {A : Type} (cmp : A -> A -> Z) (l : list A) : list A :=
  fold_right (insert_by cmp) [] l.

(** [Array.prototype.slice(start, end)], a negative index counting from the
    end; [None] for an [undefined] end. *)
Definition clamp_index (len i : Z) : Z :=
  if (i <? 0)%Z then Z.max (len + i) 0 else Z.min i len.

Definition js_slice {A : Type} (l : list A) (start : Z) (stop : option Z) : list A :=
  let len := Z.of_nat (List.length l) in
  let k := clamp_index len start in
  let final := match stop with
               | None => len
               | Some e => clamp_index len e
               end in
  firstn (Z.to_nat (final - k)) (skipn (Z.to_nat k) l).

(** ** AsyncStorage, as far as the workout keys go *)

Record AsyncStorage : Type := {
  CURRENT_WORKOUT : option Workout;
  WORKOUT_HISTORY : option (list Workout)
}.

(** ** Workout store (store/fitness/workoutStore) *)

Module WorkoutStore.

Record State : Type := {
  currentWorkout : option Workout;
  workoutHistory : list Workout;
  isLoading : bool;
  error : option string
}.

Definition initial : State :=
  {| currentWorkout := None; workoutHistory := []; isLoading := false; error := None |}.

(** The in-memory store together with the device storage. *)
Record World : Type := {
  mem : State;
  disk : AsyncStorage
}.

(** What a command reads from its environment: the clock, the generated id
    and default name, and whether each storage write succeeds. *)
Record Env : Type := {
  now : Z;
  freshId : string;
  freshName : string;
  setItemOk : bool;
  removeItemOk : bool
}.

(** How a block of statements ends. *)
Inductive outcome (A : Type) : Type :=
| Next (a : A)
| Returned
| Thrown (msg : string).
Arguments Next {A} a.
Arguments Returned {A}.
Arguments Thrown {A} msg.

Definition M (A : Type) : Type := World -> outcome A * World.

Definition ret {A : Type} (a : A) : M A := fun w => (Next a, w).

Definition bind {A B : Type} (c : M A) (k : A -> M B) : M B :=
  fun w =>
    match c w with
    | (Next a, w') => k a w'
    | (Returned, w') => (Returned, w')
    | (Thrown msg, w') => (Thrown msg, w')
    end.

Declare Scope store_scope.
Delimit Scope store_scope with store.
Notation "x <- c ;; k" := (bind c (fun x => k))
  (at level 61, c at next level, right associativity) : store_scope.
Notation "c ;; k" := (bind c (fun _ => k))
  (at level 61, right associativity) : store_scope.
Local Open Scope store_scope.

Definition get : M State := fun w => (Next (mem w), w).

(** zustand's [set]: apply a partial update to the state. *)
Definition set_ (f : State -> State) : M unit :=
  fun w => (Next tt, {| mem := f (mem w); disk := disk w |}).

Definition throw {A : Type} (msg : string) : M A := fun w => (Thrown msg, w).

Definition return_ {A : Type} : M A := fun w => (Returned, w).

(** The partial updates the commands use. *)
Definition with_current (c : option Workout) (s : State) : State :=
  {| currentWorkout := c; workoutHistory := workoutHistory s;
     isLoading := isLoading s; error := error s |}.

Definition with_error (e : option string) (s : State) : State :=
  {| currentWorkout := currentWorkout s; workoutHistory := workoutHistory s;
     isLoading := isLoading s; error := e |}.

Definition with_loading (b : bool) (s : State) : State :=
  {| currentWorkout := currentWorkout s; workoutHistory := workoutHistory s;
     isLoading := b; error := error s |}.

Definition begin_loading (s : State) : State :=
  {| currentWorkout := currentWorkout s; workoutHistory := workoutHistory s;
     isLoading := true; error := None |}.

Definition with_completed (h : list Workout) (s : State) : State :=
  {| currentWorkout := None; workoutHistory := h;
     isLoading := isLoading s; error := error s |}.

(** [await AsyncStorage.setItem(CURRENT_WORKOUT, JSON.stringify(v))]. *)
Definition setItem_current (ok : bool) (v : Workout) : M unit :=
  fun w =>
    if ok
    then (Next tt, {| mem := mem w;
                      disk := {| CURRENT_WORKOUT := Some v;
                                 WORKOUT_HISTORY := WORKOUT_HISTORY (disk w) |} |})
    else (Thrown "AsyncStorage.setItem rejected", w).

Definition setItem_history (ok : bool) (h : list Workout) : M unit :=
  fun w =>
    if ok
    then (Next tt, {| mem := mem w;
                      disk := {| CURRENT_WORKOUT := CURRENT_WORKOUT (disk w);
                                 WORKOUT_HISTORY := Some h |} |})
    else (Thrown "AsyncStorage.setItem rejected", w).

Definition removeItem_current (ok : bool) : M unit :=
  fun w =>
    if ok
    then (Next tt, {| mem := mem w;
                      disk := {| CURRENT_WORKOUT := None;
                                 WORKOUT_HISTORY := WORKOUT_HISTORY (disk w) |} |})
    else (Thrown "AsyncStorage.removeItem rejected", w).

(** [await Promise.all([a, b])]: both writes are issued, and the await
    throws when either of them rejects. *)
Definition promise_all2 (a b : M unit) : M unit :=
  fun w =>
    let (oa, w1) := a w in
    let (ob, w2) := b w1 in
    match oa, ob with
    | Thrown msg, _ => (Thrown msg, w2)
    | _, Thrown msg => (Thrown msg, w2)
    | _, _ => (Next tt, w2)
    end.

(** [try { body } catch (error) { handler } finally { fin }]. *)
Definition try_catch_finally (body : M unit) (handler : M unit) (fin : M unit)
  : World -> World :=
  fun w =>
    let (o, w1) := body w in
    let w2 := match o with
              | Thrown _ => snd (handler w1)
              | _ => w1
              end in
    snd (fin w2).

Definition try_catch (body : M unit) (handler : M unit) : World -> World :=
  try_catch_finally body handler (ret tt).

(** [name || generateWorkoutName()]: an absent or empty name is falsy. *)
Definition name_or_default (name : option string) (default : string) : string :=
  match name with
  | Some n => if String.eqb n "" then default else n
  | None => default
  end.

Definition newWorkout (env : Env) (name : option string) : Workout :=
  {| w_id := freshId env;
     w_name := name_or_default name (freshName env);
     startTime := now env;
     endTime := None;
     exercises := [];
     notes := "" |}.

Definition startWorkout_try (env : Env) (name : option string) : M unit :=
  set_ begin_loading ;;
  set_ (with_current (Some (newWorkout env name))) ;;
  setItem_current (setItemOk env) (newWorkout env name).

Definition startWorkout (env : Env) (name : option string) : World -> World :=
  try_catch_finally (startWorkout_try env name)
    (set_ (with_error (Some "Failed to start workout")))
    (set_ (with_loading false)).

Definition with_exercises (c : Workout) (es : list WorkoutExercise) : Workout :=
  {| w_id := w_id c; w_name := w_name c; startTime := startTime c;
     endTime := endTime c; exercises := es; notes := notes c |}.

Definition newExercise (id : string) : WorkoutExercise :=
  {| exerciseId := id; sets := []; we_restTime := 120; we_notes := "" |}.

Definition addExerciseToWorkout_try (env : Env) (id : string) : M unit :=
  s <- get ;;
  match currentWorkout s with
  | None => throw "No active workout"
  | Some current =>
      match find (fun e => String.eqb (exerciseId e) id) (exercises current) with
      | Some _ =>
          set_ (with_error (Some "Exercise already added to workout")) ;;
          return_
      | None =>
          let updatedWorkout :=
            with_exercises current (exercises current ++ [newExercise id]) in
          set_ (with_current (Some updatedWorkout)) ;;
          setItem_current (setItemOk env) updatedWorkout
      end
  end.

Definition addExerciseToWorkout (env : Env) (id : string) : World -> World :=
  try_catch (addExerciseToWorkout_try env id)
    (set_ (with_error (Some "Failed to add exercise to workout"))).

Definition newSet (setInput : SetInput) : WorkoutSet :=
  {| reps := in_reps setInput;
     weight := in_weight setInput;
     completed := match in_completed setInput with Some c => c | None => true end;
     restTime := 0 |}.

Definition with_sets (e : WorkoutExercise) (ss : list WorkoutSet) : WorkoutExercise :=
  {| exerciseId := exerciseId e; sets := ss;
     we_restTime := we_restTime e; we_notes := we_notes e |}.

Definition addSetToExercise_try (env : Env) (id : string) (setInput : SetInput)
  : M unit :=
  s <- get ;;
  match currentWorkout s with
  | None => throw "No active workout"
  | Some current =>
      match findIndex (fun e => String.eqb (exerciseId e) id) (exercises current) with
      | None => throw "Exercise not found in workout"
      | Some exerciseIndex =>
          match nth_error (exercises current) exerciseIndex with
          | None => throw "TypeError"
          | Some e =>
              let updatedExercises :=
                update_at exerciseIndex (with_sets e (sets e ++ [newSet setInput]))
                          (exercises current) in
              let updatedWorkout := with_exercises current updatedExercises in
              set_ (with_current (Some updatedWorkout)) ;;
              setItem_current (setItemOk env) updatedWorkout
          end
      end
  end.

Definition addSetToExercise (env : Env) (id : string) (setInput : SetInput)
  : World -> World :=
  try_catch (addSetToExercise_try env id setInput)
    (set_ (with_error (Some "Failed to add set to exercise"))).

Definition with_endTime (c : Workout) (t : option Z) : Workout :=
  {| w_id := w_id c; w_name := w_name c; startTime := startTime c;
     endTime := t; exercises := exercises c; notes := notes c |}.

Definition completeWorkout_try (env : Env) : M unit :=
  set_ begin_loading ;;
  s <- get ;;
  match currentWorkout s with
  | None => throw "No active workout to complete"
  | Some current =>
      if Nat.eqb (List.length (exercises current)) 0
      then
        set_ (with_error (Some "Cannot complete workout with no exercises")) ;;
        return_
      else
        let completedWorkout := with_endTime current (Some (now env)) in
        let updatedHistory := completedWorkout :: workoutHistory s in
        set_ (with_completed updatedHistory) ;;
        promise_all2 (removeItem_current (removeItemOk env))
                     (setItem_history (setItemOk env) updatedHistory)
  end.

Definition completeWorkout (env : Env) : World -> World :=
  try_catch_finally (completeWorkout_try env)
    (set_ (with_error (Some "Failed to complete workout")))
    (set_ (with_loading false)).

Definition abandonWorkout_try (env : Env) : M unit :=
  set_ (with_current None) ;;
  removeItem_current (removeItemOk env).

Definition abandonWorkout (env : Env) : World -> World :=
  try_catch (abandonWorkout_try env)
    (set_ (with_error (Some "Failed to abandon workout"))).

(** *** The remaining commands of the store *)

Definition with_notes (e : WorkoutExercise) (n : string) : WorkoutExercise :=
  {| exerciseId := exerciseId e; sets := sets e;
     we_restTime := we_restTime e; we_notes := n |}.

(** The entry is at the index [findIndex] returned, so the lookup at that
    index cannot fail; the branch for a failed lookup is never taken. *)
Definition updateExerciseNotes_try (env : Env) (id : string) (text : string) : M unit :=
  s <- get ;;
  match currentWorkout s with
  | None => return_
  | Some current =>
      match findIndex (fun e => String.eqb (exerciseId e) id) (exercises current) with
      | None => return_
      | Some exerciseIndex =>
          match nth_error (exercises current) exerciseIndex with
          | None => throw "TypeError"
          | Some e =>
              let updatedExercises :=
                update_at exerciseIndex (with_notes e text) (exercises current) in
              let updatedWorkout := with_exercises current updatedExercises in
              set_ (with_current (Some updatedWorkout)) ;;
              setItem_current (setItemOk env) updatedWorkout
          end
      end
  end.

Definition updateExerciseNotes (env : Env) (id : string) (text : string)
  : World -> World :=
  try_catch (updateExerciseNotes_try env id text)
    (set_ (with_error (Some "Failed to update exercise notes"))).

Definition removeExerciseFromWorkout_try (env : Env) (id : string) : M unit :=
  s <- get ;;
  match currentWorkout s with
  | None => return_
  | Some current =>
      let updatedWorkout :=
        with_exercises current
          (filter (fun e => negb (String.eqb (exerciseId e) id)) (exercises current)) in
      set_ (with_current (Some updatedWorkout)) ;;
      setItem_current (setItemOk env) updatedWorkout
  end.

Definition removeExerciseFromWorkout (env : Env) (id : string) : World -> World :=
  try_catch (removeExerciseFromWorkout_try env id)
    (set_ (with_error (Some "Failed to remove exercise from workout"))).

(** [array.filter((_, index) => keep index)], [k] being the index of the
    head of [l]. *)
Fixpoint filter_index {A : Type} (keep : nat -> bool) (k : nat) (l : list A) : list A :=
  match l with
  | [] => []
  | x :: l' =>
      if keep k then x :: filter_index keep (S k) l' else filter_index keep (S k) l'
  end.

(** [sets.filter((_, index) => index !== setIndex)]. *)
Definition withoutIndex {A : Type} (setIndex : Z) (l : list A) : list A :=
  filter_index (fun index => negb (Z.of_nat index =? setIndex)%Z) O l.

Definition removeSetFromExercise_try (env : Env) (id : string) (setIndex : Z)
  : M unit :=
  s <- get ;;
  match currentWorkout s with
  | None => return_
  | Some current =>
      match findIndex (fun e => String.eqb (exerciseId e) id) (exercises current) with
      | None => return_
      | Some exerciseIndex =>
          match nth_error (exercises current) exerciseIndex with
          | None => throw "TypeError"
          | Some e =>
              let updatedExercises :=
                update_at exerciseIndex (with_sets e (withoutIndex setIndex (sets e)))
                          (exercises current) in
              let updatedWorkout := with_exercises current updatedExercises in
              set_ (with_current (Some updatedWorkout)) ;;
              setItem_current (setItemOk env) updatedWorkout
          end
      end
  end.

Definition removeSetFromExercise (env : Env) (id : string) (setIndex : Z)
  : World -> World :=
  try_catch (removeSetFromExercise_try env id setIndex)
    (set_ (with_error (Some "Failed to remove set from exercise"))).

(** [await Promise.all([getItem(CURRENT_WORKOUT), getItem(WORKOUT_HISTORY)])];
    [ok] tells whether the reads succeed. *)
Definition getItems (ok : bool) : M (option Workout * option (list Workout)) :=
  fun w =>
    if ok then (Next (CURRENT_WORKOUT (disk w), WORKOUT_HISTORY (disk w)), w)
    else (Thrown "AsyncStorage.getItem rejected", w).

Definition with_loaded (c : option Workout) (h : list Workout) (s : State) : State :=
  {| currentWorkout := c; workoutHistory := h;
     isLoading := isLoading s; error := error s |}.

Definition loadWorkoutHistory_try (ok : bool) : M unit :=
  set_ begin_loading ;;
  data <- getItems ok ;;
  let current := fst data in
  let history := match snd data with Some h => h | None => [] end in
  set_ (with_loaded current history).

Definition loadWorkoutHistory (ok : bool) : World -> World :=
  try_catch_finally (loadWorkoutHistory_try ok)
    (set_ (with_error (Some "Failed to load workout data")))
    (set_ (with_loading false)).

(** [workoutHistory.find(w => w.id === workoutId) || null]. *)
Definition getWorkoutById (s : State) (workoutId : string) : option Workout :=
  find (fun w => String.eqb (w_id w) workoutId) (workoutHistory s).

Definition with_history (h : list Workout) (s : State) : State :=
  {| currentWorkout := currentWorkout s; workoutHistory := h;
     isLoading := isLoading s; error := error s |}.

Definition deleteWorkout_try (env : Env) (workoutId : string) : M unit :=
  s <- get ;;
  let updatedHistory :=
    filter (fun w => negb (String.eqb (w_id w) workoutId)) (workoutHistory s) in
  set_ (with_history updatedHistory) ;;
  setItem_history (setItemOk env) updatedHistory.

Definition deleteWorkout (env : Env) (workoutId : string) : World -> World :=
  try_catch (deleteWorkout_try env workoutId)
    (set_ (with_error (Some "Failed to delete workout"))).

(** The copy [duplicateWorkout] makes of a stored session. *)
Definition duplicateOf (env : Env) (original : Workout) : Workout :=
  {| w_id := freshId env;
     w_name := (w_name original ++ " (Copy)")%string;
     startTime := now env;
     endTime := None;
     exercises := map (fun e => with_sets e []) (exercises original);
     notes := notes original |}.

Definition duplicateWorkout_try (env : Env) (workoutId : string) : M unit :=
  s <- get ;;
  match find (fun w => String.eqb (w_id w) workoutId) (workoutHistory s) with
  | None =>
      set_ (with_error (Some "Workout not found")) ;;
      return_
  | Some originalWorkout =>
      set_ (with_current (Some (duplicateOf env originalWorkout))) ;;
      setItem_current (setItemOk env) (duplicateOf env originalWorkout)
  end.

Definition duplicateWorkout (env : Env) (workoutId : string) : World -> World :=
  try_catch (duplicateWorkout_try env workoutId)
    (set_ (with_error (Some "Failed to duplicate workout"))).

(** The commands of the store, each with the environment it runs in. *)
Inductive Command : Type :=
| StartWorkout (name : option string)
| AddExerciseToWorkout (id : string)
| AddSetToExercise (id : string) (setInput : SetInput)
| UpdateExerciseNotes (id : string) (text : string)
| RemoveExerciseFromWorkout (id : string)
| RemoveSetFromExercise (id : string) (setIndex : Z)
| CompleteWorkout
| AbandonWorkout
| LoadWorkoutHistory (ok : bool)
| DeleteWorkout (workoutId : string)
| DuplicateWorkout (workoutId : string).

Definition run (step : Env * Command) : World -> World :=
  let (env, c) := step in
  match c with
  | StartWorkout name => startWorkout env name
  | AddExerciseToWorkout id => addExerciseToWorkout env id
  | AddSetToExercise id setInput => addSetToExercise env id setInput
  | UpdateExerciseNotes id text => updateExerciseNotes env id text
  | RemoveExerciseFromWorkout id => removeExerciseFromWorkout env id
  | RemoveSetFromExercise id setIndex => removeSetFromExercise env id setIndex
  | CompleteWorkout => completeWorkout env
  | AbandonWorkout => abandonWorkout env
  | LoadWorkoutHistory ok => loadWorkoutHistory ok
  | DeleteWorkout workoutId => deleteWorkout env workoutId
  | DuplicateWorkout workoutId => duplicateWorkout env workoutId
  end.

(** The commands of a list, run in order. *)
Definition runAll (steps : list (Env * Command)) (w : World) : World :=
  fold_left (fun w step => run step w) steps w.

End WorkoutStore.

(** ** Workout model (store/fitness/models/Workout) *)

(** [Partial<Workout>]: an absent field is [undefined]; an absent end time
    is [undefined] or [null]. *)
Record PartialWorkout : Type := {
  pw_id : option string;
  pw_name : option string;
  pw_startTime : option Z;
  pw_endTime : option Z;
  pw_exercises : option (list WorkoutExercise);
  pw_notes : option string
}.

Module WorkoutModel.

Section WithTrim.

(** [String.prototype.trim], and the value of [new Date()]. *)
Variable trim : string -> string.
Variable clock : Z.

(** [!s || s.trim() === '']. *)
Definition blank (s : option string) : bool :=
  match s with
  | None => true
  | Some v => String.eqb v "" || String.eqb (trim v) ""
  end.

(** [startTime && endTime && endTime.getTime() <= startTime.getTime()]. *)
Definition endsBeforeStart (workout : PartialWorkout) : bool :=
  match pw_startTime workout, pw_endTime workout with
  | Some s, Some e => (e <=? s)%Z
  | _, _ => false
  end.

Definition errors_of (workout : PartialWorkout) : list string :=
  let errors := [] in
  let errors :=
    SetValidator.push_if (blank (pw_id workout)) "Workout ID is required" errors in
  let errors :=
    SetValidator.push_if (blank (pw_name workout)) "Workout name is required" errors in
  let errors :=
    SetValidator.push_if (match pw_startTime workout with None => true | Some _ => false end)
                         "Valid start time is required" errors in
  (* an end time, when present, is a Date by its type: no error *)
  let errors :=
    SetValidator.push_if (endsBeforeStart workout)
                         "End time must be after start time" errors in
  let errors :=
    SetValidator.push_if (match pw_exercises workout with None => true | Some _ => false end)
                         "Exercises must be an array" errors in
  (* notes, when present, are a string by their type: no error *)
  errors.

Definition validate (workout : PartialWorkout) : bool * list string :=
  let errors := errors_of workout in
  (Nat.eqb (List.length errors) 0, errors).

(** [s?.trim() || '']. *)
Definition trimmed (s : option string) : string :=
  match s with
  | None => ""
  | Some v => if String.eqb (trim v) "" then "" else trim v
  end.

Definition sanitize (workout : PartialWorkout) : Workout :=
  {| w_id := trimmed (pw_id workout);
     w_name := trimmed (pw_name workout);
     startTime := match pw_startTime workout with Some t => t | None => clock end;
     endTime := pw_endTime workout;
     exercises := match pw_exercises workout with Some es => es | None => [] end;
     notes := trimmed (pw_notes workout) |}.

(** The constructor: validate, then sanitize. *)
Definition new (data : PartialWorkout) : result Workout :=
  let validation := validate data in
  if negb (fst validation)
  then Err ("Invalid workout data: " ++ String.concat ", " (snd validation))%string
  else Ok (sanitize data).

Definition getDuration (data : Workout) : option Z :=
  match endTime data with
  | None => None
  | Some e => Some (e - startTime data)%Z
  end.

(** [duration ? Math.round(duration / (1000 * 60)) : null]. *)
Definition getDurationMinutes (data : Workout) : option Z :=
  match getDuration data with
  | None => None
  | Some duration =>
      if (duration =? 0)%Z then None
      else Some (Qfloor (inject_Z duration / (1000 * 60) + (1 # 2)))
  end.

Definition isInProgress (data : Workout) : bool :=
  match endTime data with None => true | Some _ => false end.

Definition isCompleted (data : Workout) : bool :=
  match endTime data with None => false | Some _ => true end.


Definition getTotalVolume (data : Workout) : Q :=
  fold_left (fun total exercise =>
               total + fold_left (fun exerciseTotal set =>
                                    exerciseTotal + reps set * weight set)
                                 (sets exercise) 0)
            (exercises data) 0.

Definition hasExercise (data : Workout) (id : string) : bool :=
  existsb (fun e => String.eqb (exerciseId e) id) (exercises data).

Definition getExercise (data : Workout) (id : string) : option WorkoutExercise :=
  find (fun e => String.eqb (exerciseId e) id) (exercises data).

(** [{ ...this.data }]: every field present. *)
Definition spread (data : Workout) : PartialWorkout :=
  {| pw_id := Some (w_id data); pw_name := Some (w_name data);
     pw_startTime := Some (startTime data); pw_endTime := endTime data;
     pw_exercises := Some (exercises data); pw_notes := Some (notes data) |}.

Definition spread_endTime (data : Workout) (t : Z) : PartialWorkout :=
  {| pw_id := Some (w_id data); pw_name := Some (w_name data);
     pw_startTime := Some (startTime data); pw_endTime := Some t;
     pw_exercises := Some (exercises data); pw_notes := Some (notes data) |}.


Definition spread_notes (data : Workout) (text : string) : PartialWorkout :=
  {| pw_id := Some (w_id data); pw_name := Some (w_name data);
     pw_startTime := Some (startTime data); pw_endTime := endTime data;
     pw_exercises := Some (exercises data); pw_notes := Some text |}.

(** [endTime || new Date()]. *)
Definition complete (data : Workout) (endTime : option Z) : result Workout :=
  new (spread_endTime data match endTime with Some t => t | None => clock end).



Definition updateNotes (data : Workout) (text : string) : result Workout :=
  new (spread_notes data (trim text)).

End WithTrim.

End WorkoutModel.

(** ** WorkoutService (history query) *)

Module WorkoutService.

(** [b.startTime.getTime() - a.startTime.getTime()]. *)
Definition byStartTimeDesc (a b : Workout) : Z := (startTime b - startTime a)%Z.

(** [offset || 0]. *)
Definition offset_or0 (offset : option Z) : Z :=
  match offset with
  | Some o => o
  | None => 0%Z
  end.

(** [limit ? start + limit : undefined]. *)
Definition end_of (limit : option Z) (start : Z) : option Z :=
  match limit with
  | Some l => if (l =? 0)%Z then None else Some (start + l)%Z
  | None => None
  end.

Definition getWorkoutHistory (storage : AsyncStorage) (limit offset : option Z)
  : list Workout :=
  match WORKOUT_HISTORY storage with
  | None => []
  | Some history =>
      let history := js_sort byStartTimeDesc history in
      let start := offset_or0 offset in
      js_slice history start (end_of limit start)
  end.

(** The commands of the service work on storage alone.  [getItem] resolves
    with what is stored, as in [getWorkoutHistory]; a rejected [setItem] or
    [removeItem] throws the error whose message is [reason]. *)
Definition Call (A : Type) : Type := AsyncStorage -> result A * AsyncStorage.

(** [catch (error) { throw new Error(`${what}: ${error.message}`) }]. *)
Definition failed {A : Type} (what : string) (call : Call A) : Call A :=
  fun storage =>
    match call storage with
    | (Ok a, storage') => (Ok a, storage')
    | (Err msg, storage') => (Err (what ++ ": " ++ msg)%string, storage')
    end.

Definition getCurrentWorkout (storage : AsyncStorage) : option Workout :=
  CURRENT_WORKOUT storage.

Definition setCurrent (env : WorkoutStore.Env) (reason : string) (c : Workout)
  : Call unit :=
  fun storage =>
    if WorkoutStore.setItemOk env
    then (Ok tt, {| CURRENT_WORKOUT := Some c;
                    WORKOUT_HISTORY := WORKOUT_HISTORY storage |})
    else (Err reason, storage).

Definition setHistory (env : WorkoutStore.Env) (reason : string) (h : list Workout)
  : Call unit :=
  fun storage =>
    if WorkoutStore.setItemOk env
    then (Ok tt, {| CURRENT_WORKOUT := CURRENT_WORKOUT storage;
                    WORKOUT_HISTORY := Some h |})
    else (Err reason, storage).

Definition removeCurrent (env : WorkoutStore.Env) (reason : string) : Call unit :=
  fun storage =>
    if WorkoutStore.removeItemOk env
    then (Ok tt, {| CURRENT_WORKOUT := None;
                    WORKOUT_HISTORY := WORKOUT_HISTORY storage |})
    else (Err reason, storage).

Definition addExerciseToWorkout (env : WorkoutStore.Env) (reason : string)
  (id : string) : Call unit :=
  failed "Failed to add exercise to workout"
    (fun storage =>
       match getCurrentWorkout storage with
       | None => (Err "No active workout", storage)
       | Some currentWorkout =>
           if existsb (fun e => String.eqb (exerciseId e) id) (exercises currentWorkout)
           then (Err "Exercise already added to workout", storage)
           else
             let updatedWorkout :=
               WorkoutStore.with_exercises currentWorkout
                 (exercises currentWorkout ++ [WorkoutStore.newExercise id]) in
             setCurrent env reason updatedWorkout storage
       end).

Definition addSetToExercise (env : WorkoutStore.Env) (reason : string)
  (id : string) (set : SetInput) : Call unit :=
  failed "Failed to add set to exercise"
    (fun storage =>
       match getCurrentWorkout storage with
       | None => (Err "No active workout", storage)
       | Some currentWorkout =>
           match findIndex (fun e => String.eqb (exerciseId e) id)
                           (exercises currentWorkout) with
           | None => (Err "Exercise not found in workout", storage)
           | Some exerciseIndex =>
               match nth_error (exercises currentWorkout) exerciseIndex with
               | None => (Err "Exercise not found in workout", storage)
               | Some e =>
                   let updatedExercises :=
                     update_at exerciseIndex
                       (WorkoutStore.with_sets e (sets e ++ [WorkoutStore.newSet set]))
                       (exercises currentWorkout) in
                   setCurrent env reason
                     (WorkoutStore.with_exercises currentWorkout updatedExercises)
                     storage
               end
           end
       end).

(** [Promise.all] of the write of the history and the removal of the active
    session: both are issued, and either rejection is thrown. *)
Definition both (a b : Call unit) : Call unit :=
  fun storage =>
    let (ra, storage1) := a storage in
    let (rb, storage2) := b storage1 in
    match ra, rb with
    | Err msg, _ => (Err msg, storage2)
    | _, Err msg => (Err msg, storage2)
    | _, _ => (Ok tt, storage2)
    end.

Definition completeWorkout (env : WorkoutStore.Env) (reason : string) : Call Workout :=
  failed "Failed to complete workout"
    (fun storage =>
       match getCurrentWorkout storage with
       | None => (Err "No active workout to complete", storage)
       | Some currentWorkout =>
           if Nat.eqb (List.length (exercises currentWorkout)) 0
           then (Err "Cannot complete workout with no exercises", storage)
           else
             let completedWorkout :=
               WorkoutStore.with_endTime currentWorkout (Some (WorkoutStore.now env)) in
             let history := match WORKOUT_HISTORY storage with
                            | Some h => h
                            | None => []
                            end in
             let updatedHistory := completedWorkout :: history in
             match both (setHistory env reason updatedHistory)
                        (removeCurrent env reason) storage with
             | (Ok _, storage') => (Ok completedWorkout, storage')
             | (Err msg, storage') => (Err msg, storage')
             end
       end).

(** [trim] is [String.prototype.trim], used by the Workout model. *)
Definition createWorkout (trim : string -> string) (env : WorkoutStore.Env)
  (reason : string) (name : option string) : Call Workout :=
  failed "Failed to create workout"
    (fun storage =>
       let workout :=
         {| pw_id := Some (WorkoutStore.freshId env);
            pw_name := Some (WorkoutStore.name_or_default name (WorkoutStore.freshName env));
            pw_startTime := Some (WorkoutStore.now env);
            pw_endTime := None;
            pw_exercises := Some [];
            pw_notes := Some "" |} in
       match WorkoutModel.new trim (WorkoutStore.now env) workout with
       | Err msg => (Err msg, storage)
       | Ok validatedWorkout =>
           match setCurrent env reason validatedWorkout storage with
           | (Ok _, storage') => (Ok validatedWorkout, storage')
           | (Err msg, storage') => (Err msg, storage')
           end
       end).

Definition getWorkoutById (storage : AsyncStorage) (workoutId : string)
  : option Workout :=
  find (fun w => String.eqb (w_id w) workoutId) (getWorkoutHistory storage None None).

Definition deleteWorkout (env : WorkoutStore.Env) (reason : string)
  (workoutId : string) : Call bool :=
  failed "Failed to delete workout"
    (fun storage =>
       match WORKOUT_HISTORY storage with
       | None => (Ok false, storage)
       | Some history =>
           let updatedHistory :=
             filter (fun w => negb (String.eqb (w_id w) workoutId)) history in
           if Nat.eqb (List.length updatedHistory) (List.length history)
           then (Ok false, storage)
           else
             match setHistory env reason updatedHistory storage with
             | (Ok _, storage') => (Ok true, storage')
             | (Err msg, storage') => (Err msg, storage')
             end
       end).

End WorkoutService.

(** ** ExerciseService (catalog lookup) *)

Module ExerciseService.

Definition getExerciseById (catalog : list Exercise) (id : string) : option Exercise :=
  find (fun e => String.eqb (ex_id e) id) catalog.

End ExerciseService.

(** ** ProgressService (analytics) *)

Module ProgressService.

Record ProgressMetrics : Type := {
  pm_exerciseId : string;
  pm_exerciseName : string;
  pm_oneRepMax : num;
  pm_totalVolume : Q;
  pm_averageWeight : Q;
  pm_totalSets : nat;
  pm_totalReps : Q;
  pm_progressPercentage : num
}.

Record FrequencyData : Type := {
  totalWorkouts : nat;
  averagePerWeek : Q;
  longestStreak : nat;
  currentStreak : nat;
  workoutDates : list Z
}.

Record PersonalRecord : Type := {
  pr_exerciseId : string;
  pr_exerciseName : string;
  maxWeight : Q;
  maxReps : Q;
  maxVolume : Q;
  pr_oneRepMax : num;
  achievedDate : Z
}.

Inductive Trend : Type := up | down | stable.

Record StrengthPoint : Type := {
  sp_date : Z;
  sp_weight : Q;
  sp_oneRepMax : num;
  sp_volume : Q
}.

Record StrengthProgression : Type := {
  sg_exerciseId : string;
  sg_exerciseName : string;
  dataPoints : list StrengthPoint;
  trendDirection : Trend;
  progressRate : num
}.

Definition MS_PER_DAY : Q := 1000 * 60 * 60 * 24.

Definition hasExercise (id : string) (w : Workout) : bool :=
  existsb (fun e => String.eqb (exerciseId e) id) (exercises w).

Definition findExercise (id : string) (w : Workout) : option WorkoutExercise :=
  find (fun e => String.eqb (exerciseId e) id) (exercises w).

(** The expression repeated in [getExerciseProgress], [getPersonalRecords]
    and [getStrengthProgression]:
    [set.reps === 1 ? set.weight : set.weight * (36 / (37 - set.reps))]. *)
Definition inlineOneRepMax (s : WorkoutSet) : num :=
  if Qeq_bool (reps s) 1 then Fin (weight s)
  else nmul (Fin (weight s)) (ndiv (Fin 36) (nsub (Fin 37) (Fin (reps s)))).

Definition getWorkoutsInTimeRange (storage : AsyncStorage) (timeRange : TimeRange)
  : list Workout :=
  filter (fun w =>
            (startDate timeRange <=? startTime w)%Z
            && (startTime w <=? endDate timeRange)%Z
            && match endTime w with Some _ => true | None => false end)
         (WorkoutService.getWorkoutHistory storage None None).

Definition byStartTimeAsc (a b : Workout) : Z := (startTime a - startTime b)%Z.

Definition maxWeightOf (e : WorkoutExercise) : num :=
  nmax_list (map (fun s => Fin (weight s)) (sets e)).

Definition calculateProgressPercentage (workouts : list Workout) (id : string) : num :=
  if Nat.ltb (List.length workouts) 2 then Fin 0
  else
    let sortedWorkouts := js_sort byStartTimeAsc workouts in
    match sortedWorkouts with
    | [] => Fin 0
    | firstWorkout :: _ =>
        let lastWorkout := last sortedWorkouts firstWorkout in
        match findExercise id firstWorkout, findExercise id lastWorkout with
        | Some firstExercise, Some lastExercise =>
            let firstMaxWeight := maxWeightOf firstExercise in
            let lastMaxWeight := maxWeightOf lastExercise in
            if ngt firstMaxWeight (Fin 0)
            then nmul (ndiv (nsub lastMaxWeight firstMaxWeight) firstMaxWeight) (Fin 100)
            else Fin 0
        | _, _ => Fin 0
        end
    end.

(** The running totals of [getExerciseProgress]. *)
Record Totals : Type := {
  totalVolume : Q;
  totalSets : nat;
  totalReps : Q;
  totalWeight : Q;
  maxOneRepMax : num
}.

Definition noTotals : Totals :=
  {| totalVolume := 0; totalSets := O; totalReps := 0; totalWeight := 0;
     maxOneRepMax := Fin 0 |}.

Definition addSet (t : Totals) (s : WorkoutSet) : Totals :=
  {| totalVolume := totalVolume t + reps s * weight s;
     totalSets := S (totalSets t);
     totalReps := totalReps t + reps s;
     totalWeight := totalWeight t + weight s;
     maxOneRepMax := nmax (maxOneRepMax t) (inlineOneRepMax s) |}.

Definition addWorkout (id : string) (t : Totals) (w : Workout) : Totals :=
  match findExercise id w with
  | Some exerciseData => fold_left addSet (sets exerciseData) t
  | None => t
  end.

Definition notFound (id : string) : string :=
  ("Exercise with ID " ++ id ++ " not found")%string.

Definition getExerciseProgress_try (catalog : list Exercise) (storage : AsyncStorage)
  (id : string) (timeRange : TimeRange) : result ProgressMetrics :=
  let workouts := getWorkoutsInTimeRange storage timeRange in
  match ExerciseService.getExerciseById catalog id with
  | None => Err (notFound id)
  | Some exercise =>
      let exerciseWorkouts := filter (hasExercise id) workouts in
      if Nat.eqb (List.length exerciseWorkouts) 0
      then Ok {| pm_exerciseId := id; pm_exerciseName := ex_name exercise;
                 pm_oneRepMax := Fin 0; pm_totalVolume := 0; pm_averageWeight := 0;
                 pm_totalSets := O; pm_totalReps := 0;
                 pm_progressPercentage := Fin 0 |}
      else
        let t := fold_left (addWorkout id) exerciseWorkouts noTotals in
        let averageWeight :=
          if Nat.ltb 0 (totalSets t)
          then totalWeight t / inject_Z (Z.of_nat (totalSets t))
          else 0 in
        Ok {| pm_exerciseId := id; pm_exerciseName := ex_name exercise;
              pm_oneRepMax := maxOneRepMax t; pm_totalVolume := totalVolume t;
              pm_averageWeight := averageWeight;
              pm_totalSets := totalSets t; pm_totalReps := totalReps t;
              pm_progressPercentage :=
                calculateProgressPercentage exerciseWorkouts id |}
  end.

(** [catch (error) { throw new Error(prefix + error.message) }]. *)
Definition rethrow {A : Type} (prefix : string) (r : result A) : result A :=
  match r with
  | Ok a => Ok a
  | Err msg => Err (prefix ++ msg)%string
  end.

Definition getExerciseProgress (catalog : list Exercise) (storage : AsyncStorage)
  (id : string) (timeRange : TimeRange) : result ProgressMetrics :=
  rethrow "Failed to get exercise progress: "
          (getExerciseProgress_try catalog storage id timeRange).

(** *** Streaks and frequency *)

Definition daysBetween (a b : Z) : Q := Qabs (inject_Z (a - b)) / MS_PER_DAY.

(** The loop over [i = 1 .. length - 1], [prev] being [workoutDates[i - 1]]. *)
Fixpoint streakLoop (prev : Z) (rest : list Z) (longestStreak tempStreak : nat)
  : nat * nat :=
  match rest with
  | [] => (longestStreak, tempStreak)
  | d :: rest' =>
      if Qle_bool (daysBetween d prev) 7
      then streakLoop d rest' longestStreak (S tempStreak)
      else streakLoop d rest' (Nat.max longestStreak tempStreak) 1%nat
  end.

(** [clock] is the value [new Date()] takes inside the function. *)
Definition calculateStreaks (clock : Z) (workoutDates : list Z) : nat * nat :=
  match workoutDates with
  | [] => (O, O)
  | d0 :: rest =>
      let (longestStreak, tempStreak) := streakLoop d0 rest 1%nat 1%nat in
      let longestStreak := Nat.max longestStreak tempStreak in
      let mostRecentWorkout := last workoutDates d0 in
      let daysSinceLastWorkout := inject_Z (clock - mostRecentWorkout) / MS_PER_DAY in
      (longestStreak, if Qle_bool daysSinceLastWorkout 7 then tempStreak else O)
  end.

Definition ascending (a b : Z) : Z := (a - b)%Z.

Definition totalDaysOf (timeRange : TimeRange) : Z :=
  Qceiling (inject_Z (endDate timeRange - startDate timeRange) / MS_PER_DAY).

Definition getWorkoutFrequency (clock : Z) (storage : AsyncStorage)
  (timeRange : TimeRange) : FrequencyData :=
  let workouts := getWorkoutsInTimeRange storage timeRange in
  let dates := js_sort ascending (map startTime workouts) in
  let total := List.length workouts in
  let totalWeeks := inject_Z (totalDaysOf timeRange) / 7 in
  let perWeek :=
    if Qgtb totalWeeks 0 then inject_Z (Z.of_nat total) / totalWeeks else 0 in
  let (longest, current) := calculateStreaks clock dates in
  {| totalWorkouts := total; averagePerWeek := perWeek;
     longestStreak := longest; currentStreak := current;
     workoutDates := dates |}.

(** *** Personal records *)

(** [Map<string, PersonalRecord>]: keys in insertion order. *)
Definition Records : Type := list (string * PersonalRecord).

Fixpoint records_get (k : string) (m : Records) : option PersonalRecord :=
  match m with
  | [] => None
  | (k', v) :: m' => if String.eqb k' k then Some v else records_get k m'
  end.

Fixpoint records_set (k : string) (v : PersonalRecord) (m : Records) : Records :=
  match m with
  | [] => [(k, v)]
  | (k', v') :: m' =>
      if String.eqb k' k then (k, v) :: m' else (k', v') :: records_set k v m'
  end.

(** [exercise?.name || exerciseData.exerciseId]. *)
Definition displayName (catalog : list Exercise) (id : string) : string :=
  match ExerciseService.getExerciseById catalog id with
  | Some exercise => if String.eqb (ex_name exercise) "" then id else ex_name exercise
  | None => id
  end.

(** [currentRecord?.field || 0]. *)
Definition field_or0 (f : PersonalRecord -> Q) (currentRecord : option PersonalRecord) : Q :=
  match currentRecord with
  | Some r => Q_or0 (f r)
  | None => 0
  end.

Definition oneRepMax_or0 (currentRecord : option PersonalRecord) : num :=
  match currentRecord with
  | Some r => n_or0 (pr_oneRepMax r)
  | None => Fin 0
  end.

(** The condition under which a set replaces the record. *)
Definition exceeds (currentRecord : option PersonalRecord) (s : WorkoutSet) : bool :=
  match currentRecord with
  | None => true
  | Some r =>
      Qgtb (weight s) (maxWeight r)
      || Qgtb (reps s) (maxReps r)
      || Qgtb (reps s * weight s) (maxVolume r)
      || ngt (inlineOneRepMax s) (pr_oneRepMax r)
  end.

Definition recordOf (catalog : list Exercise) (w : Workout) (id : string)
  (currentRecord : option PersonalRecord) (s : WorkoutSet) : PersonalRecord :=
  {| pr_exerciseId := id;
     pr_exerciseName := displayName catalog id;
     maxWeight := Qmaxb (field_or0 maxWeight currentRecord) (weight s);
     maxReps := Qmaxb (field_or0 maxReps currentRecord) (reps s);
     maxVolume := Qmaxb (field_or0 maxVolume currentRecord) (reps s * weight s);
     pr_oneRepMax := nmax (oneRepMax_or0 currentRecord) (inlineOneRepMax s);
     achievedDate := startTime w |}.

Definition scanSet (catalog : list Exercise) (w : Workout) (id : string)
  (currentRecord : option PersonalRecord) (records : Records) (s : WorkoutSet)
  : Records :=
  if exceeds currentRecord s
  then records_set id (recordOf catalog w id currentRecord s) records
  else records.

(** [currentRecord] is read once, before the loop over the sets. *)
Definition scanExercise (catalog : list Exercise) (w : Workout) (records : Records)
  (exerciseData : WorkoutExercise) : Records :=
  let currentRecord := records_get (exerciseId exerciseData) records in
  fold_left (scanSet catalog w (exerciseId exerciseData) currentRecord)
            (sets exerciseData) records.

Definition scanWorkout (catalog : list Exercise) (records : Records) (w : Workout)
  : Records :=
  fold_left (scanExercise catalog w) (exercises w) records.

Definition scanHistory (catalog : list Exercise) (allWorkouts : list Workout) : Records :=
  fold_left (scanWorkout catalog) allWorkouts [].

Definition getPersonalRecords (catalog : list Exercise) (storage : AsyncStorage)
  : list PersonalRecord :=
  map snd (scanHistory catalog (WorkoutService.getWorkoutHistory storage None None)).

Definition getExercisePersonalRecord (catalog : list Exercise) (storage : AsyncStorage)
  (id : string) : option PersonalRecord :=
  find (fun r => String.eqb (pr_exerciseId r) id) (getPersonalRecords catalog storage).

(** *** Strength progression *)

Definition pointStep (acc : Q * Q * num) (s : WorkoutSet) : Q * Q * num :=
  let '(maxW, volume, max1RM) := acc in
  (Qmaxb maxW (weight s), volume + reps s * weight s, nmax max1RM (inlineOneRepMax s)).

Definition pointOf (w : Workout) (exerciseData : WorkoutExercise) : StrengthPoint :=
  let '(maxW, volume, max1RM) := fold_left pointStep (sets exerciseData) (0, 0, Fin 0) in
  {| sp_date := startTime w; sp_weight := maxW; sp_oneRepMax := max1RM;
     sp_volume := volume |}.

Definition pushPoint (id : string) (points : list StrengthPoint) (w : Workout)
  : list StrengthPoint :=
  match findExercise id w with
  | Some exerciseData =>
      if Nat.ltb 0 (List.length (sets exerciseData))
      then points ++ [pointOf w exerciseData]
      else points
  | None => points
  end.

Definition byDate (a b : StrengthPoint) : Z := (sp_date a - sp_date b)%Z.

Definition calculateTrendDirection (values : list num) : Trend :=
  if Nat.ltb (List.length values) 2 then stable
  else
    match values with
    | [] => stable
    | firstValue :: _ =>
        let lastValue := last values firstValue in
        let change := ndiv (nsub lastValue firstValue) firstValue in
        if ngt change (Fin (5 # 100)) then up
        else if nlt change (Fin (- (5 # 100))) then down
        else stable
    end.

Definition calculateProgressRate (points : list StrengthPoint) : num :=
  if Nat.ltb (List.length points) 2 then Fin 0
  else
    match js_sort byDate points with
    | [] => Fin 0
    | firstPoint :: _ as sortedPoints =>
        let lastPoint := last sortedPoints firstPoint in
        let timeDiffWeeks :=
          inject_Z (sp_date lastPoint - sp_date firstPoint) / (MS_PER_DAY * 7) in
        let oneRepMaxChange := nsub (sp_oneRepMax lastPoint) (sp_oneRepMax firstPoint) in
        if Qgtb timeDiffWeeks 0 && ngt (sp_oneRepMax firstPoint) (Fin 0)
        then nmul (ndiv (ndiv oneRepMaxChange (sp_oneRepMax firstPoint))
                        (Fin timeDiffWeeks))
                  (Fin 100)
        else Fin 0
    end.

Definition getStrengthProgression_try (catalog : list Exercise) (storage : AsyncStorage)
  (id : string) (timeRange : TimeRange) : result StrengthProgression :=
  let workouts := getWorkoutsInTimeRange storage timeRange in
  match ExerciseService.getExerciseById catalog id with
  | None => Err (notFound id)
  | Some exercise =>
      let points := js_sort byDate (fold_left (pushPoint id) workouts []) in
      Ok {| sg_exerciseId := id; sg_exerciseName := ex_name exercise;
            dataPoints := points;
            trendDirection := calculateTrendDirection (map sp_oneRepMax points);
            progressRate := calculateProgressRate points |}
  end.

Definition getStrengthProgression (catalog : list Exercise) (storage : AsyncStorage)
  (id : string) (timeRange : TimeRange) : result StrengthProgression :=
  rethrow "Failed to get strength progression: "
          (getStrengthProgression_try catalog storage id timeRange).

(** *** Volume by date *)

Record VolumePoint : Type := {
  vp_date : Z;
  vp_volume : Q
}.

Record VolumeData : Type := {
  vd_totalVolume : Q;
  volumeByDate : list VolumePoint;
  vd_trendDirection : Trend
}.

(** [Map<string, number>]: keys in insertion order. *)
Definition Volumes : Type := list (string * Q).

Fixpoint volumes_get (k : string) (m : Volumes) : option Q :=
  match m with
  | [] => None
  | (k', v) :: m' => if String.eqb k' k then Some v else volumes_get k m'
  end.

Fixpoint volumes_set (k : string) (v : Q) (m : Volumes) : Volumes :=
  match m with
  | [] => [(k, v)]
  | (k', v') :: m' =>
      if String.eqb k' k then (k, v) :: m' else (k', v') :: volumes_set k v m'
  end.

(** The volume of one session, over its exercises and their sets. *)
Definition workoutVolumeOf (w : Workout) : Q :=
  fold_left (fun workoutVolume exercise =>
               fold_left (fun workoutVolume set => workoutVolume + reps set * weight set)
                         (sets exercise) workoutVolume)
            (exercises w) 0.

(** [toDateString] is [Date.prototype.toDateString] in the time zone of the
    device. *)
Definition volumeStep (toDateString : Z -> string) (acc : Q * Volumes) (w : Workout)
  : Q * Volumes :=
  let (totalVolume, volumeByDateMap) := acc in
  let dateKey := toDateString (startTime w) in
  let workoutVolume := workoutVolumeOf w in
  (totalVolume + workoutVolume,
   volumes_set dateKey
     (match volumes_get dateKey volumeByDateMap with
      | Some v => Q_or0 v
      | None => 0
      end + workoutVolume)
     volumeByDateMap).

Definition byPointDate (a b : VolumePoint) : Z := (vp_date a - vp_date b)%Z.

(** [parseDate] is [new Date(dateString).getTime()]. *)
Definition getTotalVolume (toDateString : Z -> string) (parseDate : string -> Z)
  (storage : AsyncStorage) (timeRange : TimeRange) : VolumeData :=
  let workouts := getWorkoutsInTimeRange storage timeRange in
  let (totalVolume, volumeByDateMap) :=
    fold_left (volumeStep toDateString) workouts (0, []) in
  let points :=
    map (fun kv => {| vp_date := parseDate (fst kv); vp_volume := snd kv |})
        volumeByDateMap in
  let points := js_sort byPointDate points in
  {| vd_totalVolume := totalVolume;
     volumeByDate := points;
     vd_trendDirection := calculateTrendDirection (map (fun v => Fin (vp_volume v)) points) |}.

(** *** Consistency *)

Record ConsistencyMetrics : Type := {
  workoutDays : nat;
  cm_totalDays : Z;
  consistencyPercentage : Q;
  averageWorkoutsPerWeek : Q;
  missedDays : Z
}.

(** [new Set(keys)]: every key once, in order of first occurrence. *)
Definition newSetOf (keys : list string) : list string :=
  fold_left (fun seen k => if existsb (String.eqb k) seen then seen else seen ++ [k])
            keys [].

Definition getConsistencyMetrics (toDateString : Z -> string)
  (storage : AsyncStorage) (timeRange : TimeRange) : ConsistencyMetrics :=
  let workouts := getWorkoutsInTimeRange storage timeRange in
  let workoutDates := newSetOf (map (fun w => toDateString (startTime w)) workouts) in
  let totalDays := totalDaysOf timeRange in
  let workoutDays := List.length workoutDates in
  {| workoutDays := workoutDays;
     cm_totalDays := totalDays;
     consistencyPercentage :=
       if (0 <? totalDays)%Z
       then inject_Z (Z.of_nat workoutDays) / inject_Z totalDays * 100
       else 0;
     averageWorkoutsPerWeek :=
       if (0 <? totalDays)%Z
       then inject_Z (Z.of_nat (List.length workouts)) / inject_Z totalDays * 7
       else 0;
     missedDays := (totalDays - Z.of_nat workoutDays)%Z |}.

End ProgressService.

(** ** MigrationService (version comparison) *)

Module MigrationService.

(** [parts[i] || 0], on the numbers [v.split('.').map(Number)] gives:
    a missing part, a zero and a part that is not a number count as 0. *)
Definition part (parts : list num) (i : nat) : num :=
  match nth_error parts i with
  | Some v => n_or0 v
  | None => Fin 0
  end.

(** The loop over [i], with [remaining = maxLength - i]. *)
Fixpoint compareFrom (aParts bParts : list num) (i remaining : nat) : Z :=
  match remaining with
  | O => 0%Z
  | S remaining' =>
      let aPart := part aParts i in
      let bPart := part bParts i in
      if nlt aPart bPart then (-1)%Z
      else if ngt aPart bPart then 1%Z
      else compareFrom aParts bParts (S i) remaining'
  end.

Definition compareVersions (aParts bParts : list num) : Z :=
  let maxLength := Nat.max (List.length aParts) (List.length bParts) in
  compareFrom aParts bParts 0 maxLength.

Definition shouldRunMigration (currentVersion migrationVersion : list num) : bool :=
  (compareVersions currentVersion migrationVersion <? 0)%Z.

End MigrationService.

(** ** Specification-side definitions *)

Module Spec.

Import WorkoutStore ProgressService.

(** The entry of exercise [id] in a session. *)
Definition entry (id : string) (c : Workout) : option WorkoutExercise :=
  find (fun e => String.eqb (exerciseId e) id) (exercises c).

(** The set list of exercise [id] in the active session, if any. *)
Definition setsOf (id : string) (session : option Workout) : option (list WorkoutSet) :=
  match session with
  | Some c => option_map sets (entry id c)
  | None => None
  end.

(** A session has ended strictly after it started. *)
Definition endsAfterStart (c : Workout) : Prop :=
  match endTime c with
  | Some t => (startTime c < t)%Z
  | None => False
  end.

(** The range rules of the data model: reps a positive integer at most 1000,
    weight a non-negative number at most 10000. *)
Definition inRange (input : SetInput) : bool :=
  Qgtb (in_reps input) 0 && Q_isInteger (in_reps input)
  && Qle_bool (in_reps input) 1000
  && Qle_bool 0 (in_weight input) && Qle_bool (in_weight input) 10000.

(** The set an input becomes, seen as the validator's argument. *)
Definition asPartial (input : SetInput) : PartialSet :=
  {| p_reps := Some (Fin (in_reps input)); p_weight := Some (Fin (in_weight input));
     p_completed := in_completed input; p_restTime := Some (Fin 0) |}.






(** What a Workout model holds: trimmed texts, an identifier and a name
    that are not empty, and an end time, if any, after the start time. *)
Definition modelOk (trim : string -> string) (d : Workout) : Prop :=
  trim (w_id d) = w_id d /\ w_id d <> ""
  /\ trim (w_name d) = w_name d /\ w_name d <> ""
  /\ trim (notes d) = notes d
  /\ (forall e, endTime d = Some e -> (startTime d < e)%Z).


(** The date key of a session. *)
Definition dateKeyOf (toDateString : Z -> string) (w : Workout) : string :=
  toDateString (startTime w).

(** A weight or a rest time the validator lets through: a number from 0 to
    [bound], or [NaN]. *)
Definition withinOrNaN (bound : Q) (v : num) : Prop :=
  match v with
  | Fin x => 0 <= x /\ x <= bound
  | NaN => True
  | PInf | NInf => False
  end.

(** The values a Set may hold, by the rules of the validator. *)
Definition validSet (s : WorkoutSet) : Prop :=
  0 < reps s /\ reps s <= 1000 /\ Q_isInteger (reps s) = true
  /\ 0 <= weight s /\ weight s <= 10000
  /\ 0 <= restTime s /\ restTime s <= 7200.

(** Two sets with the same numbers. *)
Definition sameSet (a b : WorkoutSet) : Prop :=
  reps a == reps b /\ weight a == weight b /\ restTime a == restTime b
  /\ completed a = completed b.

(** Streaks as the specification words them.  Two consecutive dates are
    in the same run when the later is at most 7 days after the earlier. *)
Definition sameRun (earlier later : Z) : bool :=
  Qle_bool (inject_Z (later - earlier) / MS_PER_DAY) 7.

(** The maximal runs of a list of dates, in order. *)
Fixpoint splitRuns (dates : list Z) : list (list Z) :=
  match dates with
  | [] => []
  | d :: rest =>
      match splitRuns rest with
      | (d' :: run) :: runs =>
          if sameRun d d' then (d :: d' :: run) :: runs
          else [d] :: (d' :: run) :: runs
      | _ => [[d]]
      end
  end.

Definition longestRun (dates : list Z) : nat :=
  fold_right Nat.max O (map (@List.length Z) (splitRuns dates)).

Definition finalRun (dates : list Z) : nat :=
  List.length (last (splitRuns dates) []).

(** At most 7 days have passed between the most recent date and [clock]. *)
Definition recent (clock : Z) (dates : list Z) : bool :=
  match dates with
  | [] => false
  | d0 :: _ => Qle_bool (inject_Z (clock - last dates d0) / MS_PER_DAY) 7
  end.

Definition streaks (clock : Z) (dates : list Z) : nat * nat :=
  (longestRun dates, if recent clock dates then finalRun dates else O).

(** The sets recorded for exercise [id] in a list of sessions. *)
Definition matchingSets (id : string) (workouts : list Workout) : list WorkoutSet :=
  flat_map (fun w => match findExercise id w with
                     | Some e => sets e
                     | None => []
                     end) workouts.

(** The largest estimate of the Set model over a list of sets, from 0. *)
Definition maxEstimate (ss : list WorkoutSet) : num :=
  fold_left nmax (map (fun s => Fin (SetModel.getEstimatedOneRepMax s)) ss) (Fin 0).

(** The one-rep-max a progress query reports, when it returns. *)
Definition reportedOneRepMax (r : result ProgressMetrics) : option num :=
  match r with
  | Ok m => Some (pm_oneRepMax m)
  | Err _ => None
  end.

(** The order of personal records, dimension by dimension. *)
Definition record_le (r r' : PersonalRecord) : Prop :=
  maxWeight r <= maxWeight r' /\ maxReps r <= maxReps r'
  /\ maxVolume r <= maxVolume r' /\ nle (pr_oneRepMax r) (pr_oneRepMax r') = true.

(** No record yet is below every record. *)
Definition option_le (a b : option PersonalRecord) : Prop :=
  match a, b with
  | None, _ => True
  | Some r, Some r' => record_le r r'
  | Some _, None => False
  end.

Definition records_le (m m' : Records) : Prop :=
  forall k : string, option_le (records_get k m) (records_get k m').

(** A record whose four values are numbers not below 0. *)
Definition sound (r : PersonalRecord) : Prop :=
  0 <= maxWeight r /\ 0 <= maxReps r /\ 0 <= maxVolume r
  /\ nle (Fin 0) (pr_oneRepMax r) = true.

Definition option_sound (a : option PersonalRecord) : Prop :=
  match a with
  | Some r => sound r
  | None => True
  end.

Definition records_sound (m : Records) : Prop :=
  forall k : string, option_sound (records_get k m).

(** Every record is filed under its own exercise id. *)
Definition keyed (m : Records) : Prop :=
  forall k r, In (k, r) m -> pr_exerciseId r = k.

(** Every record is dated by a session of [history] that has the exercise. *)
Definition dated (history : list Workout) (m : Records) : Prop :=
  forall k r, records_get k m = Some r ->
    exists w, In w history /\ achievedDate r = startTime w /\ hasExercise k w = true.

(** The record of one exercise while its sets are read against the record
    [currentRecord] found before the loop. *)
Definition afterSets (catalog : list Exercise) (w : Workout) (id : string)
  (currentRecord : option PersonalRecord) (ss : list WorkoutSet)
  (acc : option PersonalRecord) : option PersonalRecord :=
  fold_left (fun acc s =>
               if exceeds currentRecord s
               then Some (recordOf catalog w id currentRecord s)
               else acc) ss acc.

(** The last set of [ss] that replaces the record [currentRecord], if any
    does. *)
Definition lastExceeding (currentRecord : option PersonalRecord) (ss : list WorkoutSet)
  : option WorkoutSet :=
  fold_left (fun found s => if exceeds currentRecord s then Some s else found) ss None.

(** The one set whose inline one-rep-max is [NaN]: 37 reps at weight 0. *)
Definition undefinedEstimate (s : WorkoutSet) : Prop :=
  reps s == 37 /\ weight s == 0.

(** No set of an exercise, or of a session, has an undefined estimate. *)
Definition definedExercise (e : WorkoutExercise) : Prop :=
  forall s, In s (sets e) -> inlineOneRepMax s <> NaN.

Definition definedWorkout (w : Workout) : Prop :=
  forall e, In e (exercises w) -> definedExercise e.

(** All the sets a history holds. *)
Definition allSets (history : list Workout) : list WorkoutSet :=
  flat_map (fun w => flat_map sets (exercises w)) history.

Definition newestFirst : list Workout -> Prop :=
  StronglySorted (fun a b => (startTime b <= startTime a)%Z).

(** *** States of the store *)

(** No two entries of a session are for the same exercise. *)
Definition uniqueIds (c : Workout) : Prop := NoDup (map exerciseId (exercises c)).

(** What an active session is, and what a session of the history is. *)
Definition activeOk (c : Workout) : Prop := uniqueIds c /\ endTime c = None.

Definition storedOk (c : Workout) : Prop :=
  uniqueIds c /\ endTime c <> None /\ exercises c <> [].

(** A store whose sessions, in memory and in storage, are as above. *)
Definition wellFormed (w : World) : Prop :=
  (forall c, currentWorkout (mem w) = Some c -> activeOk c)
  /\ (forall c, In c (workoutHistory (mem w)) -> storedOk c)
  /\ (forall c, CURRENT_WORKOUT (disk w) = Some c -> activeOk c)
  /\ (forall h c, WORKOUT_HISTORY (disk w) = Some h -> In c h -> storedOk c).

(** Storage holds what memory holds. *)
Definition inSync (w : World) : Prop :=
  CURRENT_WORKOUT (disk w) = currentWorkout (mem w)
  /\ match WORKOUT_HISTORY (disk w) with
     | Some h => h = workoutHistory (mem w)
     | None => workoutHistory (mem w) = []
     end.

(** Every read and write of a step succeeds. *)
Definition stepOk (step : Env * Command) : Prop :=
  setItemOk (fst step) = true /\ removeItemOk (fst step) = true
  /\ match snd step with
     | LoadWorkoutHistory ok => ok = true
     | _ => True
     end.

(** A command that rewrites the active session: the session in memory is the
    rewritten one whatever the write does. *)
Definition rewritten (env : Env) (failure : string) (updated : Workout) (w : World)
  : World :=
  if setItemOk env
  then {| mem := with_current (Some updated) (mem w);
          disk := {| CURRENT_WORKOUT := Some updated;
                     WORKOUT_HISTORY := WORKOUT_HISTORY (disk w) |} |}
  else {| mem := with_error (Some failure) (with_current (Some updated) (mem w));
          disk := disk w |}.

(** Two stores with the same sessions, whatever their flags. *)
Definition sameSessions (w w' : World) : Prop :=
  currentWorkout (mem w') = currentWorkout (mem w)
  /\ workoutHistory (mem w') = workoutHistory (mem w)
  /\ disk w' = disk w.

(** The store right after launch, before anything is loaded. *)
Definition launched (storage : AsyncStorage) : World :=
  {| mem := initial; disk := storage |}.

End Spec.

(** ** Sample data *)

Module Sample.

Import WorkoutStore ProgressService.

Definition day : Z := 86400000.
Definition jan01 : Z := 1735689600000.
Definition jan05 : Z := (jan01 + 4 * day)%Z.
Definition jan20 : Z := (jan01 + 19 * day)%Z.

Definition env0 : Env :=
  {| now := 1000; freshId := "workout_1000_k3x9"; freshName := "Workout 1/1/2025";
     setItemOk := true; removeItemOk := true |}.

(** The same environment with a rejected [setItem]. *)
Definition envFail : Env :=
  {| now := 1000; freshId := "workout_1000_k3x9"; freshName := "Workout 1/1/2025";
     setItemOk := false; removeItemOk := true |}.

Definition env1 : Env :=
  {| now := 2000; freshId := "workout_2000_p7q2"; freshName := "Workout 1/1/2025";
     setItemOk := true; removeItemOk := true |}.

(** A later clock reading, every write accepted. *)
Definition env3 : Env :=
  {| now := 3000; freshId := "workout_3000_m4t8"; freshName := "Workout 1/1/2025";
     setItemOk := true; removeItemOk := true |}.

(** The environment [env1] with a rejected [removeItem]. *)
Definition envKept : Env :=
  {| now := 2000; freshId := "workout_2000_p7q2"; freshName := "Workout 1/1/2025";
     setItemOk := true; removeItemOk := false |}.

Definition world0 : World :=
  {| mem := initial;
     disk := {| CURRENT_WORKOUT := None; WORKOUT_HISTORY := None |} |}.

(** A started session with one exercise and no set. *)
Definition started : World :=
  addExerciseToWorkout env0 "bench-press" (startWorkout env0 (Some "Push Day") world0).

(** The session [started] holds. *)
Definition pushDay : Workout :=
  {| w_id := "workout_1000_k3x9"; w_name := "Push Day"; startTime := 1000;
     endTime := None; exercises := [newExercise "bench-press"]; notes := "" |}.

Definition negativeReps : SetInput :=
  {| in_reps := -5; in_weight := 80; in_completed := None |}.

Definition tenByEighty : SetInput :=
  {| in_reps := 10; in_weight := 80; in_completed := None |}.

(** A set added while the write to storage is rejected. *)
Definition afterFailedWrite : World :=
  addSetToExercise envFail "bench-press" tenByEighty started.

(** The session completed within the millisecond it was started in. *)
Definition completedAtOnce : World := completeWorkout env0 started.

Definition catalog : list Exercise :=
  [{| ex_id := "bench-press"; ex_name := "Bench Press" |}].

Definition mkSet (r w : Q) : WorkoutSet :=
  {| reps := r; weight := w; completed := true; restTime := 0 |}.

Definition bench (ss : list WorkoutSet) : WorkoutExercise :=
  {| exerciseId := "bench-press"; sets := ss; we_restTime := 120; we_notes := "" |}.

(** A completed session of bench press started at [t]. *)
Definition session (name : string) (t : Z) (ss : list WorkoutSet) : Workout :=
  {| w_id := name; w_name := name; startTime := t; endTime := Some (t + 3600000)%Z;
     exercises := [bench ss]; notes := "" |}.

Definition stored (history : list Workout) : AsyncStorage :=
  {| CURRENT_WORKOUT := None; WORKOUT_HISTORY := Some history |}.

Definition fortyByHundred : WorkoutSet := mkSet 40 100.

(** One session on 2025-01-20 in storage. *)
Definition oneSession : AsyncStorage := stored [session "a" jan20 [mkSet 10 80]].

(** A heavy session on 2025-01-20 and an earlier one with more reps. *)
Definition heavy : Workout := session "heavy" jan20 [mkSet 5 100].
Definition light : Workout := session "light" jan05 [mkSet 10 60].

(** The record the heavy session alone leaves. *)
Definition heavyRecord : PersonalRecord :=
  {| pr_exerciseId := "bench-press"; pr_exerciseName := "Bench Press";
     maxWeight := 100; maxReps := 5; maxVolume := 500;
     pr_oneRepMax := Fin (225 # 2); achievedDate := jan20 |}.

(** One session whose second set is lighter than its first. *)
Definition twoSets : Workout := session "two" jan05 [mkSet 5 100; mkSet 5 60].

(** Two sessions on 2025-01-05, at 10:00 and at 22:00 UTC. *)
Definition hour : Z := 3600000.
Definition morning : Workout := session "morning" (jan05 + 10 * hour)%Z [mkSet 10 60].
Definition evening : Workout := session "evening" (jan05 + 22 * hour)%Z [mkSet 5 100].

(** [toDateString] and [new Date(text).getTime()] on a device at UTC and on
    a device three hours east of it, for the instants of 5 and 6 January
    2025. *)
Definition utc (t : Z) : string :=
  if (t <? jan05 + day)%Z then "Sun Jan 05 2025" else "Mon Jan 06 2025".

Definition utcParse (text : string) : Z :=
  if String.eqb text "Sun Jan 05 2025" then jan05 else (jan05 + day)%Z.

Definition east (t : Z) : string :=
  if (t <? jan05 + day - 3 * hour)%Z then "Sun Jan 05 2025" else "Mon Jan 06 2025".

Definition eastParse (text : string) : Z :=
  if String.eqb text "Sun Jan 05 2025" then (jan05 - 3 * hour)%Z
  else (jan05 + day - 3 * hour)%Z.

Definition january : TimeRange := {| startDate := jan01; endDate := (jan01 + 31 * day)%Z |}.

(** A [trim] for texts whose only white space is the ASCII space. *)
Fixpoint dropSpaces (l : list Ascii.ascii) : list Ascii.ascii :=
  match l with
  | c :: l' => if Ascii.eqb c (Ascii.ascii_of_nat 32) then dropSpaces l' else l
  | [] => []
  end.

Definition trimSpaces (s : string) : string :=
  string_of_list_ascii
    (rev (dropSpaces (rev (dropSpaces (list_ascii_of_string s))))).

(** A session logged, completed and taken again as a template, every write
    accepted. *)
Definition trainingDay : list (Env * Command) :=
  [(env0, StartWorkout (Some "Push Day"));
   (env0, AddExerciseToWorkout "bench-press");
   (env0, AddSetToExercise "bench-press" tenByEighty);
   (env1, CompleteWorkout);
   (env1, DuplicateWorkout "workout_1000_k3x9")].

(** Commands issued while storage rejects some of the writes. *)
Definition badConnection : list (Env * Command) :=
  [(envFail, StartWorkout None);
   (envFail, AddExerciseToWorkout "squat");
   (env0, AddExerciseToWorkout "squat");
   (envFail, CompleteWorkout);
   (env1, LoadWorkoutHistory false);
   (env1, StartWorkout None)].

End Sample.

(** ** Facts about arrays *)

Section ArrayFacts.

Context {A : Type}.
Variable p : A -> bool.

Lemma findIndex_nth_error (l : list A) (i : nat) :
  findIndex p l = Some i ->
  exists x, nth_error l i = Some x /\ p x = true /\ find p l = Some x.
Proof.
  revert i. induction l as [|y l IH]; intros i H; simpl in *.
  - discriminate.
  - destruct (p y) eqn:Hy.
    + injection H as <-. exists y. auto.
    + destruct (findIndex p l) as [j|]; [|discriminate].
      injection H as <-. destruct (IH j eq_refl) as (x & Hn & Hp & Hf).
      exists x. auto.
Qed.

Lemma find_findIndex (l : list A) (x : A) :
  find p l = Some x -> exists i, findIndex p l = Some i /\ nth_error l i = Some x.
Proof.
  induction l as [|y l IH]; simpl; intros H.
  - discriminate.
  - destruct (p y).
    + injection H as ->. exists O. auto.
    + destruct (IH H) as (i & Hi & Hn). exists (S i). rewrite Hi. auto.
Qed.

Lemma find_none_findIndex (l : list A) :
  find p l = None -> findIndex p l = None.
Proof.
  induction l as [|y l IH]; simpl; intros H; [reflexivity|].
  destruct (p y); [discriminate|]. now rewrite IH.
Qed.

Lemma find_update_at (l : list A) (i : nat) (y : A) :
  findIndex p l = Some i -> p y = true -> find p (update_at i y l) = Some y.
Proof.
  revert i. induction l as [|z l IH]; intros i H Hy; simpl in *.
  - discriminate.
  - destruct (p z) eqn:Hz.
    + injection H as <-. simpl. now rewrite Hy.
    + destruct (findIndex p l) as [j|]; [|discriminate].
      injection H as <-. simpl. rewrite Hz. now apply IH.
Qed.

End ArrayFacts.

(** ** Facts about the workout store *)

Module StoreFacts.

Import WorkoutStore.

(** What [startWorkout] leaves behind, by outcome of the write. *)
Lemma startWorkout_run (env : Env) (name : option string) (w : World) :
  startWorkout env name w =
  if setItemOk env
  then {| mem := {| currentWorkout := Some (newWorkout env name);
                    workoutHistory := workoutHistory (mem w);
                    isLoading := false; error := None |};
          disk := {| CURRENT_WORKOUT := Some (newWorkout env name);
                     WORKOUT_HISTORY := WORKOUT_HISTORY (disk w) |} |}
  else {| mem := {| currentWorkout := Some (newWorkout env name);
                    workoutHistory := workoutHistory (mem w);
                    isLoading := false; error := Some "Failed to start workout" |};
          disk := disk w |}.
Proof.
  unfold startWorkout, try_catch_finally, startWorkout_try, bind, set_, setItem_current.
  simpl. destruct (setItemOk env); reflexivity.
Qed.

Lemma addExerciseToWorkout_run (env : Env) (id : string) (w : World) (c : Workout) :
  currentWorkout (mem w) = Some c ->
  find (fun e => String.eqb (exerciseId e) id) (exercises c) = None ->
  let updated := with_exercises c (exercises c ++ [newExercise id]) in
  addExerciseToWorkout env id w =
  if setItemOk env
  then {| mem := with_current (Some updated) (mem w);
          disk := {| CURRENT_WORKOUT := Some updated;
                     WORKOUT_HISTORY := WORKOUT_HISTORY (disk w) |} |}
  else {| mem := with_error (Some "Failed to add exercise to workout")
                            (with_current (Some updated) (mem w));
          disk := disk w |}.
Proof.
  intros Hc Hf updated.
  unfold addExerciseToWorkout, try_catch, try_catch_finally, addExerciseToWorkout_try,
    bind, get, set_, setItem_current, ret.
  rewrite Hc, Hf. simpl. destruct (setItemOk env); reflexivity.
Qed.

Lemma addExerciseToWorkout_duplicate (env : Env) (id : string) (w : World)
  (c : Workout) (e : WorkoutExercise) :
  currentWorkout (mem w) = Some c ->
  find (fun e => String.eqb (exerciseId e) id) (exercises c) = Some e ->
  addExerciseToWorkout env id w =
  {| mem := with_error (Some "Exercise already added to workout") (mem w);
     disk := disk w |}.
Proof.
  intros Hc Hf.
  unfold addExerciseToWorkout, try_catch, try_catch_finally, addExerciseToWorkout_try,
    bind, get, set_, return_, ret.
  rewrite Hc, Hf. reflexivity.
Qed.

Lemma addSetToExercise_run (env : Env) (id : string) (input : SetInput) (w : World)
  (c : Workout) (i : nat) (e : WorkoutExercise) :
  currentWorkout (mem w) = Some c ->
  findIndex (fun e => String.eqb (exerciseId e) id) (exercises c) = Some i ->
  nth_error (exercises c) i = Some e ->
  let updated :=
    with_exercises c
      (update_at i (with_sets e (sets e ++ [newSet input])) (exercises c)) in
  addSetToExercise env id input w =
  if setItemOk env
  then {| mem := with_current (Some updated) (mem w);
          disk := {| CURRENT_WORKOUT := Some updated;
                     WORKOUT_HISTORY := WORKOUT_HISTORY (disk w) |} |}
  else {| mem := with_error (Some "Failed to add set to exercise")
                            (with_current (Some updated) (mem w));
          disk := disk w |}.
Proof.
  intros Hc Hi Hn updated.
  unfold addSetToExercise, try_catch, try_catch_finally, addSetToExercise_try,
    bind, get, set_, setItem_current, ret.
  rewrite Hc, Hi, Hn. simpl. destruct (setItemOk env); reflexivity.
Qed.

(** The set list after [addSetToExercise], whatever the write does. *)
Lemma addSetToExercise_sets (env : Env) (id : string) (input : SetInput) (w : World)
  (c : Workout) (e : WorkoutExercise) :
  currentWorkout (mem w) = Some c ->
  Spec.entry id c = Some e ->
  Spec.setsOf id (currentWorkout (mem (addSetToExercise env id input w)))
    = Some (sets e ++ [newSet input]).
Proof.
  intros Hc He.
  destruct (find_findIndex _ _ _ He) as (i & Hi & Hn).
  rewrite (addSetToExercise_run env id input w c i e Hc Hi Hn).
  destruct (setItemOk env); simpl; unfold Spec.entry; simpl;
    (rewrite (find_update_at _ _ i _ Hi);
     [reflexivity | simpl; apply (findIndex_nth_error _ _ _) in Hi;
                    destruct Hi as (x & Hx & Hp & _); congruence]).
Qed.

Lemma completeWorkout_none (env : Env) (w : World) :
  currentWorkout (mem w) = None ->
  completeWorkout_try env w
    = (Thrown "No active workout to complete",
       {| mem := begin_loading (mem w); disk := disk w |})
  /\ completeWorkout env w =
     {| mem := {| currentWorkout := None; workoutHistory := workoutHistory (mem w);
                  isLoading := false; error := Some "Failed to complete workout" |};
        disk := disk w |}.
Proof.
  intros Hc.
  unfold completeWorkout, try_catch_finally, completeWorkout_try, bind, get, set_, throw.
  simpl. rewrite Hc. simpl.
  unfold with_loading, with_error, begin_loading. simpl. rewrite Hc. auto.
Qed.

Lemma completeWorkout_empty (env : Env) (w : World) (c : Workout) :
  currentWorkout (mem w) = Some c ->
  exercises c = [] ->
  completeWorkout env w =
  {| mem := {| currentWorkout := Some c; workoutHistory := workoutHistory (mem w);
               isLoading := false;
               error := Some "Cannot complete workout with no exercises" |};
     disk := disk w |}.
Proof.
  intros Hc He.
  unfold completeWorkout, try_catch_finally, completeWorkout_try, bind, get, set_,
    return_.
  simpl. rewrite Hc, He. simpl.
  unfold with_loading, with_error, begin_loading. simpl. rewrite Hc. reflexivity.
Qed.

Lemma completeWorkout_run (env : Env) (w : World) (c : Workout) :
  currentWorkout (mem w) = Some c ->
  exercises c <> [] ->
  let history := with_endTime c (Some (now env)) :: workoutHistory (mem w) in
  completeWorkout env w =
  {| mem := {| currentWorkout := None; workoutHistory := history; isLoading := false;
               error := if setItemOk env && removeItemOk env then None
                        else Some "Failed to complete workout" |};
     disk := {| CURRENT_WORKOUT := if removeItemOk env then None
                                   else CURRENT_WORKOUT (disk w);
                WORKOUT_HISTORY := if setItemOk env then Some history
                                   else WORKOUT_HISTORY (disk w) |} |}.
Proof.
  intros Hc He history.
  unfold completeWorkout, try_catch_finally, completeWorkout_try, bind, get, set_,
    promise_all2, removeItem_current, setItem_history.
  simpl. rewrite Hc.
  destruct (exercises c) as [|e es] eqn:Hes; [contradiction|]. simpl.
  subst history.
  destruct (setItemOk env), (removeItemOk env); simpl;
    unfold with_loading, with_error, with_completed, begin_loading; simpl;
    rewrite ?Hes; try reflexivity.
  destruct (disk w); reflexivity.
Qed.

End StoreFacts.

(** ** The session commands against the specification *)

Import WorkoutStore.

(** C1, as the code behaves: whatever the input, in range or not,
    [addSetToExercise] appends the set built from it to the exercise's set
    list, [completed] defaulting to true; no input is rejected, and the
    error field changes only when the write to storage is rejected. *)
Theorem addSetToExercise_appends_any_input :
  forall (env : Env) (id : string) (input : SetInput) (w : World)
         (c : Workout) (e : WorkoutExercise),
    currentWorkout (mem w) = Some c ->
    Spec.entry id c = Some e ->
    Spec.setsOf id (currentWorkout (mem (addSetToExercise env id input w)))
      = Some (sets e ++ [newSet input])
    /\ completed (newSet input)
       = match in_completed input with Some b => b | None => true end
    /\ error (mem (addSetToExercise env id input w))
       = if setItemOk env then error (mem w)
         else Some "Failed to add set to exercise".
Proof.
  intros env id input w c e Hc He.
  split; [exact (StoreFacts.addSetToExercise_sets env id input w c e Hc He)|].
  split; [reflexivity|].
  destruct (find_findIndex _ _ _ He) as (i & Hi & Hn).
  rewrite (StoreFacts.addSetToExercise_run env id input w c i e Hc Hi Hn).
  destruct (setItemOk env); reflexivity.
Qed.

(** The failing input of C1: five negative reps are invalid for the
    validator and out of range, and are appended all the same. *)
Lemma addSetToExercise_negative_reps :
  SetValidator.isValid (Spec.asPartial Sample.negativeReps) = false
  /\ Spec.inRange Sample.negativeReps = false
  /\ Spec.setsOf "bench-press" (currentWorkout (mem Sample.started)) = Some []
  /\ Spec.setsOf "bench-press"
       (currentWorkout
          (mem (addSetToExercise Sample.env0 "bench-press" Sample.negativeReps
                                 Sample.started)))
     = Some [newSet Sample.negativeReps]
  /\ error (mem (addSetToExercise Sample.env0 "bench-press" Sample.negativeReps
                                  Sample.started)) = None.
Proof.
  destruct (addSetToExercise_appends_any_input Sample.env0 "bench-press"
              Sample.negativeReps Sample.started Sample.pushDay
              (newExercise "bench-press") eq_refl eq_refl) as (Hs & _ & He).
  split; [reflexivity|]. split; [reflexivity|]. split; [reflexivity|].
  split; [exact Hs | exact He].
Defined.

(** C3, counterexample: with the session "Push Day" active, [startWorkout]
    reports no error and puts a new session in its place. *)
Lemma startWorkout_replaces_active_session :
  currentWorkout (mem Sample.started) = Some Sample.pushDay
  /\ endTime Sample.pushDay = None
  /\ error (mem (startWorkout Sample.env1 (Some "Leg Day") Sample.started)) = None
  /\ currentWorkout (mem (startWorkout Sample.env1 (Some "Leg Day") Sample.started))
     = Some (newWorkout Sample.env1 (Some "Leg Day"))
  /\ newWorkout Sample.env1 (Some "Leg Day") <> Sample.pushDay.
Proof.
  repeat split; try reflexivity.
  intros H. apply (f_equal startTime) in H. discriminate H.
Qed.

(** C3, amended: in every state, with or without an active session,
    [startWorkout] puts a new session (no end time, no exercises) in the
    single current-workout slot, leaves history alone, and reports an error
    only when the write to storage is rejected. *)
Theorem startWorkout_always_installs_new_session :
  forall (env : Env) (name : option string) (w : World),
    currentWorkout (mem (startWorkout env name w)) = Some (newWorkout env name)
    /\ endTime (newWorkout env name) = None
    /\ exercises (newWorkout env name) = []
    /\ startTime (newWorkout env name) = now env
    /\ workoutHistory (mem (startWorkout env name w)) = workoutHistory (mem w)
    /\ error (mem (startWorkout env name w))
       = if setItemOk env then None else Some "Failed to start workout".
Proof.
  intros env name w. rewrite StoreFacts.startWorkout_run.
  destruct (setItemOk env); repeat split; reflexivity.
Qed.

(** C4, counterexample: a set is added while the write is rejected; the
    command reports the failure, storage is untouched, and the session in
    memory holds the new set, unlike before the command. *)
Lemma addSetToExercise_no_rollback :
  error (mem Sample.afterFailedWrite) = Some "Failed to add set to exercise"
  /\ disk Sample.afterFailedWrite = disk Sample.started
  /\ Spec.setsOf "bench-press" (currentWorkout (mem Sample.started)) = Some []
  /\ Spec.setsOf "bench-press" (currentWorkout (mem Sample.afterFailedWrite))
     = Some [newSet Sample.tenByEighty]
  /\ currentWorkout (mem Sample.afterFailedWrite)
     <> currentWorkout (mem Sample.started).
Proof.
  repeat split; try reflexivity.
  intros H. apply (f_equal (Spec.setsOf "bench-press")) in H. discriminate H.
Qed.

(** C4, amended: each command that reaches its write changes the session in
    memory first and then awaits the write.  [startWorkout], [addExerciseToWorkout] and
    [addSetToExercise] issue one write: accepted, storage holds the session
    in memory under the active key and its history key is untouched;
    rejected, the whole of storage is as before, the command reports its
    failure message, and the change in memory stays (there is no rollback).
    [completeWorkout] issues two writes, each taken or rejected on its own:
    the active key is removed unless the removal is rejected, the history
    key holds the new history unless that write is rejected, and the failure
    message is reported unless both are accepted.  So with the history write
    rejected and the removal accepted, storage holds the session under
    neither key, while memory has it in the history. *)
Theorem commands_write_through_without_rollback :
  (forall (env : Env) (name : option string) (w : World),
      currentWorkout (mem (startWorkout env name w)) = Some (newWorkout env name)
      /\ disk (startWorkout env name w)
         = (if setItemOk env
            then {| CURRENT_WORKOUT := Some (newWorkout env name);
                    WORKOUT_HISTORY := WORKOUT_HISTORY (disk w) |}
            else disk w)
      /\ error (mem (startWorkout env name w))
         = if setItemOk env then None else Some "Failed to start workout")
  /\ (forall (env : Env) (id : string) (w : World) (c : Workout),
      currentWorkout (mem w) = Some c ->
      Spec.entry id c = None ->
      currentWorkout (mem (addExerciseToWorkout env id w))
        = Some (with_exercises c (exercises c ++ [newExercise id]))
      /\ disk (addExerciseToWorkout env id w)
         = (if setItemOk env
            then {| CURRENT_WORKOUT := currentWorkout (mem (addExerciseToWorkout env id w));
                    WORKOUT_HISTORY := WORKOUT_HISTORY (disk w) |}
            else disk w)
      /\ error (mem (addExerciseToWorkout env id w))
         = if setItemOk env then error (mem w)
           else Some "Failed to add exercise to workout")
  /\ (forall (env : Env) (id : string) (input : SetInput) (w : World)
             (c : Workout) (e : WorkoutExercise),
      currentWorkout (mem w) = Some c ->
      Spec.entry id c = Some e ->
      Spec.setsOf id (currentWorkout (mem (addSetToExercise env id input w)))
        = Some (sets e ++ [newSet input])
      /\ disk (addSetToExercise env id input w)
         = (if setItemOk env
            then {| CURRENT_WORKOUT
                      := currentWorkout (mem (addSetToExercise env id input w));
                    WORKOUT_HISTORY := WORKOUT_HISTORY (disk w) |}
            else disk w)
      /\ error (mem (addSetToExercise env id input w))
         = if setItemOk env then error (mem w)
           else Some "Failed to add set to exercise")
  /\ (forall (env : Env) (w : World) (c : Workout),
      currentWorkout (mem w) = Some c ->
      exercises c <> [] ->
      currentWorkout (mem (completeWorkout env w)) = None
      /\ workoutHistory (mem (completeWorkout env w))
         = with_endTime c (Some (now env)) :: workoutHistory (mem w)
      /\ disk (completeWorkout env w)
         = {| CURRENT_WORKOUT := if removeItemOk env then None
                                 else CURRENT_WORKOUT (disk w);
              WORKOUT_HISTORY
                := if setItemOk env
                   then Some (with_endTime c (Some (now env)) :: workoutHistory (mem w))
                   else WORKOUT_HISTORY (disk w) |}
      /\ error (mem (completeWorkout env w))
         = if setItemOk env && removeItemOk env then None
           else Some "Failed to complete workout").
Proof.
  split; [|split; [|split]].
  - intros env name w. rewrite StoreFacts.startWorkout_run.
    destruct (setItemOk env); repeat split; reflexivity.
  - intros env id w c Hc He.
    rewrite (StoreFacts.addExerciseToWorkout_run env id w c Hc He).
    destruct (setItemOk env); repeat split; reflexivity.
  - intros env id input w c e Hc He.
    split.
    + exact (StoreFacts.addSetToExercise_sets env id input w c e Hc He).
    + destruct (find_findIndex _ _ _ He) as (i & Hi & Hn).
      rewrite (StoreFacts.addSetToExercise_run env id input w c i e Hc Hi Hn).
      destruct (setItemOk env); repeat split; reflexivity.
  - intros env w c Hc He.
    rewrite (StoreFacts.completeWorkout_run env w c Hc He).
    repeat split; reflexivity.
Qed.

(** C4, the amended statement at work: a start whose write succeeds; an
    exercise and a set whose writes are rejected; a completion whose writes
    succeed; and a completion whose history write is rejected while the
    removal is accepted, after which storage holds the session under neither
    key and memory holds it in the history. *)
Lemma commands_write_through_sample :
  disk (startWorkout Sample.env0 (Some "Push Day") Sample.world0)
    = {| CURRENT_WORKOUT := Some (newWorkout Sample.env0 (Some "Push Day"));
         WORKOUT_HISTORY := None |}
  /\ (disk (addExerciseToWorkout Sample.envFail "squat" Sample.started)
        = disk Sample.started
      /\ error (mem (addExerciseToWorkout Sample.envFail "squat" Sample.started))
         = Some "Failed to add exercise to workout")
  /\ (disk Sample.afterFailedWrite = disk Sample.started
      /\ error (mem Sample.afterFailedWrite) = Some "Failed to add set to exercise")
  /\ disk (completeWorkout Sample.env1 Sample.started)
     = {| CURRENT_WORKOUT := None;
          WORKOUT_HISTORY := Some [with_endTime Sample.pushDay (Some 2000%Z)] |}
  /\ (CURRENT_WORKOUT (disk Sample.started) = Some Sample.pushDay
      /\ disk (completeWorkout Sample.envFail Sample.started)
         = {| CURRENT_WORKOUT := None; WORKOUT_HISTORY := None |}
      /\ workoutHistory (mem (completeWorkout Sample.envFail Sample.started))
         = [with_endTime Sample.pushDay (Some 1000%Z)]
      /\ error (mem (completeWorkout Sample.envFail Sample.started))
         = Some "Failed to complete workout").
Proof.
  destruct commands_write_through_without_rollback as (H1 & H2 & H3 & H4).
  split.
  { exact (proj1 (proj2 (H1 Sample.env0 (Some "Push Day") Sample.world0))). }
  split.
  { destruct (H2 Sample.envFail "squat" Sample.started Sample.pushDay eq_refl eq_refl)
      as (_ & Hd & He).
    split; [exact Hd | exact He]. }
  split.
  { destruct (H3 Sample.envFail "bench-press" Sample.tenByEighty Sample.started
                 Sample.pushDay (newExercise "bench-press") eq_refl eq_refl)
      as (_ & Hd & He).
    split; [exact Hd | exact He]. }
  assert (Hne : exercises Sample.pushDay <> []) by (simpl; discriminate).
  split.
  { exact (proj1 (proj2 (proj2
             (H4 Sample.env1 Sample.started Sample.pushDay eq_refl Hne)))). }
  destruct (H4 Sample.envFail Sample.started Sample.pushDay eq_refl Hne)
    as (_ & Hh & Hd & He).
  split; [reflexivity|]. split; [exact Hd|]. split; [exact Hh | exact He].
Defined.

(** C6, as the code behaves.  With no active session the body of
    [completeWorkout] throws "No active workout to complete" and the command
    reports its failure; with an active session without exercises it reports
    "Cannot complete workout with no exercises" and leaves the session active
    and unchanged.  Otherwise the end time is the clock reading, compared
    with nothing: it is after the start only if the clock has advanced since
    the session started, and a session completed in the millisecond it was
    started in ends when it starts.  In memory the session enters the history
    once and the slot is cleared, so that completing again throws for want of
    an active session and leaves the history as it is.  In storage the two
    writes are independent: when both are accepted a reload finds no active
    session and the session once in the history; when the removal is rejected
    the session stays under the active key, a reload makes it active again,
    and completing it again puts it in the history a second time. *)
Theorem completeWorkout_outcomes :
  (forall (env : Env) (w : World),
      currentWorkout (mem w) = None ->
      fst (completeWorkout_try env w) = Thrown "No active workout to complete"
      /\ completeWorkout env w
         = {| mem := {| currentWorkout := None;
                        workoutHistory := workoutHistory (mem w);
                        isLoading := false;
                        error := Some "Failed to complete workout" |};
              disk := disk w |})
  /\ (forall (env : Env) (w : World) (c : Workout),
      currentWorkout (mem w) = Some c ->
      exercises c = [] ->
      completeWorkout env w
      = {| mem := {| currentWorkout := Some c;
                     workoutHistory := workoutHistory (mem w);
                     isLoading := false;
                     error := Some "Cannot complete workout with no exercises" |};
           disk := disk w |})
  /\ (forall (env : Env) (w : World) (c : Workout),
      currentWorkout (mem w) = Some c ->
      exercises c <> [] ->
      currentWorkout (mem (completeWorkout env w)) = None
      /\ workoutHistory (mem (completeWorkout env w))
         = with_endTime c (Some (now env)) :: workoutHistory (mem w)
      /\ endTime (with_endTime c (Some (now env))) = Some (now env)
      /\ (Spec.endsAfterStart (with_endTime c (Some (now env)))
          <-> (startTime c < now env)%Z)
      /\ (now env = startTime c ->
          endTime (with_endTime c (Some (now env))) = Some (startTime c)
          /\ ~ Spec.endsAfterStart (with_endTime c (Some (now env))))
      /\ forall env' : Env,
          fst (completeWorkout_try env' (completeWorkout env w))
            = Thrown "No active workout to complete"
          /\ currentWorkout (mem (completeWorkout env' (completeWorkout env w))) = None
          /\ workoutHistory (mem (completeWorkout env' (completeWorkout env w)))
             = with_endTime c (Some (now env)) :: workoutHistory (mem w)
          /\ error (mem (completeWorkout env' (completeWorkout env w)))
             = Some "Failed to complete workout")
  /\ (forall (env env' : Env) (w : World) (c : Workout),
      currentWorkout (mem w) = Some c ->
      exercises c <> [] ->
      setItemOk env = true ->
      removeItemOk env = true ->
      disk (completeWorkout env w)
        = {| CURRENT_WORKOUT := None;
             WORKOUT_HISTORY
               := Some (with_endTime c (Some (now env)) :: workoutHistory (mem w)) |}
      /\ currentWorkout (mem (loadWorkoutHistory true (completeWorkout env w))) = None
      /\ workoutHistory (mem (loadWorkoutHistory true (completeWorkout env w)))
         = with_endTime c (Some (now env)) :: workoutHistory (mem w)
      /\ fst (completeWorkout_try env' (loadWorkoutHistory true (completeWorkout env w)))
         = Thrown "No active workout to complete")
  /\ (forall (env env' : Env) (w : World) (c : Workout),
      currentWorkout (mem w) = Some c ->
      CURRENT_WORKOUT (disk w) = Some c ->
      exercises c <> [] ->
      setItemOk env = true ->
      removeItemOk env = false ->
      disk (completeWorkout env w)
        = {| CURRENT_WORKOUT := Some c;
             WORKOUT_HISTORY
               := Some (with_endTime c (Some (now env)) :: workoutHistory (mem w)) |}
      /\ error (mem (completeWorkout env w)) = Some "Failed to complete workout"
      /\ currentWorkout (mem (loadWorkoutHistory true (completeWorkout env w))) = Some c
      /\ workoutHistory
           (mem (completeWorkout env' (loadWorkoutHistory true (completeWorkout env w))))
         = with_endTime c (Some (now env'))
             :: with_endTime c (Some (now env)) :: workoutHistory (mem w)).
Proof.
  split; [|split; [|split; [|split]]].
  - intros env w Hc. destruct (StoreFacts.completeWorkout_none env w Hc) as (Ht & Hr).
    rewrite Ht, Hr. auto.
  - intros env w c Hc He. exact (StoreFacts.completeWorkout_empty env w c Hc He).
  - intros env w c Hc He.
    pose proof (StoreFacts.completeWorkout_run env w c Hc He) as Hr.
    simpl in Hr.
    assert (Hnone : currentWorkout (mem (completeWorkout env w)) = None)
      by (rewrite Hr; reflexivity).
    assert (Hh : workoutHistory (mem (completeWorkout env w))
                 = with_endTime c (Some (now env)) :: workoutHistory (mem w))
      by (rewrite Hr; reflexivity).
    split; [exact Hnone|]. split; [exact Hh|]. split; [reflexivity|].
    split; [unfold Spec.endsAfterStart; simpl; tauto|].
    split.
    { intros Hnow. split; [simpl; now rewrite Hnow|].
      unfold Spec.endsAfterStart. simpl. lia. }
    intros env'.
    destruct (StoreFacts.completeWorkout_none env' _ Hnone) as (Ht & Hr').
    rewrite Ht, Hr', Hh. auto.
  - intros env env' w c Hc He Hset Hrem.
    pose proof (StoreFacts.completeWorkout_run env w c Hc He) as Hr.
    simpl in Hr. rewrite Hset, Hrem in Hr. rewrite Hr.
    split; [reflexivity|]. split; [reflexivity|]. split; [reflexivity|].
    set (w1 := loadWorkoutHistory true _).
    assert (Hnone : currentWorkout (mem w1) = None) by reflexivity.
    now rewrite (proj1 (StoreFacts.completeWorkout_none env' w1 Hnone)).
  - intros env env' w c Hc Hd He Hset Hrem.
    pose proof (StoreFacts.completeWorkout_run env w c Hc He) as Hr.
    simpl in Hr. rewrite Hset, Hrem, Hd in Hr. rewrite Hr.
    split; [reflexivity|]. split; [reflexivity|]. split; [reflexivity|].
    set (w1 := loadWorkoutHistory true _).
    assert (Hsome : currentWorkout (mem w1) = Some c) by reflexivity.
    now rewrite (StoreFacts.completeWorkout_run env' w1 c Hsome He).
Qed.

(** C6 at the failing input: the session "Push Day", started at 1000, is
    completed while the clock still reads 1000, and ends when it starts.
    Completed at 2000 it ends after its start; completing once more changes
    nothing in memory.  Completed at 2000 while the removal is rejected, then
    reloaded and completed at 3000, it is in the history twice. *)
Lemma completeWorkout_sample :
  (workoutHistory (mem Sample.completedAtOnce)
     = [with_endTime Sample.pushDay (Some 1000%Z)]
   /\ startTime Sample.pushDay = 1000%Z
   /\ endTime (with_endTime Sample.pushDay (Some 1000%Z)) = Some 1000%Z
   /\ ~ Spec.endsAfterStart (with_endTime Sample.pushDay (Some 1000%Z)))
  /\ workoutHistory (mem (completeWorkout Sample.env1 Sample.started))
     = [with_endTime Sample.pushDay (Some 2000%Z)]
  /\ Spec.endsAfterStart (with_endTime Sample.pushDay (Some 2000%Z))
  /\ workoutHistory
       (mem (completeWorkout Sample.env0 (completeWorkout Sample.env1 Sample.started)))
     = [with_endTime Sample.pushDay (Some 2000%Z)]
  /\ fst (completeWorkout_try Sample.env0 Sample.world0)
     = Thrown "No active workout to complete"
  /\ currentWorkout
       (mem (completeWorkout Sample.env0
               (startWorkout Sample.env0 None Sample.world0)))
     = Some (newWorkout Sample.env0 None)
  /\ workoutHistory
       (mem (completeWorkout Sample.env3
               (loadWorkoutHistory true
                  (completeWorkout Sample.envKept Sample.started))))
     = [with_endTime Sample.pushDay (Some 3000%Z);
        with_endTime Sample.pushDay (Some 2000%Z)].
Proof.
  destruct completeWorkout_outcomes as (H1 & H2 & H3 & H4 & H5).
  assert (Hne : exercises Sample.pushDay <> []) by (simpl; discriminate).
  split.
  { destruct (H3 Sample.env0 Sample.started Sample.pushDay eq_refl Hne)
      as (_ & Hh & _ & _ & Hsame & _).
    split; [exact Hh|]. split; [reflexivity|]. exact (Hsame eq_refl). }
  destruct (H3 Sample.env1 Sample.started Sample.pushDay eq_refl Hne)
    as (_ & Hh & _ & Hafter & _ & Hagain).
  split; [exact Hh|].
  split; [apply Hafter; reflexivity|].
  split; [exact (proj1 (proj2 (proj2 (Hagain Sample.env0))))|].
  split; [exact (proj1 (H1 Sample.env0 Sample.world0 eq_refl))|].
  split.
  { rewrite (H2 Sample.env0 (startWorkout Sample.env0 None Sample.world0)
                (newWorkout Sample.env0 None) eq_refl eq_refl).
    reflexivity. }
  exact (proj2 (proj2 (proj2
           (H5 Sample.envKept Sample.env3 Sample.started Sample.pushDay
               eq_refl eq_refl Hne eq_refl eq_refl)))).
Defined.

(** ** Facts about sorting and slicing *)

Section SortFacts.

Context {A : Type}.
Variable cmp : A -> A -> Z.
Variable R : A -> A -> Prop.
Hypothesis R_trans : forall x y z, R x y -> R y z -> R x z.
Hypothesis cmp_le : forall x y, (cmp x y <= 0)%Z -> R x y.
Hypothesis cmp_gt : forall x y, (0 < cmp x y)%Z -> R y x.

Lemma insert_by_split (x : A) (l : list A) :
  exists l1 l2, l = l1 ++ l2 /\ insert_by cmp x l = l1 ++ x :: l2.
Proof.
  induction l as [|y l IH]; simpl.
  - exists [], []. auto.
  - destruct (cmp x y <=? 0)%Z.
    + exists [], (y :: l). auto.
    + destruct IH as (l1 & l2 & -> & ->). exists (y :: l1), l2. auto.
Qed.

Lemma insert_by_perm (x : A) (l : list A) : Permutation (x :: l) (insert_by cmp x l).
Proof.
  destruct (insert_by_split x l) as (l1 & l2 & -> & ->).
  apply Permutation_middle.
Qed.

Lemma js_sort_perm (l : list A) : Permutation l (js_sort cmp l).
Proof.
  induction l as [|x l IH]; simpl.
  - constructor.
  - etransitivity; [apply perm_skip, IH | apply insert_by_perm].
Qed.

Lemma insert_by_sorted (x : A) (l : list A) :
  StronglySorted R l -> StronglySorted R (insert_by cmp x l).
Proof.
  induction 1 as [|y l Hs IH Hall]; simpl.
  - repeat constructor.
  - destruct (Z.leb_spec (cmp x y) 0) as [Hle|Hgt].
    + constructor; [constructor; assumption|].
      constructor; [apply cmp_le, Hle|].
      eapply Forall_impl; [|exact Hall]. intros z Hz.
      eapply R_trans; [apply cmp_le, Hle | exact Hz].
    + constructor; [exact IH|].
      eapply Permutation_Forall; [apply insert_by_perm|].
      constructor; [apply cmp_gt, Hgt | exact Hall].
Qed.

Lemma js_sort_sorted (l : list A) : StronglySorted R (js_sort cmp l).
Proof.
  induction l as [|x l IH]; simpl.
  - constructor.
  - apply insert_by_sorted, IH.
Qed.

Lemma StronglySorted_skipn (n : nat) (l : list A) :
  StronglySorted R l -> StronglySorted R (skipn n l).
Proof.
  revert l. induction n as [|n IH]; intros l Hs; simpl; [exact Hs|].
  destruct l as [|x l]; [constructor|].
  apply IH. now inversion Hs.
Qed.

Lemma StronglySorted_firstn (n : nat) (l : list A) :
  StronglySorted R l -> StronglySorted R (firstn n l).
Proof.
  revert l. induction n as [|n IH]; intros l Hs; simpl; [constructor|].
  destruct l as [|x l]; [constructor|].
  inversion Hs as [|? ? Hs' Hall]; subst.
  constructor; [apply IH, Hs'|].
  rewrite Forall_forall in *. intros z Hz. apply Hall.
  rewrite <- (firstn_skipn n l). apply in_or_app. now left.
Qed.

Lemma js_slice_sorted (l : list A) (start : Z) (stop : option Z) :
  StronglySorted R l -> StronglySorted R (js_slice l start stop).
Proof.
  intros Hs. unfold js_slice.
  apply StronglySorted_firstn, StronglySorted_skipn, Hs.
Qed.

End SortFacts.

Lemma js_slice_all {A : Type} (l : list A) : js_slice l 0 None = l.
Proof.
  unfold js_slice, clamp_index. simpl.
  rewrite Z.min_l by lia. simpl.
  rewrite Z.sub_0_r, Nat2Z.id. apply firstn_all.
Qed.

(** ** Facts about the history query *)

Module HistoryFacts.

Import WorkoutService.

Lemma sorted_history (history : list Workout) :
  Spec.newestFirst (js_sort byStartTimeDesc history).
Proof.
  apply js_sort_sorted; unfold byStartTimeDesc; intros; lia.
Qed.

Lemma getWorkoutHistory_all (storage : AsyncStorage) (history : list Workout) :
  WORKOUT_HISTORY storage = Some history ->
  getWorkoutHistory storage None None = js_sort byStartTimeDesc history.
Proof.
  intros H. unfold getWorkoutHistory. rewrite H. simpl. apply js_slice_all.
Qed.

End HistoryFacts.

(** C10: the history is kept newest first.  [completeWorkout] puts the
    completed session at the front of the history list, in memory and in
    what it writes to storage; and for every stored history and every limit
    and offset [getWorkoutHistory] returns sessions in descending order of
    start time, all of them when there is no limit and offset. *)
Theorem history_is_newest_first :
  (forall (env : Env) (w : World) (c : Workout),
      currentWorkout (mem w) = Some c ->
      exercises c <> [] ->
      workoutHistory (mem (completeWorkout env w))
        = with_endTime c (Some (now env)) :: workoutHistory (mem w)
      /\ (setItemOk env = true ->
          WORKOUT_HISTORY (disk (completeWorkout env w))
            = Some (with_endTime c (Some (now env)) :: workoutHistory (mem w))))
  /\ (forall (storage : AsyncStorage) (limit offset : option Z),
      Spec.newestFirst (WorkoutService.getWorkoutHistory storage limit offset))
  /\ (forall (storage : AsyncStorage) (history : list Workout),
      WORKOUT_HISTORY storage = Some history ->
      Permutation history (WorkoutService.getWorkoutHistory storage None None)).
Proof.
  split; [|split].
  - intros env w c Hc He.
    rewrite (StoreFacts.completeWorkout_run env w c Hc He). simpl.
    split; [reflexivity|]. intros ->. reflexivity.
  - intros storage limit offset. unfold WorkoutService.getWorkoutHistory.
    destruct (WORKOUT_HISTORY storage) as [history|]; [|constructor].
    apply js_slice_sorted, HistoryFacts.sorted_history.
  - intros storage history H.
    rewrite (HistoryFacts.getWorkoutHistory_all storage history H).
    apply js_sort_perm.
Qed.

(** C10 at work: two sessions stored oldest first come back newest first,
    and completing "Push Day" puts it at the front. *)
Lemma history_is_newest_first_sample :
  WorkoutService.getWorkoutHistory
    (Sample.stored [Sample.session "first" Sample.jan01 [];
                    Sample.session "second" Sample.jan05 []]) None None
  = [Sample.session "second" Sample.jan05 []; Sample.session "first" Sample.jan01 []]
  /\ workoutHistory (mem (completeWorkout Sample.env1 Sample.started))
     = [with_endTime Sample.pushDay (Some 2000%Z)]
  /\ Permutation
       [Sample.session "first" Sample.jan01 []; Sample.session "second" Sample.jan05 []]
       (WorkoutService.getWorkoutHistory
          (Sample.stored [Sample.session "first" Sample.jan01 [];
                          Sample.session "second" Sample.jan05 []]) None None).
Proof.
  destruct history_is_newest_first as (H1 & _ & H3).
  split; [reflexivity|].
  assert (Hne : exercises Sample.pushDay <> []) by (simpl; discriminate).
  split; [exact (proj1 (H1 Sample.env1 Sample.started Sample.pushDay eq_refl Hne))|].
  exact (H3 (Sample.stored [Sample.session "first" Sample.jan01 [];
                            Sample.session "second" Sample.jan05 []])
            [Sample.session "first" Sample.jan01 [];
             Sample.session "second" Sample.jan05 []] eq_refl).
Defined.

(** ** Facts about streaks *)

Module StreakFacts.

Import ProgressService.

(** A quotient of milliseconds by a day is at most 7 exactly when the
    milliseconds are at most those of 7 days. *)
Lemma week_in_ms (z : Z) :
  Qle_bool (inject_Z z / MS_PER_DAY) 7 = (z <=? 604800000)%Z.
Proof.
  apply Bool.eq_iff_eq_true. rewrite Qle_bool_iff, Z.leb_le.
  unfold Qle, Qdiv, Qmult, Qinv, MS_PER_DAY, inject_Z. simpl. lia.
Qed.

Lemma daysBetween_week (a b : Z) :
  Qle_bool (daysBetween a b) 7 = (Z.abs (a - b) <=? 604800000)%Z.
Proof.
  unfold daysBetween.
  change (Qabs (inject_Z (a - b))) with (inject_Z (Z.abs (a - b))).
  apply week_in_ms.
Qed.

Lemma sameRun_week (earlier later : Z) :
  Spec.sameRun earlier later = (later - earlier <=? 604800000)%Z.
Proof. apply week_in_ms. Qed.

Lemma close_when_sorted (earlier later : Z) :
  (earlier <= later)%Z ->
  Qle_bool (daysBetween later earlier) 7 = Spec.sameRun earlier later.
Proof.
  intros H. rewrite daysBetween_week, sameRun_week.
  now rewrite Z.abs_eq by lia.
Qed.

Lemma splitRuns_head (d : Z) (rest : list Z) :
  exists run runs, Spec.splitRuns (d :: rest) = (d :: run) :: runs.
Proof.
  revert d. induction rest as [|d' rest IH]; intros d.
  - exists [], []. reflexivity.
  - destruct (IH d') as (run & runs & H).
    change (Spec.splitRuns (d :: d' :: rest))
      with (match Spec.splitRuns (d' :: rest) with
            | (x :: r) :: rs =>
                if Spec.sameRun d x then (d :: x :: r) :: rs
                else [d] :: (x :: r) :: rs
            | _ => [[d]]
            end).
    rewrite H. destruct (Spec.sameRun d d'); eauto.
Qed.

Lemma splitRuns_step (d d' : Z) (rest run : list Z) (runs : list (list Z)) :
  Spec.splitRuns (d' :: rest) = (d' :: run) :: runs ->
  Spec.splitRuns (d :: d' :: rest)
  = if Spec.sameRun d d' then (d :: d' :: run) :: runs
    else [d] :: (d' :: run) :: runs.
Proof.
  intros H.
  change (Spec.splitRuns (d :: d' :: rest))
    with (match Spec.splitRuns (d' :: rest) with
          | (x :: r) :: rs =>
              if Spec.sameRun d x then (d :: x :: r) :: rs
              else [d] :: (x :: r) :: rs
          | _ => [[d]]
          end).
  now rewrite H.
Qed.

Lemma length_last (runs : list (list Z)) :
  List.length (last runs []) = last (map (@List.length Z) runs) O.
Proof.
  induction runs as [|r runs IH]; [reflexivity|].
  destruct runs as [|r' runs]; [reflexivity|]. exact IH.
Qed.

(** The counters of the loop against the runs of the dates still to be
    read: [tempStreak] counts the dates of the current run read so far. *)
Lemma streakLoop_runs (rest : list Z) :
  forall (prev : Z) (longest temp : nat),
    StronglySorted Z.le (prev :: rest) ->
    exists (n : nat) (ns : list nat),
      map (@List.length Z) (Spec.splitRuns (prev :: rest)) = S n :: ns
      /\ snd (streakLoop prev rest longest temp) = last ((temp + n)%nat :: ns) O
      /\ Nat.max (fst (streakLoop prev rest longest temp))
                 (snd (streakLoop prev rest longest temp))
         = Nat.max longest (fold_right Nat.max O ((temp + n)%nat :: ns)).
Proof.
  induction rest as [|d rest IH]; intros prev longest temp Hs.
  - exists O, []. simpl. repeat split; lia.
  - inversion Hs as [|? ? Hs' Hall]; subst.
    assert (Hle : (prev <= d)%Z) by (inversion Hall; assumption).
    destruct (splitRuns_head d rest) as (run & runs & Hd).
    rewrite (splitRuns_step prev d rest run runs Hd).
    simpl streakLoop. rewrite (close_when_sorted prev d Hle).
    destruct (Spec.sameRun prev d).
    + destruct (IH d longest (S temp) Hs') as (m & ms & Hm & Hsnd & Hmax).
      rewrite Hd in Hm. simpl in Hm. injection Hm as Hm1 Hm2.
      exists (S m), ms. rewrite Hmax, Hsnd. simpl map. rewrite Hm1, Hm2.
      replace (temp + S m)%nat with (S temp + m)%nat by lia. auto.
    + destruct (IH d (Nat.max longest temp) 1%nat Hs') as (m & ms & Hm & Hsnd & Hmax).
      rewrite Hd in Hm. simpl in Hm. injection Hm as Hm1 Hm2.
      exists O, (S m :: ms). rewrite Hmax, Hsnd. simpl map. rewrite Hm1, Hm2.
      split; [reflexivity|]. split; [reflexivity|]. simpl. lia.
Qed.

End StreakFacts.

(** C7: on dates sorted ascending, [calculateStreaks] returns the length of
    the longest run of dates whose consecutive gaps are at most 7 days, and
    the length of the final run when at most 7 days separate the most recent
    date from the clock, else 0.  In particular the dates 2025-01-01,
    2025-01-05 and 2025-01-20 give a longest streak of 2, and a current
    streak of 0 whenever the clock is more than 7 days past 2025-01-20. *)
Theorem calculateStreaks_runs :
  (forall (clock : Z) (dates : list Z),
      StronglySorted Z.le dates ->
      ProgressService.calculateStreaks clock dates = Spec.streaks clock dates)
  /\ Spec.splitRuns [Sample.jan01; Sample.jan05; Sample.jan20]
     = [[Sample.jan01; Sample.jan05]; [Sample.jan20]]
  /\ (forall clock : Z,
      (Sample.jan20 + 7 * Sample.day < clock)%Z ->
      ProgressService.calculateStreaks clock
        [Sample.jan01; Sample.jan05; Sample.jan20] = (2%nat, O)).
Proof.
  split; [|split].
  - intros clock dates Hs. destruct dates as [|d0 rest]; [reflexivity|].
    destruct (StreakFacts.streakLoop_runs rest d0 1%nat 1%nat Hs)
      as (n & ns & Hn & Hsnd & Hmax).
    unfold ProgressService.calculateStreaks, Spec.streaks, Spec.recent,
      Spec.longestRun, Spec.finalRun.
    rewrite StreakFacts.length_last, Hn.
    destruct (ProgressService.streakLoop d0 rest 1 1) as (longest, temp).
    simpl fst in Hmax. simpl snd in Hmax, Hsnd.
    rewrite Hmax, Hsnd. f_equal.
    change (1 + n)%nat with (S n). cbn [fold_right]. lia.
  - reflexivity.
  - intros clock Hc. unfold ProgressService.calculateStreaks.
    change (ProgressService.streakLoop Sample.jan01 [Sample.jan05; Sample.jan20] 1 1)
      with (2%nat, 1%nat).
    change (last [Sample.jan01; Sample.jan05; Sample.jan20] Sample.jan01)
      with Sample.jan20.
    rewrite StreakFacts.week_in_ms.
    replace (clock - Sample.jan20 <=? 604800000)%Z with false; [reflexivity|].
    symmetry. apply Z.leb_gt. unfold Sample.day in Hc. lia.
Qed.

(** C7 at work: the three dates of the scenario are sorted, and fifteen days
    after the last of them the streaks are 2 and 0. *)
Lemma calculateStreaks_scenario :
  StronglySorted Z.le [Sample.jan01; Sample.jan05; Sample.jan20]
  /\ ProgressService.calculateStreaks (Sample.jan20 + 15 * Sample.day)
       [Sample.jan01; Sample.jan05; Sample.jan20]
     = Spec.streaks (Sample.jan20 + 15 * Sample.day)
         [Sample.jan01; Sample.jan05; Sample.jan20]
  /\ ProgressService.calculateStreaks (Sample.jan20 + 15 * Sample.day)
       [Sample.jan01; Sample.jan05; Sample.jan20] = (2%nat, O).
Proof.
  assert (Hs : StronglySorted Z.le [Sample.jan01; Sample.jan05; Sample.jan20]).
  { repeat constructor; vm_compute; discriminate. }
  destruct calculateStreaks_runs as (H1 & _ & H3).
  split; [exact Hs|]. split.
  - exact (H1 (Sample.jan20 + 15 * Sample.day)%Z
              [Sample.jan01; Sample.jan05; Sample.jan20] Hs).
  - apply H3. vm_compute. reflexivity.
Defined.

(** ** Facts about the progress queries *)

Module ProgressFacts.

Import ProgressService.

(** The clock enters [calculateStreaks] through one test only. *)
Lemma calculateStreaks_clock (dates : list Z) :
  exists longest temp : nat,
    forall clock : Z,
      calculateStreaks clock dates
      = (longest, if Spec.recent clock dates then temp else O).
Proof.
  destruct dates as [|d0 rest].
  - exists O, O. reflexivity.
  - unfold calculateStreaks, Spec.recent.
    destruct (streakLoop d0 rest 1 1) as (longest, temp).
    exists (Nat.max longest temp), temp. reflexivity.
Qed.

Lemma maxOneRepMax_addSets (ss : list WorkoutSet) (t : Totals) :
  maxOneRepMax (fold_left addSet ss t)
  = fold_left nmax (map inlineOneRepMax ss) (maxOneRepMax t).
Proof.
  revert t. induction ss as [|s ss IH]; intros t; simpl; [reflexivity|].
  now rewrite IH.
Qed.

Lemma maxOneRepMax_addWorkouts (id : string) (ws : list Workout) (t : Totals) :
  maxOneRepMax (fold_left (addWorkout id) ws t)
  = fold_left nmax (map inlineOneRepMax (Spec.matchingSets id ws)) (maxOneRepMax t).
Proof.
  revert t. induction ws as [|w ws IH]; intros t; simpl; [reflexivity|].
  rewrite IH. unfold addWorkout. rewrite map_app, fold_left_app.
  destruct (findExercise id w) as [e|]; simpl; [|reflexivity].
  now rewrite maxOneRepMax_addSets.
Qed.

(** Sessions without the exercise contribute no set. *)
Lemma matchingSets_filter (id : string) (ws : list Workout) :
  Spec.matchingSets id (filter (hasExercise id) ws) = Spec.matchingSets id ws.
Proof.
  induction ws as [|w ws IH]; simpl; [reflexivity|].
  destruct (hasExercise id w) eqn:Hw; simpl; rewrite IH; [reflexivity|].
  unfold hasExercise in Hw. unfold findExercise.
  destruct (find _ (exercises w)) as [e|] eqn:Hf; [|reflexivity].
  apply find_some in Hf. destruct Hf as (Hin & He).
  assert (existsb (fun e => String.eqb (exerciseId e) id) (exercises w) = true)
    by (apply existsb_exists; eauto).
  congruence.
Qed.

(** Up to 36 repetitions the inline expression is the Set model's estimate. *)
Lemma inline_is_estimate (s : WorkoutSet) :
  reps s <= 36 -> inlineOneRepMax s = Fin (SetModel.getEstimatedOneRepMax s).
Proof.
  intros H. unfold inlineOneRepMax, SetModel.getEstimatedOneRepMax.
  destruct (Qeq_bool (reps s) 1); [reflexivity|].
  unfold Qgtb. apply Qle_bool_iff in H. rewrite H. simpl.
  assert (Hz : Qeq_bool (37 + - reps s) 0 = false).
  { apply Qle_bool_iff in H. destruct (Qeq_bool (37 + - reps s) 0) eqn:E; [|reflexivity].
    apply Qeq_bool_iff in E. exfalso.
    assert (reps s == 37) by (rewrite <- (Qplus_0_r (reps s)), <- E; ring).
    rewrite H0 in H. revert H. apply Qlt_not_le. reflexivity. }
  rewrite Hz. reflexivity.
Qed.

Lemma getExerciseProgress_oneRepMax (catalog : list Exercise) (storage : AsyncStorage)
  (id : string) (timeRange : TimeRange) (m : ProgressMetrics) :
  getExerciseProgress catalog storage id timeRange = Ok m ->
  pm_oneRepMax m
  = fold_left nmax
      (map inlineOneRepMax
           (Spec.matchingSets id (getWorkoutsInTimeRange storage timeRange)))
      (Fin 0).
Proof.
  unfold getExerciseProgress, getExerciseProgress_try.
  destruct (ExerciseService.getExerciseById catalog id) as [ex|]; simpl; [|discriminate].
  rewrite <- (matchingSets_filter id (getWorkoutsInTimeRange storage timeRange)).
  destruct (filter (hasExercise id) (getWorkoutsInTimeRange storage timeRange))
    as [|w ws]; simpl Nat.eqb; cbv iota; intros H; injection H as <-.
  - reflexivity.
  - simpl pm_oneRepMax.
    change (fold_left (addWorkout id) ws (addWorkout id noTotals w))
      with (fold_left (addWorkout id) (w :: ws) noTotals).
    now rewrite maxOneRepMax_addWorkouts.
Qed.

Lemma no_points (id : string) (ws : list Workout) (points : list StrengthPoint) :
  filter (hasExercise id) ws = [] -> fold_left (pushPoint id) ws points = points.
Proof.
  revert points. induction ws as [|w ws IH]; intros points H; simpl; [reflexivity|].
  simpl in H. destruct (hasExercise id w) eqn:Hw; [discriminate|].
  rewrite (IH _ H). unfold pushPoint, findExercise.
  destruct (find _ (exercises w)) as [e|] eqn:Hf; [|reflexivity].
  apply find_some in Hf. destruct Hf as (Hin & He).
  assert (hasExercise id w = true) by (apply existsb_exists; eauto).
  congruence.
Qed.

End ProgressFacts.

Import ProgressService.

(** C2, as the code behaves.  The Set model's estimate is the weight at one
    repetition, [weight * 36 / (37 - reps)] between 1 and 36 repetitions and
    the weight beyond 36.  The progress query reports the largest, from 0, of
    the inline expression over the matching sets; that is the largest
    estimate when every matching set has at most 36 repetitions (10 reps of
    80 give [80 * 36 / 27]), but the inline expression has no guard beyond
    36: for a single set of 40 reps of 100 the estimate is 100 and the query
    reports 0. *)
Theorem oneRepMax_estimate_and_progress :
  (forall s : WorkoutSet,
      reps s == 1 -> SetModel.getEstimatedOneRepMax s = weight s)
  /\ (forall s : WorkoutSet,
      1 < reps s -> reps s <= 36 ->
      SetModel.getEstimatedOneRepMax s == weight s * 36 / (37 - reps s))
  /\ (forall s : WorkoutSet,
      36 < reps s -> SetModel.getEstimatedOneRepMax s = weight s)
  /\ (forall (catalog : list Exercise) (storage : AsyncStorage) (id : string)
             (timeRange : TimeRange) (m : ProgressMetrics),
      getExerciseProgress catalog storage id timeRange = Ok m ->
      (forall s, In s (Spec.matchingSets id (getWorkoutsInTimeRange storage timeRange)) ->
                 reps s <= 36) ->
      pm_oneRepMax m
      = Spec.maxEstimate (Spec.matchingSets id (getWorkoutsInTimeRange storage timeRange)))
  /\ match Spec.reportedOneRepMax
             (getExerciseProgress Sample.catalog
                (Sample.stored [Sample.session "a" Sample.jan05 [Sample.mkSet 10 80]])
                "bench-press" Sample.january) with
     | Some v => num_eq v (Fin (80 * 36 / 27))
     | None => False
     end
  /\ (SetModel.getEstimatedOneRepMax Sample.fortyByHundred = 100
      /\ Spec.maxEstimate [Sample.fortyByHundred] = Fin 100
      /\ Spec.reportedOneRepMax
           (getExerciseProgress Sample.catalog
              (Sample.stored [Sample.session "a" Sample.jan05 [Sample.fortyByHundred]])
              "bench-press" Sample.january)
         = Some (Fin 0)).
Proof.
  split; [|split; [|split; [|split; [|split]]]].
  - intros s H. unfold SetModel.getEstimatedOneRepMax.
    apply Qeq_bool_iff in H. now rewrite H.
  - intros s H1 H36. unfold SetModel.getEstimatedOneRepMax.
    destruct (Qeq_bool (reps s) 1) eqn:E.
    + apply Qeq_bool_iff in E. rewrite E in H1. now apply Qlt_irrefl in H1.
    + unfold Qgtb. apply Qle_bool_iff in H36. rewrite H36. simpl.
      unfold Qdiv. ring.
  - intros s H. unfold SetModel.getEstimatedOneRepMax.
    destruct (Qeq_bool (reps s) 1); [reflexivity|].
    unfold Qgtb. destruct (Qle_bool (reps s) 36) eqn:E; [|reflexivity].
    apply Qle_bool_iff in E. exfalso. revert E. now apply Qlt_not_le.
  - intros catalog storage id timeRange m Hm Hall.
    rewrite (ProgressFacts.getExerciseProgress_oneRepMax _ _ _ _ _ Hm).
    unfold Spec.maxEstimate. f_equal. apply map_ext_in.
    intros s Hs. apply ProgressFacts.inline_is_estimate, Hall, Hs.
  - vm_compute. reflexivity.
  - repeat split; reflexivity.
Qed.

(** C2 at work: a session with 10 reps of 80 and 8 reps of 85. *)
Lemma oneRepMax_sample :
  SetModel.getEstimatedOneRepMax (Sample.mkSet 1 80) = 80
  /\ SetModel.getEstimatedOneRepMax (Sample.mkSet 10 80) == 80 * 36 / (37 - 10)
  /\ SetModel.getEstimatedOneRepMax (Sample.mkSet 40 100) = 100
  /\ Spec.reportedOneRepMax
       (getExerciseProgress Sample.catalog
          (Sample.stored
             [Sample.session "a" Sample.jan05 [Sample.mkSet 10 80; Sample.mkSet 8 85]])
          "bench-press" Sample.january)
     = Some (Spec.maxEstimate [Sample.mkSet 10 80; Sample.mkSet 8 85]).
Proof.
  destruct oneRepMax_estimate_and_progress as (H1 & H2 & H3 & H4 & _).
  split; [apply H1; reflexivity|].
  split; [apply (H2 (Sample.mkSet 10 80)); [reflexivity | discriminate]|].
  split; [apply H3; reflexivity|].
  destruct (getExerciseProgress Sample.catalog
              (Sample.stored
                 [Sample.session "a" Sample.jan05 [Sample.mkSet 10 80; Sample.mkSet 8 85]])
              "bench-press" Sample.january) as [m|msg] eqn:Hm;
    [|vm_compute in Hm; discriminate Hm].
  simpl. f_equal.
  rewrite (H4 _ _ _ _ m Hm).
  - reflexivity.
  - intros s Hs. vm_compute in Hs.
    destruct Hs as [<-|[<-|[]]]; vm_compute; discriminate.
Defined.

(** C8, as the code behaves.  For an exercise id the catalog does not know,
    [getExerciseProgress] and [getStrengthProgression] throw, whatever the
    history and the time range; only the personal records fall back to the
    raw id for the name.  For a known exercise without matching sessions in
    the range both return their zero-valued results. *)
Theorem unknown_exercise_raises :
  (forall (catalog : list Exercise) (storage : AsyncStorage) (id : string)
          (timeRange : TimeRange),
      ExerciseService.getExerciseById catalog id = None ->
      getExerciseProgress catalog storage id timeRange
        = Err ("Failed to get exercise progress: Exercise with ID "
                 ++ id ++ " not found")%string
      /\ getStrengthProgression catalog storage id timeRange
         = Err ("Failed to get strength progression: Exercise with ID "
                  ++ id ++ " not found")%string
      /\ displayName catalog id = id)
  /\ (forall (catalog : list Exercise) (storage : AsyncStorage) (id : string)
             (timeRange : TimeRange) (exercise : Exercise),
      ExerciseService.getExerciseById catalog id = Some exercise ->
      filter (hasExercise id) (getWorkoutsInTimeRange storage timeRange) = [] ->
      getExerciseProgress catalog storage id timeRange
        = Ok {| pm_exerciseId := id; pm_exerciseName := ex_name exercise;
                pm_oneRepMax := Fin 0; pm_totalVolume := 0; pm_averageWeight := 0;
                pm_totalSets := O; pm_totalReps := 0;
                pm_progressPercentage := Fin 0 |}
      /\ getStrengthProgression catalog storage id timeRange
         = Ok {| sg_exerciseId := id; sg_exerciseName := ex_name exercise;
                 dataPoints := []; trendDirection := stable;
                 progressRate := Fin 0 |}).
Proof.
  split.
  - intros catalog storage id timeRange H.
    unfold getExerciseProgress, getExerciseProgress_try,
      getStrengthProgression, getStrengthProgression_try, displayName.
    rewrite H. repeat split; reflexivity.
  - intros catalog storage id timeRange exercise H Hf.
    unfold getExerciseProgress, getExerciseProgress_try,
      getStrengthProgression, getStrengthProgression_try.
    rewrite H, Hf, (ProgressFacts.no_points id _ [] Hf). split; reflexivity.
Qed.

(** The failing input of C8: the catalog holds the bench press only, and the
    queries are made for "non-existent-exercise". *)
Lemma unknown_exercise_sample :
  getExerciseProgress Sample.catalog
    (Sample.stored [Sample.session "a" Sample.jan05 [Sample.mkSet 10 80]])
    "non-existent-exercise" Sample.january
  = Err "Failed to get exercise progress: Exercise with ID non-existent-exercise not found"
  /\ getStrengthProgression Sample.catalog
       (Sample.stored [Sample.session "a" Sample.jan05 [Sample.mkSet 10 80]])
       "non-existent-exercise" Sample.january
     = Err "Failed to get strength progression: Exercise with ID non-existent-exercise not found".
Proof.
  destruct unknown_exercise_raises as (H & _).
  destruct (H Sample.catalog
              (Sample.stored [Sample.session "a" Sample.jan05 [Sample.mkSet 10 80]])
              "non-existent-exercise" Sample.january eq_refl) as (Hp & Hs & _).
  split; [exact Hp | exact Hs].
Defined.

(** C9, counterexample: the same stored history and the same time range,
    queried one day and fifteen days after the only session, give different
    frequency data. *)
Lemma getWorkoutFrequency_differs_with_clock :
  currentStreak
    (getWorkoutFrequency (Sample.jan20 + Sample.day) Sample.oneSession Sample.january)
  = 1%nat
  /\ currentStreak
       (getWorkoutFrequency (Sample.jan20 + 15 * Sample.day) Sample.oneSession
                            Sample.january)
     = O
  /\ getWorkoutFrequency (Sample.jan20 + Sample.day) Sample.oneSession Sample.january
     <> getWorkoutFrequency (Sample.jan20 + 15 * Sample.day) Sample.oneSession
                            Sample.january.
Proof.
  split; [reflexivity|]. split; [reflexivity|].
  intros H. apply (f_equal currentStreak) in H. discriminate H.
Qed.

(** ** Facts about the volume by date *)

Module VolumeFacts.

Import ProgressService.

Section Points.

Variable toDateString : Z -> string.

Lemma keys_set (k : string) (x : Q) (m : Volumes) :
  forall k0, In k0 (map fst (volumes_set k x m)) <-> k0 = k \/ In k0 (map fst m).
Proof.
  induction m as [|(k', v') m IH]; intros k0; simpl.
  - split; [intros [H|[]]; auto | intros [H|[]]; auto].
  - destruct (String.eqb_spec k' k) as [->|Hne]; simpl.
    + split; [intros [H|H]; auto | intros [H|[H|H]]; auto].
    + rewrite IH. split; [intros [H|[H|H]]; auto | intros [H|[H|H]]; auto].
Qed.

Lemma length_set (k : string) (x : Q) (m : Volumes) :
  (List.length (volumes_set k x m) <= S (List.length m))%nat.
Proof.
  induction m as [|(k', v') m IH]; simpl; [lia|].
  destruct (String.eqb k' k); simpl; lia.
Qed.

(** The pass over the sessions: the total is the running sum of the
    sessions' volumes, and the map has a key for every session. *)
Lemma volume_pass (ws : list Workout) :
  forall (t : Q) (m : Volumes),
    fst (fold_left (volumeStep toDateString) ws (t, m))
    = fold_left (fun total w => total + workoutVolumeOf w) ws t
    /\ (List.length (snd (fold_left (volumeStep toDateString) ws (t, m)))
        <= List.length m + List.length ws)%nat
    /\ (forall k, In k (map fst (snd (fold_left (volumeStep toDateString) ws (t, m))))
                  <-> In k (map fst m)
                      \/ In k (map (Spec.dateKeyOf toDateString) ws)).
Proof.
  induction ws as [|w ws IH]; intros t m.
  - cbn [fold_left fst snd List.length map In]. split; [reflexivity|].
    split; [lia | tauto].
  - set (key := toDateString (startTime w)).
    set (x := match volumes_get key m with
              | Some v => Q_or0 v
              | None => 0
              end + workoutVolumeOf w).
    change (fold_left (volumeStep toDateString) (w :: ws) (t, m))
      with (fold_left (volumeStep toDateString) ws
                      (t + workoutVolumeOf w, volumes_set key x m)).
    destruct (IH (t + workoutVolumeOf w) (volumes_set key x m)) as (H1 & H2 & H3).
    split; [exact H1|]. split.
    + pose proof (length_set key x m). cbn [List.length]. lia.
    + intros k. rewrite H3, keys_set. cbn [map In]. unfold Spec.dateKeyOf at 2.
      fold key. split; [intros [[->|H]|H]; auto | intros [H|[<-|H]]; auto].
Qed.

(** Two readings of the calendar that agree on the sessions make the same
    pass. *)
Lemma volume_pass_agree (toDateString' : Z -> string) (ws : list Workout) :
  (forall w, In w ws -> toDateString' (startTime w) = toDateString (startTime w)) ->
  forall acc : Q * Volumes,
    fold_left (volumeStep toDateString') ws acc
    = fold_left (volumeStep toDateString) ws acc.
Proof.
  induction ws as [|w ws IH]; intros H acc; [reflexivity|].
  cbn [fold_left]. rewrite IH by (intros; apply H; now right).
  f_equal. unfold volumeStep. destruct acc as (t, m).
  now rewrite (H w (or_introl eq_refl)).
Qed.

End Points.



End VolumeFacts.

(** ** What the analytics read *)

Module InputFacts.

Lemma getWorkoutHistory_same (storage storage' : AsyncStorage) (limit offset : option Z) :
  WORKOUT_HISTORY storage = WORKOUT_HISTORY storage' ->
  WorkoutService.getWorkoutHistory storage limit offset
  = WorkoutService.getWorkoutHistory storage' limit offset.
Proof. unfold WorkoutService.getWorkoutHistory. now intros ->. Qed.

Lemma getWorkoutsInTimeRange_same (storage storage' : AsyncStorage)
  (timeRange : TimeRange) :
  WORKOUT_HISTORY storage = WORKOUT_HISTORY storage' ->
  getWorkoutsInTimeRange storage timeRange = getWorkoutsInTimeRange storage' timeRange.
Proof.
  intros H. unfold getWorkoutsInTimeRange.
  now rewrite (getWorkoutHistory_same storage storage' None None H).
Qed.

End InputFacts.

(** C9, amended.  No analytics function takes a clock.  Exercise progress,
    strength progression and the personal records are functions of the
    stored history, the catalog, the exercise and the time range: they give
    the same result for two stores with the same history.  The workout
    frequency reads the clock inside [calculateStreaks]: it depends on the
    clock through the current streak alone, and only through whether at
    most 7 days separate the most recent session from the clock; total,
    weekly average, longest streak and dates are the same for any two clock
    readings, and the whole result is when the two readings agree on that
    test.  The total volume and the consistency metrics read no clock but
    the calendar of the device ([toDateString], and for the volume [new
    Date(text)]): two devices which give the same day to every session of
    the range, and the same date to those days, get the same results; the
    total volume itself, the number of days of the range and the weekly
    average are the same on any two devices; and two devices may differ
    otherwise: of two sessions at 10:00 and 22:00 UTC on one day, a device
    at UTC makes one workout day and one point, a device three hours east
    of it two. *)
Theorem analytics_inputs :
  (forall (catalog : list Exercise) (storage storage' : AsyncStorage) (id : string)
          (timeRange : TimeRange),
      WORKOUT_HISTORY storage = WORKOUT_HISTORY storage' ->
      getExerciseProgress catalog storage id timeRange
        = getExerciseProgress catalog storage' id timeRange
      /\ getStrengthProgression catalog storage id timeRange
         = getStrengthProgression catalog storage' id timeRange
      /\ getPersonalRecords catalog storage = getPersonalRecords catalog storage'
      /\ getExercisePersonalRecord catalog storage id
         = getExercisePersonalRecord catalog storage' id)
  /\ (forall (c1 c2 : Z) (storage : AsyncStorage) (timeRange : TimeRange),
      totalWorkouts (getWorkoutFrequency c1 storage timeRange)
        = totalWorkouts (getWorkoutFrequency c2 storage timeRange)
      /\ averagePerWeek (getWorkoutFrequency c1 storage timeRange)
         = averagePerWeek (getWorkoutFrequency c2 storage timeRange)
      /\ longestStreak (getWorkoutFrequency c1 storage timeRange)
         = longestStreak (getWorkoutFrequency c2 storage timeRange)
      /\ workoutDates (getWorkoutFrequency c1 storage timeRange)
         = workoutDates (getWorkoutFrequency c2 storage timeRange)
      /\ (Spec.recent c1 (workoutDates (getWorkoutFrequency c1 storage timeRange))
          = Spec.recent c2 (workoutDates (getWorkoutFrequency c1 storage timeRange)) ->
          getWorkoutFrequency c1 storage timeRange
          = getWorkoutFrequency c2 storage timeRange))
  /\ (forall (toDateString toDateString' : Z -> string) (parseDate parseDate' : string -> Z)
             (storage : AsyncStorage) (timeRange : TimeRange),
      (forall w, In w (getWorkoutsInTimeRange storage timeRange) ->
         toDateString' (startTime w) = toDateString (startTime w)
         /\ parseDate' (toDateString (startTime w))
            = parseDate (toDateString (startTime w))) ->
      getTotalVolume toDateString' parseDate' storage timeRange
        = getTotalVolume toDateString parseDate storage timeRange
      /\ getConsistencyMetrics toDateString' storage timeRange
         = getConsistencyMetrics toDateString storage timeRange)
  /\ (forall (toDateString toDateString' : Z -> string) (parseDate parseDate' : string -> Z)
             (storage : AsyncStorage) (timeRange : TimeRange),
      vd_totalVolume (getTotalVolume toDateString' parseDate' storage timeRange)
        = vd_totalVolume (getTotalVolume toDateString parseDate storage timeRange)
      /\ cm_totalDays (getConsistencyMetrics toDateString' storage timeRange)
         = cm_totalDays (getConsistencyMetrics toDateString storage timeRange)
      /\ averageWorkoutsPerWeek (getConsistencyMetrics toDateString' storage timeRange)
         = averageWorkoutsPerWeek (getConsistencyMetrics toDateString storage timeRange))
  /\ (workoutDays (getConsistencyMetrics Sample.utc
                     (Sample.stored [Sample.morning; Sample.evening]) Sample.january)
        = 1%nat
      /\ workoutDays (getConsistencyMetrics Sample.east
                        (Sample.stored [Sample.morning; Sample.evening]) Sample.january)
         = 2%nat
      /\ map vp_date
           (volumeByDate (getTotalVolume Sample.utc Sample.utcParse
                            (Sample.stored [Sample.morning; Sample.evening])
                            Sample.january))
         = [Sample.jan05]
      /\ map vp_date
           (volumeByDate (getTotalVolume Sample.east Sample.eastParse
                            (Sample.stored [Sample.morning; Sample.evening])
                            Sample.january))
         = [(Sample.jan05 - 3 * Sample.hour)%Z;
            (Sample.jan05 + Sample.day - 3 * Sample.hour)%Z]).
Proof.
  split; [|split; [|split; [|split]]].
  - intros catalog storage storage' id timeRange H.
    unfold getExercisePersonalRecord, getPersonalRecords,
      getExerciseProgress, getExerciseProgress_try,
      getStrengthProgression, getStrengthProgression_try.
    rewrite (InputFacts.getWorkoutsInTimeRange_same storage storage' timeRange H),
      (InputFacts.getWorkoutHistory_same storage storage' None None H).
    repeat split; reflexivity.
  - intros c1 c2 storage timeRange. unfold getWorkoutFrequency.
    destruct (ProgressFacts.calculateStreaks_clock
                (js_sort ascending
                   (map startTime (getWorkoutsInTimeRange storage timeRange))))
      as (longest & temp & H).
    rewrite (H c1), (H c2). simpl.
    repeat split; try reflexivity.
    intros ->. reflexivity.
  - intros toDateString toDateString' parseDate parseDate' storage timeRange H.
    split.
    + unfold getTotalVolume.
      rewrite (VolumeFacts.volume_pass_agree toDateString toDateString')
        by (intros w Hw; apply (H w Hw)).
      set (r := fold_left (volumeStep toDateString) _ (0, [])).
      assert (Hk : forall k, In k (map fst (snd r)) ->
                     In k (map (Spec.dateKeyOf toDateString)
                               (getWorkoutsInTimeRange storage timeRange))).
      { intros k Hin.
        apply (VolumeFacts.volume_pass toDateString
                 (getWorkoutsInTimeRange storage timeRange) 0 []) in Hin.
        now destruct Hin as [[]|Hin]. }
      clearbody r. destruct r as (t, m). cbn [snd] in Hk.
      assert (Hp : map (fun kv => {| vp_date := parseDate' (fst kv);
                                     vp_volume := snd kv |}) m
                   = map (fun kv => {| vp_date := parseDate (fst kv);
                                       vp_volume := snd kv |}) m).
      { apply map_ext_in. intros kv Hin.
        assert (Hkey : In (fst kv) (map fst m)) by now apply in_map.
        apply Hk in Hkey.
        apply in_map_iff in Hkey. destruct Hkey as (w & <- & Hw).
        unfold Spec.dateKeyOf. now rewrite (proj2 (H w Hw)). }
      now rewrite Hp.
    + unfold getConsistencyMetrics.
      rewrite (map_ext_in (fun w => toDateString' (startTime w))
                          (fun w => toDateString (startTime w)))
        by (intros w Hw; apply (H w Hw)).
      reflexivity.
  - intros toDateString toDateString' parseDate parseDate' storage timeRange.
    split; [|split; reflexivity].
    unfold getTotalVolume.
    set (r := fold_left (volumeStep toDateString) _ (0, [])).
    set (r' := fold_left (volumeStep toDateString') _ (0, [])).
    assert (H : fst r' = fst r).
    { etransitivity;
        [exact (proj1 (VolumeFacts.volume_pass toDateString'
                         (getWorkoutsInTimeRange storage timeRange) 0 []))
        | symmetry;
          exact (proj1 (VolumeFacts.volume_pass toDateString
                          (getWorkoutsInTimeRange storage timeRange) 0 []))]. }
    clearbody r r'. destruct r as (t, m), r' as (t', m'). exact H.
  - repeat split; reflexivity.
Qed.

(** C9 at work: one day and two days after the only session the frequency
    data are the same; and the personal records do not depend on the active
    session in storage. *)
Lemma analytics_inputs_sample :
  getWorkoutFrequency (Sample.jan20 + Sample.day) Sample.oneSession Sample.january
  = getWorkoutFrequency (Sample.jan20 + 2 * Sample.day) Sample.oneSession Sample.january
  /\ getPersonalRecords Sample.catalog
       {| CURRENT_WORKOUT := Some Sample.pushDay;
          WORKOUT_HISTORY := Some [Sample.heavy; Sample.light] |}
     = getPersonalRecords Sample.catalog (Sample.stored [Sample.heavy; Sample.light])
  /\ getConsistencyMetrics Sample.east (Sample.stored [Sample.morning]) Sample.january
     = getConsistencyMetrics Sample.utc (Sample.stored [Sample.morning]) Sample.january.
Proof.
  destruct analytics_inputs as (H1 & H2 & H3 & _).
  split; [|split].
  - apply (H2 (Sample.jan20 + Sample.day)%Z (Sample.jan20 + 2 * Sample.day)%Z
              Sample.oneSession Sample.january).
    reflexivity.
  - apply (H1 Sample.catalog
              {| CURRENT_WORKOUT := Some Sample.pushDay;
                 WORKOUT_HISTORY := Some [Sample.heavy; Sample.light] |}
              (Sample.stored [Sample.heavy; Sample.light]) "bench-press"
              Sample.january eq_refl).
  - apply (H3 Sample.utc Sample.east Sample.utcParse Sample.utcParse
              (Sample.stored [Sample.morning]) Sample.january).
    intros w [<-|[]]. split; reflexivity.
Defined.

(** ** Facts about the order of numbers *)

Module OrderFacts.

Lemma Qgtb_false (a b : Q) : Qgtb a b = false -> a <= b.
Proof.
  unfold Qgtb. intros H. apply Qle_bool_iff.
  now destruct (Qle_bool a b).
Qed.

Lemma Qgtb_true (a b : Q) : Qgtb a b = true <-> b < a.
Proof.
  unfold Qgtb. split.
  - intros H. apply Qnot_le_lt. intros Hle. apply Qle_bool_iff in Hle.
    rewrite Hle in H. discriminate.
  - intros H. destruct (Qle_bool a b) eqn:E; [|reflexivity].
    apply Qle_bool_iff in E. exfalso. revert E. now apply Qlt_not_le.
Qed.

Lemma Qgtb_weaken (a b c : Q) : a <= b -> Qgtb c b = true -> Qgtb c a = true.
Proof.
  intros Hab H. apply Qgtb_true. apply Qgtb_true in H.
  eapply Qle_lt_trans; eauto.
Qed.

Lemma Qmaxb_l (a b : Q) : a <= Qmaxb a b.
Proof.
  unfold Qmaxb. destruct (Qle_bool a b) eqn:E.
  - now apply Qle_bool_iff.
  - apply Qle_refl.
Qed.

Lemma Qmaxb_r (a b : Q) : b <= Qmaxb a b.
Proof.
  unfold Qmaxb. destruct (Qle_bool a b) eqn:E.
  - apply Qle_refl.
  - apply Qlt_le_weak, Qgtb_true. unfold Qgtb. now rewrite E.
Qed.

Lemma Qmaxb_lub (a b c : Q) : a <= c -> b <= c -> Qmaxb a b <= c.
Proof. unfold Qmaxb. now destruct (Qle_bool a b). Qed.

Lemma Qmaxb_Qmax (a b : Q) : Qmaxb a b == Qmax a b.
Proof.
  unfold Qmaxb. destruct (Qle_bool a b) eqn:E.
  - apply Qle_bool_iff in E. symmetry. now apply Q.max_r.
  - symmetry. apply Q.max_l. apply Qlt_le_weak, Qgtb_true. unfold Qgtb. now rewrite E.
Qed.

Lemma Q_or0_eq (a : Q) : Q_or0 a == a.
Proof.
  unfold Q_or0. destruct (Qeq_bool a 0) eqn:E; [|reflexivity].
  apply Qeq_bool_iff in E. now symmetry.
Qed.

Lemma nle_refl (a : num) : a <> NaN -> nle a a = true.
Proof.
  destruct a; simpl; intros H; try reflexivity; try congruence.
  apply Qle_bool_iff, Qle_refl.
Qed.

Lemma nle_not_NaN_l (a b : num) : nle a b = true -> a <> NaN.
Proof. destruct a; simpl; congruence. Qed.

Lemma nle_not_NaN_r (a b : num) : nle a b = true -> b <> NaN.
Proof. destruct a, b; simpl; congruence. Qed.

Lemma nle_trans (a b c : num) : nle a b = true -> nle b c = true -> nle a c = true.
Proof.
  destruct a, b, c; simpl; intros H1 H2; try reflexivity; try discriminate.
  apply Qle_bool_iff in H1, H2. apply Qle_bool_iff. eapply Qle_trans; eauto.
Qed.

Lemma nlt_false_nle (a b : num) :
  a <> NaN -> b <> NaN -> nlt a b = false -> nle b a = true.
Proof.
  destruct a, b; simpl; intros Ha Hb H; try reflexivity; try discriminate;
    try congruence.
  now destruct (Qle_bool q0 q).
Qed.

Lemma nlt_nle (a b : num) : nlt a b = true -> nle a b = true.
Proof.
  destruct a, b; simpl; intros H; try reflexivity; try discriminate.
  apply Qle_bool_iff, Qlt_le_weak, OrderFacts.Qgtb_true. exact H.
Qed.

Lemma nle_nlt_trans (a b c : num) :
  nle a b = true -> nlt b c = true -> nlt a c = true.
Proof.
  destruct a, b, c; simpl; intros H1 H2; try reflexivity; try discriminate.
  apply Qle_bool_iff in H1.
  change (Qgtb q1 q = true). change (Qgtb q1 q0 = true) in H2.
  eapply Qgtb_weaken; eauto.
Qed.

Lemma nmax_not_NaN (a b : num) : a <> NaN -> b <> NaN -> nmax a b <> NaN.
Proof.
  destruct a, b; simpl; intros Ha Hb; try congruence;
    try (destruct (negb _); congruence).
Qed.

Lemma nmax_l (a b : num) : a <> NaN -> b <> NaN -> nle a (nmax a b) = true.
Proof.
  intros Ha Hb. unfold nmax.
  destruct (nlt a b) eqn:E.
  - destruct a, b; try congruence; now apply nlt_nle.
  - destruct a, b; try congruence; now apply nle_refl.
Qed.

Lemma nmax_r (a b : num) : a <> NaN -> b <> NaN -> nle b (nmax a b) = true.
Proof.
  intros Ha Hb. unfold nmax.
  destruct (nlt a b) eqn:E.
  - destruct a, b; try congruence; now apply nle_refl.
  - destruct a, b; try congruence; now apply nlt_false_nle.
Qed.

Lemma nmax_lub (a b c : num) :
  nle a c = true -> nle b c = true -> nle (nmax a b) c = true.
Proof.
  intros Ha Hb. unfold nmax.
  destruct a, b; simpl in *; try discriminate; try assumption;
    try (destruct (negb _); assumption).
Qed.

Lemma n_or0_not_NaN (a : num) : n_or0 a <> NaN.
Proof. destruct a; simpl; try congruence. destruct (Qeq_bool q 0); congruence. Qed.

Lemma n_or0_le (a : num) : a <> NaN -> nle (n_or0 a) a = true.
Proof.
  destruct a; simpl; intros H; try reflexivity; try congruence.
  destruct (Qeq_bool q 0) eqn:E; simpl; apply Qle_bool_iff.
  - apply Qeq_bool_iff in E. rewrite E. apply Qle_refl.
  - apply Qle_refl.
Qed.

Lemma n_or0_ge (a : num) : a <> NaN -> nle a (n_or0 a) = true.
Proof.
  destruct a; simpl; intros H; try reflexivity; try congruence.
  destruct (Qeq_bool q 0) eqn:E; simpl; apply Qle_bool_iff.
  - apply Qeq_bool_iff in E. rewrite E. apply Qle_refl.
  - apply Qle_refl.
Qed.

End OrderFacts.

(** ** Facts about personal records *)

Module RecordFacts.

Import OrderFacts.

Lemma records_get_set (k id : string) (v : PersonalRecord) (m : Records) :
  records_get k (records_set id v m)
  = if String.eqb id k then Some v else records_get k m.
Proof.
  induction m as [|[k' v'] m IH]; simpl; [reflexivity|].
  destruct (String.eqb_spec k' id) as [->|Hne]; simpl.
  - destruct (String.eqb id k); reflexivity.
  - rewrite IH. destruct (String.eqb_spec k' k) as [->|Hk]; [|reflexivity].
    destruct (String.eqb_spec id k) as [->|_]; [contradiction|reflexivity].
Qed.

Lemma inline_not_NaN (s : WorkoutSet) :
  ~ Spec.undefinedEstimate s -> inlineOneRepMax s <> NaN.
Proof.
  intros H. unfold inlineOneRepMax.
  destruct (Qeq_bool (reps s) 1); [discriminate|].
  unfold nsub, nopp, nadd, ndiv.
  destruct (Qeq_bool (37 + - reps s) 0) eqn:E; [|discriminate].
  change (sign_case 36 NInf NaN PInf) with PInf.
  unfold nmul, sign_case.
  destruct (weight s ?= 0) eqn:Ew; try discriminate.
  exfalso. apply H. split.
  - apply Qeq_bool_iff in E.
    rewrite <- (Qplus_0_r (reps s)), <- E. ring.
  - now apply Qeq_alt.
Qed.

Lemma record_le_refl (r : PersonalRecord) : Spec.sound r -> Spec.record_le r r.
Proof.
  intros (_ & _ & _ & H). split; [|split; [|split]]; try apply Qle_refl.
  apply nle_refl. eapply nle_not_NaN_r; eauto.
Qed.

Lemma record_le_trans (a b c : PersonalRecord) :
  Spec.record_le a b -> Spec.record_le b c -> Spec.record_le a c.
Proof.
  intros (A1 & A2 & A3 & A4) (B1 & B2 & B3 & B4).
  split; [|split; [|split]]; try (eapply Qle_trans; eauto). eapply nle_trans; eauto.
Qed.

Lemma option_le_refl (a : option PersonalRecord) :
  Spec.option_sound a -> Spec.option_le a a.
Proof. destruct a; simpl; [apply record_le_refl | trivial]. Qed.

Lemma option_le_trans (a b c : option PersonalRecord) :
  Spec.option_le a b -> Spec.option_le b c -> Spec.option_le a c.
Proof.
  destruct a, b, c; simpl; try tauto. apply record_le_trans.
Qed.

Lemma field_or0_mono (f : PersonalRecord -> Q) (cur cur' : option PersonalRecord) :
  (forall r r', cur = Some r -> cur' = Some r' -> f r <= f r') ->
  (forall r', cur' = Some r' -> 0 <= f r') ->
  (cur' = None -> cur = None) ->
  field_or0 f cur <= field_or0 f cur'.
Proof.
  intros f_le f_pos Hnone. destruct cur as [r|], cur' as [r'|]; simpl.
  - rewrite !Q_or0_eq. now apply f_le.
  - discriminate (Hnone eq_refl).
  - rewrite Q_or0_eq. now apply f_pos.
  - apply Qle_refl.
Qed.

Lemma field_or0_pos (f : PersonalRecord -> Q) (cur : option PersonalRecord) :
  (forall r, cur = Some r -> 0 <= f r) -> 0 <= field_or0 f cur.
Proof.
  intros f_pos. destruct cur as [r|]; simpl.
  - rewrite Q_or0_eq. now apply f_pos.
  - apply Qle_refl.
Qed.

Lemma oneRepMax_or0_not_NaN (cur : option PersonalRecord) : oneRepMax_or0 cur <> NaN.
Proof. destruct cur; simpl; [apply n_or0_not_NaN | discriminate]. Qed.

Lemma oneRepMax_or0_pos (cur : option PersonalRecord) :
  Spec.option_sound cur -> nle (Fin 0) (oneRepMax_or0 cur) = true.
Proof.
  destruct cur as [r|]; unfold oneRepMax_or0, Spec.option_sound; [|reflexivity].
  intros (_ & _ & _ & H). eapply nle_trans; [exact H|].
  apply n_or0_ge. eapply nle_not_NaN_r; eauto.
Qed.

Lemma oneRepMax_or0_mono (cur cur' : option PersonalRecord) :
  Spec.option_le cur cur' -> Spec.option_sound cur' ->
  nle (oneRepMax_or0 cur) (oneRepMax_or0 cur') = true.
Proof.
  intros Hle Hs'.
  destruct cur as [r|], cur' as [r'|];
    unfold oneRepMax_or0, Spec.option_le, Spec.option_sound in *.
  - destruct Hle as (_ & _ & _ & H).
    eapply nle_trans; [apply n_or0_le; eapply nle_not_NaN_l; eauto|].
    eapply nle_trans; [exact H|].
    apply n_or0_ge. eapply nle_not_NaN_r; eauto.
  - contradiction.
  - apply (oneRepMax_or0_pos (Some r')). exact Hs'.
  - reflexivity.
Qed.

Ltac split4 := split; [|split; [|split]].
Ltac field_le Hle :=
  intros ? ? -> ->; unfold Spec.option_le, Spec.record_le in Hle;
  decompose [and] Hle; assumption.
Ltac field_pos Hs :=
  intros ? ->; unfold Spec.option_sound, Spec.sound in Hs;
  decompose [and] Hs; assumption.

Section OneSet.

Variable catalog : list Exercise.
Variable w : Workout.
Variable id : string.
Variable s : WorkoutSet.
Hypothesis s_defined : inlineOneRepMax s <> NaN.

Lemma recordOf_sound (cur : option PersonalRecord) :
  Spec.option_sound cur -> Spec.sound (recordOf catalog w id cur s).
Proof.
  intros Hs. unfold Spec.sound, recordOf; cbn [maxWeight maxReps maxVolume pr_oneRepMax].
  split4;
    try (eapply Qle_trans; [|apply Qmaxb_l]; apply field_or0_pos; field_pos Hs).
  eapply nle_trans; [apply oneRepMax_or0_pos, Hs|].
  apply nmax_l; [apply oneRepMax_or0_not_NaN | exact s_defined].
Qed.

Lemma recordOf_above (cur : option PersonalRecord) :
  Spec.option_sound cur -> Spec.option_le cur (Some (recordOf catalog w id cur s)).
Proof.
  intros Hs. destruct cur as [r|]; [|exact I].
  unfold Spec.option_le, Spec.record_le, recordOf, field_or0, oneRepMax_or0;
    cbn [maxWeight maxReps maxVolume pr_oneRepMax].
  split4;
    try (eapply Qle_trans; [|apply Qmaxb_l]; rewrite Q_or0_eq; apply Qle_refl).
  destruct Hs as (_ & _ & _ & H).
  eapply nle_trans; [apply n_or0_ge; eapply nle_not_NaN_r; eauto|].
  apply nmax_l; [apply n_or0_not_NaN | exact s_defined].
Qed.

Lemma recordOf_mono (cur cur' : option PersonalRecord) :
  Spec.option_le cur cur' -> Spec.option_sound cur' ->
  Spec.record_le (recordOf catalog w id cur s) (recordOf catalog w id cur' s).
Proof.
  intros Hle Hs'.
  assert (Hnone : cur' = None -> cur = None).
  { intros ->. destruct cur; [contradiction|reflexivity]. }
  unfold Spec.record_le, recordOf; cbn [maxWeight maxReps maxVolume pr_oneRepMax].
  split4;
    try (apply Qmaxb_lub; [|apply Qmaxb_r];
         eapply Qle_trans; [|apply Qmaxb_l];
         apply field_or0_mono; [field_le Hle | field_pos Hs' | exact Hnone]).
  apply nmax_lub.
  - eapply nle_trans; [apply oneRepMax_or0_mono; eassumption|].
    apply nmax_l; [apply oneRepMax_or0_not_NaN | exact s_defined].
  - apply nmax_r; [apply oneRepMax_or0_not_NaN | exact s_defined].
Qed.

Lemma exceeds_mono (cur cur' : option PersonalRecord) :
  Spec.option_le cur cur' -> exceeds cur' s = true -> exceeds cur s = true.
Proof.
  intros Hle H. destruct cur as [r|]; [|reflexivity].
  destruct cur' as [r'|]; [|contradiction].
  destruct Hle as (H1 & H2 & H3 & H4). simpl in *.
  rewrite !orb_true_iff in *.
  destruct H as [[[H|H]|H]|H].
  - left; left; left. eapply Qgtb_weaken; eauto.
  - left; left; right. eapply Qgtb_weaken; eauto.
  - left; right. eapply Qgtb_weaken; eauto.
  - right. unfold ngt in *. eapply nle_nlt_trans; eauto.
Qed.

Lemma not_exceeds_le (cur : option PersonalRecord) (r' : PersonalRecord) :
  Spec.option_le cur (Some r') -> Spec.sound r' ->
  exceeds (Some r') s = false ->
  Spec.record_le (recordOf catalog w id cur s) r'.
Proof.
  intros Hle Hs' H. simpl in H. rewrite !orb_false_iff in H.
  destruct H as (((H1 & H2) & H3) & H4).
  apply Qgtb_false in H1, H2, H3.
  assert (H4' : nle (inlineOneRepMax s) (pr_oneRepMax r') = true).
  { apply nlt_false_nle; [|exact s_defined|exact H4].
    destruct Hs' as (_ & _ & _ & Hp). eapply nle_not_NaN_r; eauto. }
  destruct Hs' as (P1 & P2 & P3 & P4).
  unfold Spec.record_le, recordOf; cbn [maxWeight maxReps maxVolume pr_oneRepMax].
  destruct cur as [r|]; unfold field_or0, oneRepMax_or0.
  - destruct Hle as (L1 & L2 & L3 & L4).
    split4; try (apply Qmaxb_lub; [rewrite Q_or0_eq|]; assumption).
    apply nmax_lub; [|exact H4'].
    eapply nle_trans; [apply n_or0_le; eapply nle_not_NaN_l; eauto | exact L4].
  - split4; try (apply Qmaxb_lub; assumption).
    apply nmax_lub; assumption.
Qed.

End OneSet.

End RecordFacts.

(** ** Facts about the scan of the history *)

Module ScanFacts.

Import OrderFacts RecordFacts.

Section OneExercise.

Variable catalog : list Exercise.
Variable w : Workout.
Variable id : string.

Lemma afterSets_sound (cur : option PersonalRecord) (ss : list WorkoutSet) :
  Spec.option_sound cur ->
  (forall s, In s ss -> inlineOneRepMax s <> NaN) ->
  forall acc, Spec.option_sound acc ->
              Spec.option_sound (Spec.afterSets catalog w id cur ss acc).
Proof.
  intros Hcur. induction ss as [|s ss IH]; intros Hss acc Hacc; simpl; [exact Hacc|].
  apply IH; [intros; apply Hss; now right|].
  destruct (exceeds cur s); [|exact Hacc].
  apply recordOf_sound; [apply Hss; now left | exact Hcur].
Qed.

Lemma afterSets_above (cur : option PersonalRecord) (ss : list WorkoutSet) :
  Spec.option_sound cur ->
  (forall s, In s ss -> inlineOneRepMax s <> NaN) ->
  forall acc, Spec.option_le cur acc ->
              Spec.option_le cur (Spec.afterSets catalog w id cur ss acc).
Proof.
  intros Hcur. induction ss as [|s ss IH]; intros Hss acc Hacc; simpl; [exact Hacc|].
  apply IH; [intros; apply Hss; now right|].
  destruct (exceeds cur s); [|exact Hacc].
  apply recordOf_above; [apply Hss; now left | exact Hcur].
Qed.

Lemma afterSets_mono (cur cur' : option PersonalRecord) (ss : list WorkoutSet) :
  Spec.option_le cur cur' ->
  Spec.option_sound cur -> Spec.option_sound cur' ->
  (forall s, In s ss -> inlineOneRepMax s <> NaN) ->
  forall acc acc',
    Spec.option_le acc acc' -> Spec.option_le cur' acc' ->
    Spec.option_le (Spec.afterSets catalog w id cur ss acc)
                   (Spec.afterSets catalog w id cur' ss acc').
Proof.
  intros Hle Hcur Hcur'.
  induction ss as [|s ss IH]; intros Hss acc acc' Hacc Habove; simpl; [exact Hacc|].
  assert (Hs : inlineOneRepMax s <> NaN) by (apply Hss; now left).
  assert (Hss' : forall x, In x ss -> inlineOneRepMax x <> NaN)
    by (intros; apply Hss; now right).
  destruct (exceeds cur' s) eqn:E'.
  - rewrite (exceeds_mono s cur cur' Hle E').
    apply IH; [exact Hss' | | ].
    + apply (recordOf_mono catalog w id s Hs cur cur' Hle Hcur').
    + apply recordOf_above; assumption.
  - destruct cur' as [r'|]; [|discriminate E'].
    destruct acc' as [a'|]; [|contradiction].
    apply IH; [exact Hss' | | exact Habove].
    destruct (exceeds cur s); [|exact Hacc].
    eapply record_le_trans; [|exact Habove].
    apply not_exceeds_le; assumption.
Qed.

Lemma scanSets_get (cur : option PersonalRecord) (ss : list WorkoutSet) :
  forall (m : Records) (k : string),
    records_get k (fold_left (scanSet catalog w id cur) ss m)
    = if String.eqb id k
      then Spec.afterSets catalog w id cur ss (records_get k m)
      else records_get k m.
Proof.
  induction ss as [|s ss IH]; intros m k; simpl.
  - now destruct (String.eqb id k).
  - rewrite IH. unfold scanSet.
    destruct (exceeds cur s); [|reflexivity].
    rewrite records_get_set. now destruct (String.eqb id k).
Qed.

End OneExercise.

Lemma scanExercise_get (catalog : list Exercise) (w : Workout) (m : Records)
  (e : WorkoutExercise) (k : string) :
  records_get k (scanExercise catalog w m e)
  = if String.eqb (exerciseId e) k
    then Spec.afterSets catalog w (exerciseId e) (records_get (exerciseId e) m)
                        (sets e) (records_get k m)
    else records_get k m.
Proof. apply scanSets_get. Qed.

Lemma records_le_refl (m : Records) : Spec.records_sound m -> Spec.records_le m m.
Proof. intros H k. apply option_le_refl, H. Qed.

Lemma records_le_trans (a b c : Records) :
  Spec.records_le a b -> Spec.records_le b c -> Spec.records_le a c.
Proof. intros H1 H2 k. eapply option_le_trans; eauto. Qed.

Section Exercise.

Variable catalog : list Exercise.
Variable w : Workout.
Variable e : WorkoutExercise.
Hypothesis e_defined : forall s, In s (sets e) -> inlineOneRepMax s <> NaN.

Lemma scanExercise_sound (m : Records) :
  Spec.records_sound m -> Spec.records_sound (scanExercise catalog w m e).
Proof.
  intros Hm k. rewrite scanExercise_get.
  destruct (String.eqb (exerciseId e) k); [|apply Hm].
  apply afterSets_sound; auto.
Qed.

Lemma scanExercise_above (m : Records) :
  Spec.records_sound m -> Spec.records_le m (scanExercise catalog w m e).
Proof.
  intros Hm k. rewrite scanExercise_get.
  destruct (String.eqb_spec (exerciseId e) k) as [<-|_];
    [|apply option_le_refl, Hm].
  apply afterSets_above; auto. apply option_le_refl, Hm.
Qed.

Lemma scanExercise_mono (m m' : Records) :
  Spec.records_le m m' -> Spec.records_sound m -> Spec.records_sound m' ->
  Spec.records_le (scanExercise catalog w m e) (scanExercise catalog w m' e).
Proof.
  intros Hle Hm Hm' k. rewrite !scanExercise_get.
  destruct (String.eqb_spec (exerciseId e) k) as [<-|_]; [|apply Hle].
  apply afterSets_mono; auto. apply option_le_refl, Hm'.
Qed.

End Exercise.

(** A scan step that is monotone, keeps records sound and never lowers them
    keeps these properties when folded over a list. *)
Section Fold.

Variable X : Type.
Variable F : Records -> X -> Records.
Variable P : X -> Prop.
Hypothesis F_sound : forall x m, P x -> Spec.records_sound m -> Spec.records_sound (F m x).
Hypothesis F_above : forall x m, P x -> Spec.records_sound m -> Spec.records_le m (F m x).
Hypothesis F_mono :
  forall x m m', P x -> Spec.records_le m m' ->
                 Spec.records_sound m -> Spec.records_sound m' ->
                 Spec.records_le (F m x) (F m' x).

Lemma fold_sound (xs : list X) :
  (forall x, In x xs -> P x) ->
  forall m, Spec.records_sound m -> Spec.records_sound (fold_left F xs m).
Proof.
  induction xs as [|x xs IH]; intros Hxs m Hm; simpl; [exact Hm|].
  apply IH; [intros; apply Hxs; now right|].
  apply F_sound; [apply Hxs; now left | exact Hm].
Qed.

Lemma fold_above (xs : list X) :
  (forall x, In x xs -> P x) ->
  forall m, Spec.records_sound m -> Spec.records_le m (fold_left F xs m).
Proof.
  induction xs as [|x xs IH]; intros Hxs m Hm; simpl; [now apply records_le_refl|].
  assert (Hx : P x) by (apply Hxs; now left).
  eapply records_le_trans; [apply (F_above x m Hx Hm)|].
  apply IH; [intros; apply Hxs; now right|]. now apply F_sound.
Qed.

Lemma fold_mono (xs : list X) :
  (forall x, In x xs -> P x) ->
  forall m m', Spec.records_le m m' ->
               Spec.records_sound m -> Spec.records_sound m' ->
               Spec.records_le (fold_left F xs m) (fold_left F xs m').
Proof.
  induction xs as [|x xs IH]; intros Hxs m m' Hle Hm Hm'; simpl; [exact Hle|].
  assert (Hx : P x) by (apply Hxs; now left).
  apply IH; [intros; apply Hxs; now right | | |]; auto.
Qed.

End Fold.

Section History.

Variable catalog : list Exercise.

Lemma scanWorkout_sound (w : Workout) (m : Records) :
  Spec.definedWorkout w -> Spec.records_sound m ->
  Spec.records_sound (scanWorkout catalog m w).
Proof.
  intros Hw. apply (fold_sound _ (scanExercise catalog w) Spec.definedExercise); auto.
  intros. now apply scanExercise_sound.
Qed.

Lemma scanWorkout_above (w : Workout) (m : Records) :
  Spec.definedWorkout w -> Spec.records_sound m ->
  Spec.records_le m (scanWorkout catalog m w).
Proof.
  intros Hw.
  apply (fold_above _ (scanExercise catalog w) Spec.definedExercise); auto.
  - intros. now apply scanExercise_sound.
  - intros. now apply scanExercise_above.
Qed.

Lemma scanWorkout_mono (w : Workout) (m m' : Records) :
  Spec.definedWorkout w -> Spec.records_le m m' ->
  Spec.records_sound m -> Spec.records_sound m' ->
  Spec.records_le (scanWorkout catalog m w) (scanWorkout catalog m' w).
Proof.
  intros Hw.
  apply (fold_mono _ (scanExercise catalog w) Spec.definedExercise); auto.
  - intros. now apply scanExercise_sound.
  - intros. now apply scanExercise_mono.
Qed.

Lemma empty_sound : Spec.records_sound [].
Proof. intros k. exact I. Qed.

(** One more session, wherever the order of start times puts it, lowers no
    record. *)
Lemma scanHistory_insert (h1 h2 : list Workout) (w : Workout) :
  (forall x, In x (h1 ++ w :: h2) -> Spec.definedWorkout x) ->
  Spec.records_le (scanHistory catalog (h1 ++ h2))
                  (scanHistory catalog (h1 ++ w :: h2)).
Proof.
  intros Hall. unfold scanHistory. rewrite !fold_left_app. simpl.
  assert (H1 : forall x, In x h1 -> Spec.definedWorkout x)
    by (intros; apply Hall, in_or_app; now left).
  assert (H2 : forall x, In x h2 -> Spec.definedWorkout x)
    by (intros; apply Hall, in_or_app; right; now right).
  assert (Hw : Spec.definedWorkout w) by (apply Hall, in_or_app; right; now left).
  assert (Hs : Spec.records_sound (fold_left (scanWorkout catalog) h1 [])).
  { apply (fold_sound _ (scanWorkout catalog) Spec.definedWorkout); auto using empty_sound.
    intros. now apply scanWorkout_sound. }
  apply (fold_mono _ (scanWorkout catalog) Spec.definedWorkout); auto.
  - intros. now apply scanWorkout_sound.
  - intros. now apply scanWorkout_mono.
  - now apply scanWorkout_above.
  - now apply scanWorkout_sound.
Qed.

End History.

End ScanFacts.

(** ** Invariants of the scan *)

Module ScanInvariants.

Import RecordFacts ScanFacts.

Lemma fold_left_inv {A B : Type} (F : A -> B -> A) (Inv : A -> Prop) (xs : list B) :
  (forall x a, In x xs -> Inv a -> Inv (F a x)) ->
  forall a, Inv a -> Inv (fold_left F xs a).
Proof.
  induction xs as [|x xs IH]; intros HF a Ha; simpl; [exact Ha|].
  apply IH; [intros; apply HF; [now right | assumption]|].
  apply HF; [now left | exact Ha].
Qed.

(** An invariant kept by every replacement of a record is kept by the scan. *)
Lemma scanHistory_inv (Inv : Records -> Prop) (catalog : list Exercise)
  (history : list Workout) :
  Inv [] ->
  (forall w e cur s m,
      In w history -> In e (exercises w) -> In s (sets e) -> Inv m ->
      Inv (records_set (exerciseId e) (recordOf catalog w (exerciseId e) cur s) m)) ->
  Inv (scanHistory catalog history).
Proof.
  intros H0 Hset. unfold scanHistory.
  apply fold_left_inv; [|exact H0].
  intros w m Hw Hm. unfold scanWorkout.
  apply fold_left_inv; [|exact Hm].
  intros e m' He Hm'. unfold scanExercise.
  apply fold_left_inv; [|exact Hm'].
  intros s m'' Hs Hm''. unfold scanSet.
  destruct (exceeds _ s); [|exact Hm''].
  now apply Hset with (w := w).
Qed.

Lemma in_records_set (k id : string) (r v : PersonalRecord) (m : Records) :
  In (k, r) (records_set id v m) -> (k, r) = (id, v) \/ In (k, r) m.
Proof.
  induction m as [|[k' v'] m IH]; simpl.
  - intros [H|[]]. now left.
  - destruct (String.eqb k' id); simpl; intros [H|H]; auto.
    destruct (IH H); auto.
Qed.

Lemma scanHistory_keyed (catalog : list Exercise) (history : list Workout) :
  Spec.keyed (scanHistory catalog history).
Proof.
  apply scanHistory_inv.
  - intros k r [].
  - intros w e cur s m _ _ _ Hm k r Hin.
    destruct (in_records_set _ _ _ _ _ Hin) as [H|H]; [|now apply Hm].
    injection H as -> ->. reflexivity.
Qed.

Lemma find_keyed (id : string) (m : Records) :
  Spec.keyed m ->
  find (fun r => String.eqb (pr_exerciseId r) id) (map snd m) = records_get id m.
Proof.
  induction m as [|[k r] m IH]; intros Hk; simpl; [reflexivity|].
  rewrite (Hk k r (or_introl eq_refl)).
  destruct (String.eqb k id); [reflexivity|].
  apply IH. intros k' r' Hin. apply Hk. now right.
Qed.

Lemma hasExercise_in (w : Workout) (e : WorkoutExercise) :
  In e (exercises w) -> hasExercise (exerciseId e) w = true.
Proof.
  intros H. apply existsb_exists. exists e. split; [exact H|apply String.eqb_refl].
Qed.

Lemma scanHistory_dated (catalog : list Exercise) (history : list Workout) :
  Spec.dated history (scanHistory catalog history).
Proof.
  apply scanHistory_inv.
  - intros k r H. discriminate H.
  - intros w e cur s m Hw He _ Hm k r Hget.
    rewrite records_get_set in Hget.
    destruct (String.eqb_spec (exerciseId e) k) as [<-|_]; [|now apply Hm].
    injection Hget as <-. exists w. repeat split; auto using hasExercise_in.
Qed.

Section Presence.

Variable catalog : list Exercise.

Lemma afterSets_some (w : Workout) (id : string) (cur : option PersonalRecord)
  (ss : list WorkoutSet) :
  forall acc, acc <> None -> Spec.afterSets catalog w id cur ss acc <> None.
Proof.
  induction ss as [|s ss IH]; intros acc Hacc; simpl; [exact Hacc|].
  apply IH. destruct (exceeds cur s); [discriminate | exact Hacc].
Qed.

Lemma scanExercise_present (w : Workout) (e : WorkoutExercise) (k : string) (m : Records) :
  records_get k m <> None -> records_get k (scanExercise catalog w m e) <> None.
Proof.
  intros H. rewrite scanExercise_get.
  destruct (String.eqb (exerciseId e) k); [|exact H].
  now apply afterSets_some.
Qed.

Lemma scanExercise_covers (w : Workout) (e : WorkoutExercise) (m : Records) :
  sets e <> [] -> records_get (exerciseId e) (scanExercise catalog w m e) <> None.
Proof.
  intros Hne. rewrite scanExercise_get, String.eqb_refl.
  destruct (records_get (exerciseId e) m) as [r|] eqn:Hr.
  - apply afterSets_some. discriminate.
  - destruct (sets e) as [|s ss]; [contradiction|]. simpl.
    apply afterSets_some. discriminate.
Qed.

Lemma scanWorkout_present (w : Workout) (k : string) (m : Records) :
  records_get k m <> None -> records_get k (scanWorkout catalog m w) <> None.
Proof.
  apply (fold_left_inv (scanExercise catalog w) (fun m => records_get k m <> None)).
  intros e a _. apply scanExercise_present.
Qed.

Lemma scanWorkout_covers (w : Workout) (e : WorkoutExercise) (m : Records) :
  In e (exercises w) -> sets e <> [] ->
  records_get (exerciseId e) (scanWorkout catalog m w) <> None.
Proof.
  intros Hin Hne. destruct (in_split _ _ Hin) as (es1 & es2 & Hes).
  unfold scanWorkout. rewrite Hes, fold_left_app. simpl.
  apply (fold_left_inv (scanExercise catalog w)
           (fun m => records_get (exerciseId e) m <> None)).
  - intros e' a _. apply scanExercise_present.
  - now apply scanExercise_covers.
Qed.

Lemma scanHistory_covers (history : list Workout) (w : Workout) (e : WorkoutExercise) :
  In w history -> In e (exercises w) -> sets e <> [] ->
  records_get (exerciseId e) (scanHistory catalog history) <> None.
Proof.
  intros Hw Hin Hne. destruct (in_split _ _ Hw) as (h1 & h2 & Hh).
  unfold scanHistory. rewrite Hh, fold_left_app. simpl.
  apply (fold_left_inv (scanWorkout catalog)
           (fun m => records_get (exerciseId e) m <> None)).
  - intros w' a _. apply scanWorkout_present.
  - now apply scanWorkout_covers.
Qed.

End Presence.

(** The per-exercise query reads the scan of the sorted history. *)
Lemma getExercisePersonalRecord_scan (catalog : list Exercise) (storage : AsyncStorage)
  (history : list Workout) (id : string) :
  WORKOUT_HISTORY storage = Some history ->
  getExercisePersonalRecord catalog storage id
  = records_get id
      (scanHistory catalog (js_sort WorkoutService.byStartTimeDesc history)).
Proof.
  intros H. unfold getExercisePersonalRecord, getPersonalRecords.
  rewrite (HistoryFacts.getWorkoutHistory_all storage history H).
  apply find_keyed, scanHistory_keyed.
Qed.

Lemma in_sorted (history : list Workout) (w : Workout) :
  In w (js_sort WorkoutService.byStartTimeDesc history) <-> In w history.
Proof.
  split; apply Permutation_in;
    [apply Permutation_sym|]; apply js_sort_perm.
Qed.

Lemma defined_of_sets (history : list Workout) (w : Workout) :
  (forall s, In s (Spec.allSets history) -> ~ Spec.undefinedEstimate s) ->
  In w history -> Spec.definedWorkout w.
Proof.
  intros Hall Hw e He s Hs. apply inline_not_NaN, Hall.
  unfold Spec.allSets. apply in_flat_map. exists w. split; [exact Hw|].
  apply in_flat_map. exists e. auto.
Qed.

End ScanInvariants.

(** The record left by the sets of one entry is that of the last set that
    replaces the record read before the loop. *)
Lemma afterSets_last (catalog : list Exercise) (w : Workout) (id : string)
  (cur : option PersonalRecord) (ss : list WorkoutSet) (acc : option PersonalRecord) :
  Spec.afterSets catalog w id cur ss acc
  = match Spec.lastExceeding cur ss with
    | Some s => Some (recordOf catalog w id cur s)
    | None => acc
    end.
Proof.
  unfold Spec.afterSets, Spec.lastExceeding.
  change acc with (match @None WorkoutSet with
                   | Some s => Some (recordOf catalog w id cur s)
                   | None => acc
                   end) at 1.
  generalize (@None WorkoutSet) as found.
  induction ss as [|s ss IH]; intros found; simpl; [reflexivity|].
  rewrite <- IH. destruct (exceeds cur s); reflexivity.
Qed.

Lemma lastExceeding_first (ss : list WorkoutSet) (s : WorkoutSet) :
  Spec.lastExceeding None (ss ++ [s]) = Some s.
Proof. unfold Spec.lastExceeding. now rewrite fold_left_app. Qed.

(** C5, as the code behaves.  The scan reads the record of an entry's
    exercise once, before the loop over the entry's sets, and every set that
    strictly exceeds that record in weight, reps, volume or one-rep-max
    overwrites the map entry with the larger of that record's and the set's
    values: after an entry the record is the one read before it when no set
    exceeds it, and otherwise the one made of it and the LAST such set, the
    sets before it leaving no trace.  So a history of one session with one
    entry gets the values of the entry's last set alone, not the maxima over
    its sets.  The scan covers the whole stored history, whatever the dates:
    every exercise with a set in some stored session has a record.  A record
    has one date for its four values, the start of a stored session that has
    the exercise.  And when no set has an undefined estimate (37 reps at
    weight 0), storing one more session lowers no value of any exercise's
    record. *)
Theorem personal_records_scan :
  (forall (catalog : list Exercise) (w : Workout) (records : Records)
          (e : WorkoutExercise) (k : string),
      records_get k (scanExercise catalog w records e)
      = if String.eqb (exerciseId e) k
        then match Spec.lastExceeding (records_get (exerciseId e) records) (sets e) with
             | Some s => Some (recordOf catalog w (exerciseId e)
                                        (records_get (exerciseId e) records) s)
             | None => records_get k records
             end
        else records_get k records)
  /\ (forall (catalog : list Exercise) (w : Workout) (id : string)
             (r : PersonalRecord) (s : WorkoutSet),
      (exceeds (Some r) s = true <->
       maxWeight r < weight s \/ maxReps r < reps s
       \/ maxVolume r < reps s * weight s
       \/ nlt (pr_oneRepMax r) (inlineOneRepMax s) = true)
      /\ maxWeight (recordOf catalog w id (Some r) s) == Qmax (maxWeight r) (weight s)
      /\ maxReps (recordOf catalog w id (Some r) s) == Qmax (maxReps r) (reps s)
      /\ maxVolume (recordOf catalog w id (Some r) s)
         == Qmax (maxVolume r) (reps s * weight s)
      /\ achievedDate (recordOf catalog w id (Some r) s) = startTime w)
  /\ (forall (catalog : list Exercise) (storage : AsyncStorage) (w : Workout)
             (e : WorkoutExercise) (ss : list WorkoutSet) (s : WorkoutSet),
      WORKOUT_HISTORY storage = Some [w] ->
      exercises w = [e] ->
      sets e = ss ++ [s] ->
      getExercisePersonalRecord catalog storage (exerciseId e)
        = Some (recordOf catalog w (exerciseId e) None s)
      /\ maxWeight (recordOf catalog w (exerciseId e) None s) == Qmax 0 (weight s)
      /\ maxReps (recordOf catalog w (exerciseId e) None s) == Qmax 0 (reps s)
      /\ maxVolume (recordOf catalog w (exerciseId e) None s)
         == Qmax 0 (reps s * weight s))
  /\ (forall (catalog : list Exercise) (storage : AsyncStorage)
             (history : list Workout) (w : Workout) (e : WorkoutExercise),
      WORKOUT_HISTORY storage = Some history ->
      In w history -> In e (exercises w) -> sets e <> [] ->
      exists r, getExercisePersonalRecord catalog storage (exerciseId e) = Some r)
  /\ (forall (catalog : list Exercise) (storage : AsyncStorage)
             (history : list Workout) (id : string) (r : PersonalRecord),
      WORKOUT_HISTORY storage = Some history ->
      getExercisePersonalRecord catalog storage id = Some r ->
      pr_exerciseId r = id
      /\ exists w, In w history /\ achievedDate r = startTime w
                   /\ hasExercise id w = true)
  /\ (forall (catalog : list Exercise) (storage storage' : AsyncStorage)
             (history : list Workout) (w : Workout) (id : string) (r : PersonalRecord),
      WORKOUT_HISTORY storage = Some history ->
      WORKOUT_HISTORY storage' = Some (w :: history) ->
      (forall s, In s (Spec.allSets (w :: history)) -> ~ Spec.undefinedEstimate s) ->
      getExercisePersonalRecord catalog storage id = Some r ->
      exists r', getExercisePersonalRecord catalog storage' id = Some r'
                 /\ Spec.record_le r r').
Proof.
  split; [|split; [|split; [|split; [|split]]]].
  - intros catalog w records e k.
    rewrite ScanFacts.scanExercise_get, afterSets_last.
    destruct (String.eqb (exerciseId e) k); reflexivity.
  - intros catalog w id r s.
    split.
    + unfold exceeds, ngt. rewrite !orb_true_iff, !OrderFacts.Qgtb_true. tauto.
    + unfold recordOf, field_or0; cbn [maxWeight maxReps maxVolume achievedDate].
      rewrite <- !OrderFacts.Qmaxb_Qmax.
      repeat split; unfold Qmaxb;
        match goal with
        | |- context [Qle_bool (Q_or0 ?a) ?b] =>
            replace (Qle_bool (Q_or0 a) b) with (Qle_bool a b)
              by (apply Bool.eq_iff_eq_true; rewrite !Qle_bool_iff;
                  now rewrite OrderFacts.Q_or0_eq);
            destruct (Qle_bool a b); [reflexivity | apply OrderFacts.Q_or0_eq]
        end.
  - intros catalog storage w e ss s Hh He Hs.
    split.
    + rewrite (ScanInvariants.getExercisePersonalRecord_scan catalog storage [w] _ Hh).
      change (js_sort WorkoutService.byStartTimeDesc [w]) with [w].
      unfold scanHistory. cbn [fold_left]. unfold scanWorkout. rewrite He.
      cbn [fold_left].
      rewrite ScanFacts.scanExercise_get, afterSets_last, String.eqb_refl.
      change (records_get (exerciseId e) []) with (@None PersonalRecord).
      now rewrite Hs, lastExceeding_first.
    + unfold recordOf, field_or0; cbn [maxWeight maxReps maxVolume].
      rewrite <- !OrderFacts.Qmaxb_Qmax. repeat split; reflexivity.
  - intros catalog storage history w e Hh Hw He Hne.
    rewrite (ScanInvariants.getExercisePersonalRecord_scan catalog storage history _ Hh).
    destruct (records_get (exerciseId e) _) as [r|] eqn:Hr; [eauto|].
    exfalso. revert Hr.
    apply (ScanInvariants.scanHistory_covers catalog _ w e); auto.
    now apply ScanInvariants.in_sorted.
  - intros catalog storage history id r Hh Hr.
    split.
    + unfold getExercisePersonalRecord in Hr. apply find_some in Hr.
      now apply String.eqb_eq.
    + rewrite (ScanInvariants.getExercisePersonalRecord_scan catalog storage history _ Hh)
        in Hr.
      destruct (ScanInvariants.scanHistory_dated catalog _ id r Hr) as (w & Hw & Hd & He).
      exists w. split; [now apply ScanInvariants.in_sorted | auto].
  - intros catalog storage storage' history w id r Hh Hh' Hdef Hr.
    rewrite (ScanInvariants.getExercisePersonalRecord_scan catalog storage history _ Hh)
      in Hr.
    rewrite (ScanInvariants.getExercisePersonalRecord_scan catalog storage' _ _ Hh').
    change (js_sort WorkoutService.byStartTimeDesc (w :: history))
      with (insert_by WorkoutService.byStartTimeDesc w
              (js_sort WorkoutService.byStartTimeDesc history)).
    destruct (insert_by_split WorkoutService.byStartTimeDesc w
                (js_sort WorkoutService.byStartTimeDesc history))
      as (h1 & h2 & Hsplit & Hins).
    rewrite Hins. rewrite Hsplit in Hr.
    assert (Hall : forall x, In x (h1 ++ w :: h2) -> Spec.definedWorkout x).
    { intros x Hx. apply (ScanInvariants.defined_of_sets (w :: history)); [exact Hdef|].
      apply in_app_or in Hx. destruct Hx as [Hx|[Hx|Hx]]; [right | now left | right];
        apply ScanInvariants.in_sorted; rewrite Hsplit;
        apply in_or_app; auto. }
    pose proof (ScanFacts.scanHistory_insert catalog h1 h2 w Hall id) as Hle.
    rewrite Hr in Hle.
    destruct (records_get id (scanHistory catalog (h1 ++ w :: h2))) as [r'|];
      [eauto | contradiction].
Qed.

(** C5 at the failing input: one stored session whose bench-press entry has
    the sets 5 x 100 and then 5 x 60.  The record is that of the second set
    alone, with 60 as its best weight, although a set of weight 100 is
    stored.  A set that exceeds nothing leaves the record alone.  With a
    heavy session on 2025-01-20 and a lighter one with more repetitions on
    2025-01-05 the best weight is 100 under the date 2025-01-05, the day of
    the session without that weight: the record has one date.  And storing
    the heavy session besides the lighter one lowers no value. *)
Lemma personal_records_sample :
  (map weight (Spec.allSets [Sample.twoSets]) = [100; 60]
   /\ getExercisePersonalRecord Sample.catalog (Sample.stored [Sample.twoSets])
        "bench-press"
      = Some (recordOf Sample.catalog Sample.twoSets "bench-press" None
                       (Sample.mkSet 5 60))
   /\ maxWeight (recordOf Sample.catalog Sample.twoSets "bench-press" None
                          (Sample.mkSet 5 60)) == 60
   /\ map maxWeight (getPersonalRecords Sample.catalog (Sample.stored [Sample.twoSets]))
      = [60])
  /\ records_get "bench-press"
       (scanExercise Sample.catalog Sample.light
          [("bench-press", Sample.heavyRecord)] (Sample.bench [Sample.mkSet 5 60]))
     = Some Sample.heavyRecord
  /\ (map maxWeight
         (getPersonalRecords Sample.catalog (Sample.stored [Sample.heavy; Sample.light]))
       = [100]
      /\ map achievedDate
           (getPersonalRecords Sample.catalog
              (Sample.stored [Sample.heavy; Sample.light]))
         = [Sample.jan05]
      /\ map weight (Spec.allSets [Sample.light]) = [60]
      /\ startTime Sample.light = Sample.jan05
      /\ startTime Sample.heavy = Sample.jan20)
  /\ (exists r,
        getExercisePersonalRecord Sample.catalog
          (Sample.stored [Sample.heavy; Sample.light]) "bench-press" = Some r
        /\ exists w, In w [Sample.heavy; Sample.light]
                     /\ achievedDate r = startTime w
                     /\ hasExercise "bench-press" w = true)
  /\ (exists r r',
        getExercisePersonalRecord Sample.catalog (Sample.stored [Sample.light])
                                  "bench-press" = Some r
        /\ getExercisePersonalRecord Sample.catalog
             (Sample.stored [Sample.heavy; Sample.light]) "bench-press" = Some r'
        /\ Spec.record_le r r').
Proof.
  destruct personal_records_scan as (H1 & _ & H2 & H3 & H4 & H5).
  split; [|split; [|split; [repeat split; reflexivity|split]]].
  - destruct (H2 Sample.catalog (Sample.stored [Sample.twoSets]) Sample.twoSets
                 (Sample.bench [Sample.mkSet 5 100; Sample.mkSet 5 60])
                 [Sample.mkSet 5 100] (Sample.mkSet 5 60) eq_refl eq_refl eq_refl)
      as (Hr & Hw & _).
    split; [reflexivity|]. split; [exact Hr|].
    split; [rewrite Hw; reflexivity | reflexivity].
  - exact (H1 Sample.catalog Sample.light [("bench-press", Sample.heavyRecord)]
              (Sample.bench [Sample.mkSet 5 60]) "bench-press").
  - destruct (H3 Sample.catalog (Sample.stored [Sample.heavy; Sample.light])
                 [Sample.heavy; Sample.light] Sample.light
                 (Sample.bench [Sample.mkSet 10 60]) eq_refl)
      as (r & Hr).
    + right; left; reflexivity.
    + left; reflexivity.
    + discriminate.
    + exists r. split; [exact Hr|].
      apply (H4 Sample.catalog (Sample.stored [Sample.heavy; Sample.light])
                [Sample.heavy; Sample.light] "bench-press" r eq_refl Hr).
  - destruct (H3 Sample.catalog (Sample.stored [Sample.light]) [Sample.light]
                 Sample.light (Sample.bench [Sample.mkSet 10 60]) eq_refl)
      as (r & Hr).
    + left; reflexivity.
    + left; reflexivity.
    + discriminate.
    + destruct (H5 Sample.catalog (Sample.stored [Sample.light])
                   (Sample.stored [Sample.heavy; Sample.light])
                   [Sample.light] Sample.heavy "bench-press" r eq_refl eq_refl)
        as (r' & Hr' & Hle).
      * intros s Hs (Hreps & _). simpl in Hs.
        destruct Hs as [<-|[<-|[]]]; discriminate Hreps.
      * exact Hr.
      * exists r, r'. auto.
Defined.

(** ** The remaining commands of the store, run *)

Module CommandFacts.

Import WorkoutStore.

Ltac run_command :=
  unfold updateExerciseNotes, removeExerciseFromWorkout, removeSetFromExercise,
    loadWorkoutHistory, deleteWorkout, duplicateWorkout, abandonWorkout,
    try_catch, try_catch_finally,
    updateExerciseNotes_try, removeExerciseFromWorkout_try, removeSetFromExercise_try,
    loadWorkoutHistory_try, deleteWorkout_try, duplicateWorkout_try, abandonWorkout_try,
    bind, get, set_, ret, throw, return_, getItems,
    setItem_current, setItem_history, removeItem_current.

Lemma removeExerciseFromWorkout_run (env : Env) (id : string) (w : World) (c : Workout) :
  currentWorkout (mem w) = Some c ->
  removeExerciseFromWorkout env id w
  = Spec.rewritten env "Failed to remove exercise from workout"
      (with_exercises c
         (filter (fun e => negb (String.eqb (exerciseId e) id)) (exercises c))) w.
Proof.
  intros Hc. run_command. rewrite Hc. unfold Spec.rewritten. simpl.
  destruct (setItemOk env); reflexivity.
Qed.

Lemma updateExerciseNotes_run (env : Env) (id text : string) (w : World)
  (c : Workout) (i : nat) (e : WorkoutExercise) :
  currentWorkout (mem w) = Some c ->
  findIndex (fun e => String.eqb (exerciseId e) id) (exercises c) = Some i ->
  nth_error (exercises c) i = Some e ->
  updateExerciseNotes env id text w
  = Spec.rewritten env "Failed to update exercise notes"
      (with_exercises c (update_at i (with_notes e text) (exercises c))) w.
Proof.
  intros Hc Hi Hn. run_command. rewrite Hc, Hi, Hn. unfold Spec.rewritten. simpl.
  destruct (setItemOk env); reflexivity.
Qed.

Lemma removeSetFromExercise_run (env : Env) (id : string) (setIndex : Z) (w : World)
  (c : Workout) (i : nat) (e : WorkoutExercise) :
  currentWorkout (mem w) = Some c ->
  findIndex (fun e => String.eqb (exerciseId e) id) (exercises c) = Some i ->
  nth_error (exercises c) i = Some e ->
  removeSetFromExercise env id setIndex w
  = Spec.rewritten env "Failed to remove set from exercise"
      (with_exercises c
         (update_at i (with_sets e (withoutIndex setIndex (sets e))) (exercises c))) w.
Proof.
  intros Hc Hi Hn. run_command. rewrite Hc, Hi, Hn. unfold Spec.rewritten. simpl.
  destruct (setItemOk env); reflexivity.
Qed.

(** Without an active session, or without the exercise, the three commands
    leave the store as it is: they neither write nor report an error. *)
Lemma no_session_no_change (env : Env) (id text : string) (setIndex : Z) (w : World) :
  currentWorkout (mem w) = None ->
  updateExerciseNotes env id text w = w
  /\ removeExerciseFromWorkout env id w = w
  /\ removeSetFromExercise env id setIndex w = w.
Proof.
  intros Hc. run_command. rewrite Hc. auto.
Qed.

Lemma no_entry_no_change (env : Env) (id text : string) (setIndex : Z) (w : World)
  (c : Workout) :
  currentWorkout (mem w) = Some c ->
  Spec.entry id c = None ->
  updateExerciseNotes env id text w = w
  /\ removeSetFromExercise env id setIndex w = w.
Proof.
  intros Hc He. apply find_none_findIndex in He.
  run_command. rewrite Hc, He. auto.
Qed.

Lemma deleteWorkout_run (env : Env) (workoutId : string) (w : World) :
  deleteWorkout env workoutId w
  = let kept := filter (fun x => negb (String.eqb (w_id x) workoutId))
                       (workoutHistory (mem w)) in
    if setItemOk env
    then {| mem := with_history kept (mem w);
            disk := {| CURRENT_WORKOUT := CURRENT_WORKOUT (disk w);
                       WORKOUT_HISTORY := Some kept |} |}
    else {| mem := with_error (Some "Failed to delete workout")
                              (with_history kept (mem w));
            disk := disk w |}.
Proof. run_command. simpl. destruct (setItemOk env); reflexivity. Qed.

Lemma duplicateWorkout_run (env : Env) (workoutId : string) (w : World)
  (original : Workout) :
  getWorkoutById (mem w) workoutId = Some original ->
  duplicateWorkout env workoutId w
  = Spec.rewritten env "Failed to duplicate workout" (duplicateOf env original) w.
Proof.
  unfold getWorkoutById. intros Hf. run_command. rewrite Hf. unfold Spec.rewritten. simpl.
  destruct (setItemOk env); reflexivity.
Qed.

Lemma duplicateWorkout_missing (env : Env) (workoutId : string) (w : World) :
  getWorkoutById (mem w) workoutId = None ->
  duplicateWorkout env workoutId w
  = {| mem := with_error (Some "Workout not found") (mem w); disk := disk w |}.
Proof.
  unfold getWorkoutById. intros Hf. run_command. rewrite Hf. reflexivity.
Qed.

Lemma loadWorkoutHistory_run (ok : bool) (w : World) :
  loadWorkoutHistory ok w
  = if ok
    then {| mem := {| currentWorkout := CURRENT_WORKOUT (disk w);
                      workoutHistory := match WORKOUT_HISTORY (disk w) with
                                        | Some h => h
                                        | None => []
                                        end;
                      isLoading := false; error := None |};
            disk := disk w |}
    else {| mem := {| currentWorkout := currentWorkout (mem w);
                      workoutHistory := workoutHistory (mem w);
                      isLoading := false;
                      error := Some "Failed to load workout data" |};
            disk := disk w |}.
Proof. run_command. destruct ok; reflexivity. Qed.

Lemma abandonWorkout_run (env : Env) (w : World) :
  abandonWorkout env w
  = if removeItemOk env
    then {| mem := with_current None (mem w);
            disk := {| CURRENT_WORKOUT := None;
                       WORKOUT_HISTORY := WORKOUT_HISTORY (disk w) |} |}
    else {| mem := with_error (Some "Failed to abandon workout")
                              (with_current None (mem w));
            disk := disk w |}.
Proof. run_command. simpl. destruct (removeItemOk env); reflexivity. Qed.

End CommandFacts.

(** ** More facts about arrays *)

Section MoreArrayFacts.

Context {A : Type}.

Lemma map_update_at {B : Type} (f : A -> B) (l : list A) (i : nat) (x y : A) :
  nth_error l i = Some x -> f y = f x -> map f (update_at i y l) = map f l.
Proof.
  revert i. induction l as [|z l IH]; intros i Hn Hf;
    [destruct i; discriminate|].
  destruct i as [|i]; simpl in *.
  - injection Hn as ->. now rewrite Hf.
  - now rewrite (IH i Hn Hf).
Qed.

Lemma find_update_at_other (p : A -> bool) (l : list A) (i : nat) (x y : A) :
  nth_error l i = Some x -> p x = false -> p y = false ->
  find p (update_at i y l) = find p l.
Proof.
  revert i. induction l as [|z l IH]; intros i Hn Hx Hy;
    [destruct i; discriminate|].
  destruct i as [|i]; simpl in *.
  - injection Hn as ->. now rewrite Hx, Hy.
  - now rewrite (IH i Hn Hx Hy).
Qed.

Lemma filter_index_all (keep : nat -> bool) (l : list A) :
  forall k, (forall j, (k <= j)%nat -> keep j = true) -> filter_index keep k l = l.
Proof.
  induction l as [|x l IH]; intros k Hk; simpl; [reflexivity|].
  rewrite (Hk k (Nat.le_refl k)). f_equal. apply IH. intros j Hj. apply Hk. lia.
Qed.

Lemma filter_index_one (l : list A) :
  forall (k n : nat),
    (n < List.length l)%nat ->
    filter_index (fun j => negb (Z.of_nat j =? Z.of_nat (k + n))%Z) k l
    = firstn n l ++ skipn (S n) l.
Proof.
  induction l as [|x l IH]; intros k n Hn; simpl in Hn; [lia|].
  destruct n as [|n]; simpl.
  - rewrite Nat.add_0_r, Z.eqb_refl. simpl.
    apply filter_index_all. intros j Hj.
    destruct (Z.eqb_spec (Z.of_nat j) (Z.of_nat k)); [lia|reflexivity].
  - destruct (Z.eqb_spec (Z.of_nat k) (Z.of_nat (k + S n))); [lia|]. simpl.
    f_equal. replace (k + S n)%nat with (S k + n)%nat by lia.
    apply IH. lia.
Qed.

(** Removing an index inside the array removes that one element; an index
    outside leaves the array as it is. *)
Lemma withoutIndex_inside (l : list A) (n : nat) :
  (n < List.length l)%nat ->
  withoutIndex (Z.of_nat n) l = firstn n l ++ skipn (S n) l.
Proof. intros H. apply (filter_index_one l O n H). Qed.

Lemma withoutIndex_outside (l : list A) (setIndex : Z) :
  (setIndex < 0 \/ Z.of_nat (List.length l) <= setIndex)%Z ->
  withoutIndex setIndex l = l.
Proof.
  intros H. unfold withoutIndex.
  assert (G : forall (l' : list A) (k : nat),
             (setIndex < Z.of_nat k
              \/ Z.of_nat k + Z.of_nat (List.length l') <= setIndex)%Z ->
             filter_index (fun j => negb (Z.of_nat j =? setIndex)%Z) k l' = l').
  { induction l' as [|x l' IH]; intros k Hk; simpl; [reflexivity|].
    simpl in Hk.
    destruct (Z.eqb_spec (Z.of_nat k) setIndex); [lia|]. simpl.
    f_equal. apply IH. lia. }
  apply G. lia.
Qed.

Lemma withoutIndex_last (l : list A) (x : A) :
  withoutIndex (Z.of_nat (List.length l)) (l ++ [x]) = l.
Proof.
  rewrite withoutIndex_inside by (rewrite length_app; simpl; lia).
  rewrite skipn_all2 by (rewrite length_app; simpl; lia).
  rewrite firstn_app, Nat.sub_diag, firstn_all. simpl.
  now rewrite !app_nil_r.
Qed.

End MoreArrayFacts.

(** ** Entries of the active session *)

Module EntryFacts.

Import WorkoutStore.

Lemma entry_appended (id : string) (c : Workout) :
  Spec.entry id c = None ->
  Spec.entry id (with_exercises c (exercises c ++ [newExercise id]))
  = Some (newExercise id).
Proof.
  unfold Spec.entry. simpl. intros H.
  induction (exercises c) as [|e es IH]; simpl in *.
  - now rewrite String.eqb_refl.
  - destruct (String.eqb (exerciseId e) id); [discriminate|]. now apply IH.
Qed.

(** The current session after [rewritten], whatever the write does. *)
Lemma rewritten_current (env : Env) (failure : string) (updated : Workout) (w : World) :
  currentWorkout (mem (Spec.rewritten env failure updated w)) = Some updated
  /\ workoutHistory (mem (Spec.rewritten env failure updated w))
     = workoutHistory (mem w)
  /\ error (mem (Spec.rewritten env failure updated w))
     = (if setItemOk env then error (mem w) else Some failure)
  /\ disk (Spec.rewritten env failure updated w)
     = (if setItemOk env
        then {| CURRENT_WORKOUT := Some updated;
                WORKOUT_HISTORY := WORKOUT_HISTORY (disk w) |}
        else disk w).
Proof. unfold Spec.rewritten. destruct (setItemOk env); simpl; auto. Qed.

Lemma entry_removed (id : string) (l : list WorkoutExercise) :
  find (fun e => String.eqb (exerciseId e) id)
       (filter (fun e => negb (String.eqb (exerciseId e) id)) l) = None.
Proof.
  induction l as [|e l IH]; simpl; [reflexivity|].
  destruct (String.eqb (exerciseId e) id) eqn:E; simpl; [exact IH|].
  now rewrite E.
Qed.

Lemma entry_kept (id id' : string) (l : list WorkoutExercise) :
  id' <> id ->
  find (fun e => String.eqb (exerciseId e) id')
       (filter (fun e => negb (String.eqb (exerciseId e) id)) l)
  = find (fun e => String.eqb (exerciseId e) id') l.
Proof.
  intros Hne. induction l as [|e l IH]; simpl; [reflexivity|].
  destruct (String.eqb_spec (exerciseId e) id) as [He|He]; simpl.
  - rewrite IH. destruct (String.eqb_spec (exerciseId e) id'); [congruence|reflexivity].
  - now rewrite IH.
Qed.

Lemma filter_absent (id : string) (l : list WorkoutExercise) :
  find (fun e => String.eqb (exerciseId e) id) l = None ->
  filter (fun e => negb (String.eqb (exerciseId e) id)) l = l.
Proof.
  induction l as [|e l IH]; simpl; [reflexivity|].
  destruct (String.eqb (exerciseId e) id); [discriminate|]. simpl.
  intros H. now rewrite IH.
Qed.

(** The entries of a session after one of them, at index [i], is replaced
    by an entry for the same exercise. *)
Lemma entry_updated (id id' : string) (c : Workout) (i : nat) (e e' : WorkoutExercise) :
  findIndex (fun x => String.eqb (exerciseId x) id) (exercises c) = Some i ->
  nth_error (exercises c) i = Some e ->
  exerciseId e' = exerciseId e ->
  Spec.entry id' (with_exercises c (update_at i e' (exercises c)))
  = if String.eqb id id' then Some e' else Spec.entry id' c.
Proof.
  intros Hi Hn He. unfold Spec.entry. simpl.
  destruct (findIndex_nth_error _ _ _ Hi) as (x & Hx & Hp & _).
  assert (x = e) by congruence. subst x.
  apply String.eqb_eq in Hp.
  destruct (String.eqb_spec id id') as [<-|Hne].
  - apply find_update_at; [exact Hi|]. rewrite He, Hp. apply String.eqb_refl.
  - apply (find_update_at_other _ _ i e e' Hn).
    + rewrite Hp. now apply String.eqb_neq.
    + rewrite He, Hp. now apply String.eqb_neq.
Qed.

End EntryFacts.

(** The commands on entries, as their callers see them. *)

(** X1: adding an exercise a second time changes neither the session nor
    storage, whatever the writes do, and reports that the exercise is
    already there. *)
Theorem addExerciseToWorkout_again :
  forall (env env' : Env) (id : string) (w : World) (c : Workout),
    currentWorkout (mem w) = Some c ->
    currentWorkout (mem (addExerciseToWorkout env' id (addExerciseToWorkout env id w)))
      = currentWorkout (mem (addExerciseToWorkout env id w))
    /\ disk (addExerciseToWorkout env' id (addExerciseToWorkout env id w))
       = disk (addExerciseToWorkout env id w)
    /\ error (mem (addExerciseToWorkout env' id (addExerciseToWorkout env id w)))
       = Some "Exercise already added to workout".
Proof.
  intros env env' id w c Hc.
  set (w1 := addExerciseToWorkout env id w).
  assert (H1 : exists c1 e1, currentWorkout (mem w1) = Some c1
                             /\ Spec.entry id c1 = Some e1).
  { subst w1. destruct (Spec.entry id c) as [e|] eqn:He.
    - rewrite (StoreFacts.addExerciseToWorkout_duplicate env id w c e Hc He). eauto.
    - rewrite (StoreFacts.addExerciseToWorkout_run env id w c Hc He).
      exists (with_exercises c (exercises c ++ [newExercise id])), (newExercise id).
      split; [destruct (setItemOk env); reflexivity|].
      now apply EntryFacts.entry_appended. }
  destruct H1 as (c1 & e1 & Hc1 & He1).
  rewrite (StoreFacts.addExerciseToWorkout_duplicate env' id w1 c1 e1 Hc1 He1).
  auto.
Qed.

Lemma addExerciseToWorkout_again_sample :
  error (mem (addExerciseToWorkout Sample.env1 "bench-press" Sample.started))
  = Some "Exercise already added to workout"
  /\ currentWorkout (mem (addExerciseToWorkout Sample.env1 "squat"
                            (addExerciseToWorkout Sample.env1 "squat" Sample.started)))
     = currentWorkout (mem (addExerciseToWorkout Sample.env1 "squat" Sample.started)).
Proof.
  split.
  - exact (proj2 (proj2 (addExerciseToWorkout_again Sample.env0 Sample.env1
                           "bench-press"
                           (startWorkout Sample.env0 (Some "Push Day") Sample.world0)
                           _ eq_refl))).
  - exact (proj1 (addExerciseToWorkout_again Sample.env1 Sample.env1 "squat"
                    Sample.started Sample.pushDay eq_refl)).
Defined.

(** X2: with a session active, removing an exercise leaves no entry for it
    and keeps every other entry; when the session had no such entry its list
    of exercises is unchanged, with no error for the missing target. *)
Theorem removeExerciseFromWorkout_removes :
  forall (env : Env) (id : string) (w : World) (c : Workout),
    currentWorkout (mem w) = Some c ->
    exists c',
      currentWorkout (mem (removeExerciseFromWorkout env id w)) = Some c'
      /\ Spec.entry id c' = None
      /\ (forall id', id' <> id -> Spec.entry id' c' = Spec.entry id' c)
      /\ (Spec.entry id c = None -> exercises c' = exercises c)
      /\ workoutHistory (mem (removeExerciseFromWorkout env id w))
         = workoutHistory (mem w)
      /\ error (mem (removeExerciseFromWorkout env id w))
         = if setItemOk env then error (mem w)
           else Some "Failed to remove exercise from workout".
Proof.
  intros env id w c Hc.
  rewrite (CommandFacts.removeExerciseFromWorkout_run env id w c Hc).
  destruct (EntryFacts.rewritten_current env "Failed to remove exercise from workout"
              (with_exercises c
                 (filter (fun e => negb (String.eqb (exerciseId e) id)) (exercises c)))
              w) as (H1 & H2 & H3 & _).
  eexists. split; [exact H1|].
  split; [apply EntryFacts.entry_removed|].
  split; [intros id' Hne; now apply EntryFacts.entry_kept|].
  split; [intros Hnone; now apply EntryFacts.filter_absent|].
  split; assumption.
Qed.

Lemma removeExerciseFromWorkout_sample :
  exists c',
    currentWorkout (mem (removeExerciseFromWorkout Sample.env1 "bench-press"
                           Sample.started)) = Some c'
    /\ exercises c' = [].
Proof.
  destruct (removeExerciseFromWorkout_removes Sample.env1 "bench-press" Sample.started
              Sample.pushDay eq_refl) as (c' & Hc' & _).
  exists c'. split; [exact Hc'|].
  vm_compute in Hc'. injection Hc' as <-. reflexivity.
Defined.

(** X3: removing the set at an index inside an exercise's set list removes
    that one set and keeps the others in order; an index outside the list
    (negative, or at or past its length) leaves the list as it is, without
    an error; the sets of the other exercises are untouched. *)
Theorem removeSetFromExercise_removes :
  forall (env : Env) (id : string) (setIndex : Z) (w : World)
         (c : Workout) (e : WorkoutExercise),
    currentWorkout (mem w) = Some c ->
    Spec.entry id c = Some e ->
    Spec.setsOf id (currentWorkout (mem (removeSetFromExercise env id setIndex w)))
      = Some (withoutIndex setIndex (sets e))
    /\ (forall n : nat,
          setIndex = Z.of_nat n -> (n < List.length (sets e))%nat ->
          withoutIndex setIndex (sets e) = firstn n (sets e) ++ skipn (S n) (sets e))
    /\ ((setIndex < 0 \/ Z.of_nat (List.length (sets e)) <= setIndex)%Z ->
        withoutIndex setIndex (sets e) = sets e)
    /\ (forall id', id' <> id ->
          Spec.setsOf id' (currentWorkout (mem (removeSetFromExercise env id setIndex w)))
          = Spec.setsOf id' (Some c))
    /\ error (mem (removeSetFromExercise env id setIndex w))
       = if setItemOk env then error (mem w)
         else Some "Failed to remove set from exercise".
Proof.
  intros env id setIndex w c e Hc He.
  destruct (find_findIndex _ _ _ He) as (i & Hi & Hn).
  rewrite (CommandFacts.removeSetFromExercise_run env id setIndex w c i e Hc Hi Hn).
  destruct (EntryFacts.rewritten_current env "Failed to remove set from exercise"
              (with_exercises c
                 (update_at i (with_sets e (withoutIndex setIndex (sets e)))
                            (exercises c))) w) as (H1 & _ & H3 & _).
  rewrite H1, H3. unfold Spec.setsOf.
  split; [|split; [|split; [|split]]].
  - rewrite (EntryFacts.entry_updated id id c i e
               (with_sets e (withoutIndex setIndex (sets e))) Hi Hn eq_refl).
    now rewrite String.eqb_refl.
  - intros n -> Hlt. now apply withoutIndex_inside.
  - apply withoutIndex_outside.
  - intros id' Hne.
    rewrite (EntryFacts.entry_updated id id' c i e
               (with_sets e (withoutIndex setIndex (sets e))) Hi Hn eq_refl).
    destruct (String.eqb_spec id id'); [congruence|reflexivity].
  - reflexivity.
Qed.

(** X4: a set just added is the last of its exercise, and removing the set
    at that index gives back the set list as it was before the addition. *)
Theorem addSet_then_removeSet :
  forall (env env' : Env) (id : string) (input : SetInput) (w : World)
         (c : Workout) (e : WorkoutExercise),
    currentWorkout (mem w) = Some c ->
    Spec.entry id c = Some e ->
    Spec.setsOf id
      (currentWorkout
         (mem (removeSetFromExercise env' id (Z.of_nat (List.length (sets e)))
                 (addSetToExercise env id input w))))
    = Some (sets e).
Proof.
  intros env env' id input w c e Hc He.
  pose proof (StoreFacts.addSetToExercise_sets env id input w c e Hc He) as Hadd.
  unfold Spec.setsOf in Hadd.
  destruct (currentWorkout (mem (addSetToExercise env id input w))) as [c1|] eqn:Hc1;
    [|discriminate].
  destruct (Spec.entry id c1) as [e1|] eqn:He1; [|discriminate].
  injection Hadd as Hsets.
  destruct (find_findIndex _ _ _ He1) as (i & Hi & Hn).
  rewrite (CommandFacts.removeSetFromExercise_run env' id _ _ c1 i e1 Hc1 Hi Hn).
  destruct (EntryFacts.rewritten_current env' "Failed to remove set from exercise"
              (with_exercises c1
                 (update_at i
                    (with_sets e1
                       (withoutIndex (Z.of_nat (List.length (sets e))) (sets e1)))
                    (exercises c1)))
              (addSetToExercise env id input w)) as (H1 & _).
  rewrite H1. unfold Spec.setsOf.
  rewrite (EntryFacts.entry_updated id id c1 i e1
             (with_sets e1 (withoutIndex (Z.of_nat (List.length (sets e))) (sets e1)))
             Hi Hn eq_refl).
  rewrite String.eqb_refl. simpl. rewrite Hsets. f_equal.
  apply withoutIndex_last.
Qed.

Lemma removeSetFromExercise_sample :
  Spec.setsOf "bench-press"
    (currentWorkout
       (mem (removeSetFromExercise Sample.env1 "bench-press" 5
               (addSetToExercise Sample.env1 "bench-press" Sample.tenByEighty
                                 Sample.started))))
  = Some [newSet Sample.tenByEighty].
Proof.
  destruct (removeSetFromExercise_removes Sample.env1 "bench-press" 5
              (addSetToExercise Sample.env1 "bench-press" Sample.tenByEighty
                                Sample.started)
              _ _ eq_refl eq_refl) as (H & _ & Hout & _).
  rewrite H, Hout; [reflexivity|]. right. simpl. lia.
Defined.

Lemma addSet_then_removeSet_sample :
  Spec.setsOf "bench-press"
    (currentWorkout
       (mem (removeSetFromExercise Sample.env1 "bench-press" 0
               (addSetToExercise Sample.env1 "bench-press" Sample.tenByEighty
                                 Sample.started))))
  = Some [].
Proof.
  exact (addSet_then_removeSet Sample.env1 Sample.env1 "bench-press"
           Sample.tenByEighty Sample.started Sample.pushDay
           (newExercise "bench-press") eq_refl eq_refl).
Defined.



(** ** The history in memory *)

Module HistoryListFacts.

Import WorkoutStore.

Lemma find_filtered_out (workoutId : string) (l : list Workout) :
  find (fun w => String.eqb (w_id w) workoutId)
       (filter (fun w => negb (String.eqb (w_id w) workoutId)) l) = None.
Proof.
  induction l as [|x l IH]; simpl; [reflexivity|].
  destruct (String.eqb (w_id x) workoutId) eqn:E; simpl; [exact IH|].
  now rewrite E.
Qed.

Lemma find_filtered_other (workoutId other : string) (l : list Workout) :
  other <> workoutId ->
  find (fun w => String.eqb (w_id w) other)
       (filter (fun w => negb (String.eqb (w_id w) workoutId)) l)
  = find (fun w => String.eqb (w_id w) other) l.
Proof.
  intros Hne. induction l as [|x l IH]; simpl; [reflexivity|].
  destruct (String.eqb_spec (w_id x) workoutId) as [He|He]; simpl.
  - rewrite IH. destruct (String.eqb_spec (w_id x) other); [congruence|reflexivity].
  - now rewrite IH.
Qed.

End HistoryListFacts.

(** X6: after [deleteWorkout] no session of the history in memory has the
    deleted id, every other id is looked up as before, the sessions kept are
    in their old order, the active session is untouched, and when the write
    succeeds storage holds the history in memory.  Deleting an id that is not
    in the history changes nothing in memory and reports no error. *)
Theorem deleteWorkout_removes :
  forall (env : Env) (workoutId : string) (w : World),
    getWorkoutById (mem (deleteWorkout env workoutId w)) workoutId = None
    /\ (forall other, other <> workoutId ->
          getWorkoutById (mem (deleteWorkout env workoutId w)) other
          = getWorkoutById (mem w) other)
    /\ workoutHistory (mem (deleteWorkout env workoutId w))
       = filter (fun x => negb (String.eqb (w_id x) workoutId)) (workoutHistory (mem w))
    /\ currentWorkout (mem (deleteWorkout env workoutId w)) = currentWorkout (mem w)
    /\ (setItemOk env = true ->
        WORKOUT_HISTORY (disk (deleteWorkout env workoutId w))
          = Some (workoutHistory (mem (deleteWorkout env workoutId w)))
        /\ error (mem (deleteWorkout env workoutId w)) = error (mem w))
    /\ (getWorkoutById (mem w) workoutId = None ->
        workoutHistory (mem (deleteWorkout env workoutId w)) = workoutHistory (mem w)).
Proof.
  intros env workoutId w. rewrite CommandFacts.deleteWorkout_run. cbv zeta.
  unfold getWorkoutById.
  destruct (setItemOk env); simpl;
    (split; [apply HistoryListFacts.find_filtered_out|]);
    (split; [intros other Hne; now apply HistoryListFacts.find_filtered_other|]);
    (split; [reflexivity|]); (split; [reflexivity|]);
    (split; [intros H; try discriminate; auto|]);
    intros Hnone; clear - Hnone;
    induction (workoutHistory (mem w)) as [|x l IH]; simpl in *; try reflexivity;
    (destruct (String.eqb (w_id x) workoutId); [discriminate|]); simpl;
    now rewrite IH.
Qed.

Lemma deleteWorkout_sample :
  workoutHistory (mem (deleteWorkout Sample.env1 "workout_1000_k3x9"
                         Sample.completedAtOnce)) = []
  /\ WORKOUT_HISTORY (disk (deleteWorkout Sample.env1 "workout_1000_k3x9"
                              Sample.completedAtOnce)) = Some [].
Proof.
  destruct (deleteWorkout_removes Sample.env1 "workout_1000_k3x9" Sample.completedAtOnce)
    as (_ & _ & Hh & _ & Hok & _).
  split; [rewrite Hh; reflexivity|].
  rewrite (proj1 (Hok eq_refl)), Hh. reflexivity.
Defined.

(** X7: [duplicateWorkout] of a session of the history makes a new active
    session with the same exercises in the same order, none of them with a
    set, no end time, the clock as start time and " (Copy)" after the name;
    it replaces whatever session was active and leaves the history alone.
    For an id that is not in the history only the error field changes
    ("Workout not found"). *)
Theorem duplicateWorkout_copies :
  (forall (env : Env) (workoutId : string) (w : World) (original : Workout),
      getWorkoutById (mem w) workoutId = Some original ->
      exists d,
        currentWorkout (mem (duplicateWorkout env workoutId w)) = Some d
        /\ map exerciseId (exercises d) = map exerciseId (exercises original)
        /\ (forall e, In e (exercises d) -> sets e = [])
        /\ endTime d = None /\ startTime d = now env
        /\ w_name d = (w_name original ++ " (Copy)")%string
        /\ workoutHistory (mem (duplicateWorkout env workoutId w))
           = workoutHistory (mem w))
  /\ (forall (env : Env) (workoutId : string) (w : World),
      getWorkoutById (mem w) workoutId = None ->
      duplicateWorkout env workoutId w
      = {| mem := with_error (Some "Workout not found") (mem w); disk := disk w |}).
Proof.
  split.
  - intros env workoutId w original Hf.
    rewrite (CommandFacts.duplicateWorkout_run env workoutId w original Hf).
    destruct (EntryFacts.rewritten_current env "Failed to duplicate workout"
                (duplicateOf env original) w) as (H1 & H2 & _).
    exists (duplicateOf env original). split; [exact H1|].
    split; [simpl; rewrite map_map; reflexivity|].
    split.
    + simpl. intros e He. apply in_map_iff in He. destruct He as (x & <- & _).
      reflexivity.
    + auto.
  - intros env workoutId w Hf. now apply CommandFacts.duplicateWorkout_missing.
Qed.

Lemma duplicateWorkout_sample :
  (exists d,
     currentWorkout (mem (duplicateWorkout Sample.env1 "workout_1000_k3x9"
                            Sample.completedAtOnce)) = Some d
     /\ map exerciseId (exercises d) = ["bench-press"])
  /\ error (mem (duplicateWorkout Sample.env1 "no-such-id" Sample.completedAtOnce))
     = Some "Workout not found".
Proof.
  destruct duplicateWorkout_copies as (H1 & H2).
  split.
  - destruct (H1 Sample.env1 "workout_1000_k3x9" Sample.completedAtOnce
                 (with_endTime Sample.pushDay (Some 1000%Z)) eq_refl)
      as (d & Hd & Hids & _).
    exists d. split; [exact Hd|]. rewrite Hids. reflexivity.
  - rewrite (H2 Sample.env1 "no-such-id" Sample.completedAtOnce eq_refl). reflexivity.
Defined.

(** Completing after a reload: the reload takes the active session and the
    history from storage. *)
Lemma reload_none (env : Env) (w : World) :
  CURRENT_WORKOUT (disk w) = None ->
  currentWorkout (mem (loadWorkoutHistory true w)) = None
  /\ workoutHistory (mem (completeWorkout env (loadWorkoutHistory true w)))
     = match WORKOUT_HISTORY (disk w) with Some h => h | None => [] end.
Proof.
  intros Hd.
  assert (Hnone : currentWorkout (mem (loadWorkoutHistory true w)) = None)
    by (rewrite CommandFacts.loadWorkoutHistory_run; exact Hd).
  split; [exact Hnone|].
  rewrite (proj2 (StoreFacts.completeWorkout_none env _ Hnone)).
  now rewrite CommandFacts.loadWorkoutHistory_run.
Qed.

Lemma reload_some (env : Env) (w : World) (c : Workout) :
  CURRENT_WORKOUT (disk w) = Some c ->
  exercises c <> [] ->
  currentWorkout (mem (loadWorkoutHistory true w)) = Some c
  /\ workoutHistory (mem (completeWorkout env (loadWorkoutHistory true w)))
     = with_endTime c (Some (now env))
         :: match WORKOUT_HISTORY (disk w) with Some h => h | None => [] end.
Proof.
  intros Hd Hne.
  assert (Hsome : currentWorkout (mem (loadWorkoutHistory true w)) = Some c)
    by (rewrite CommandFacts.loadWorkoutHistory_run; exact Hd).
  split; [exact Hsome|].
  rewrite (StoreFacts.completeWorkout_run env _ c Hsome Hne).
  now rewrite CommandFacts.loadWorkoutHistory_run.
Qed.

(** X8: [abandonWorkout] clears the active slot in memory and touches the
    history neither in memory nor in storage, and completing right after it
    adds nothing.  In storage the session is removed only if the removal is
    accepted: a reload then finds no active session, and completing adds
    nothing to the history.  When the removal is rejected the command
    reports its failure and storage is as before: a reload makes the
    abandoned session active again, and completing it puts it in the
    history. *)
Theorem abandonWorkout_discards :
  forall (env env' : Env) (w : World),
    currentWorkout (mem (abandonWorkout env w)) = None
    /\ workoutHistory (mem (abandonWorkout env w)) = workoutHistory (mem w)
    /\ disk (abandonWorkout env w)
       = (if removeItemOk env
          then {| CURRENT_WORKOUT := None; WORKOUT_HISTORY := WORKOUT_HISTORY (disk w) |}
          else disk w)
    /\ error (mem (abandonWorkout env w))
       = (if removeItemOk env then error (mem w) else Some "Failed to abandon workout")
    /\ workoutHistory (mem (completeWorkout env' (abandonWorkout env w)))
       = workoutHistory (mem w)
    /\ disk (completeWorkout env' (abandonWorkout env w)) = disk (abandonWorkout env w)
    /\ (removeItemOk env = true ->
        currentWorkout (mem (loadWorkoutHistory true (abandonWorkout env w))) = None
        /\ workoutHistory
             (mem (completeWorkout env' (loadWorkoutHistory true (abandonWorkout env w))))
           = match WORKOUT_HISTORY (disk w) with Some h => h | None => [] end)
    /\ (removeItemOk env = false ->
        forall c : Workout,
          CURRENT_WORKOUT (disk w) = Some c ->
          exercises c <> [] ->
          currentWorkout (mem (loadWorkoutHistory true (abandonWorkout env w))) = Some c
          /\ workoutHistory
               (mem (completeWorkout env' (loadWorkoutHistory true (abandonWorkout env w))))
             = with_endTime c (Some (now env'))
                 :: match WORKOUT_HISTORY (disk w) with Some h => h | None => [] end).
Proof.
  intros env env' w.
  assert (Hnone : currentWorkout (mem (abandonWorkout env w)) = None)
    by (rewrite CommandFacts.abandonWorkout_run; destruct (removeItemOk env); reflexivity).
  assert (Hd : disk (abandonWorkout env w)
               = if removeItemOk env
                 then {| CURRENT_WORKOUT := None;
                         WORKOUT_HISTORY := WORKOUT_HISTORY (disk w) |}
                 else disk w)
    by (rewrite CommandFacts.abandonWorkout_run; destruct (removeItemOk env); reflexivity).
  split; [exact Hnone|].
  split; [rewrite CommandFacts.abandonWorkout_run; now destruct (removeItemOk env)|].
  split; [exact Hd|].
  split; [rewrite CommandFacts.abandonWorkout_run; now destruct (removeItemOk env)|].
  rewrite (proj2 (StoreFacts.completeWorkout_none env' _ Hnone)).
  cbn [mem disk workoutHistory].
  split; [rewrite CommandFacts.abandonWorkout_run; now destruct (removeItemOk env)|].
  split; [reflexivity|].
  split.
  - intros Hrem. rewrite Hrem in Hd.
    destruct (reload_none env' (abandonWorkout env w)) as (H1 & H2);
      [now rewrite Hd|].
    split; [exact H1|]. rewrite H2. now rewrite Hd.
  - intros Hrem c Hc Hne. rewrite Hrem in Hd.
    destruct (reload_some env' (abandonWorkout env w) c) as (H1 & H2);
      [now rewrite Hd | exact Hne |].
    split; [exact H1|]. rewrite H2. now rewrite Hd.
Qed.

(** The session "Push Day" abandoned with the removal accepted, and with the
    removal rejected, then reloaded and completed at 3000. *)
Lemma abandonWorkout_sample :
  workoutHistory
    (mem (completeWorkout Sample.env3
            (loadWorkoutHistory true (abandonWorkout Sample.env1 Sample.started))))
  = []
  /\ workoutHistory
       (mem (completeWorkout Sample.env3
               (loadWorkoutHistory true (abandonWorkout Sample.envKept Sample.started))))
     = [with_endTime Sample.pushDay (Some 3000%Z)].
Proof.
  assert (Hne : exercises Sample.pushDay <> []) by (simpl; discriminate).
  split.
  - destruct (abandonWorkout_discards Sample.env1 Sample.env3 Sample.started)
      as (_ & _ & _ & _ & _ & _ & Hok & _).
    exact (proj2 (Hok eq_refl)).
  - destruct (abandonWorkout_discards Sample.envKept Sample.env3 Sample.started)
      as (_ & _ & _ & _ & _ & _ & _ & Hkept).
    exact (proj2 (Hkept eq_refl Sample.pushDay eq_refl Hne)).
Defined.

(** ** Invariants of the store *)

Module InvariantFacts.

Import WorkoutStore.

Lemma absent_id (id : string) (l : list WorkoutExercise) :
  find (fun e => String.eqb (exerciseId e) id) l = None ->
  ~ In id (map exerciseId l).
Proof.
  induction l as [|e l IH]; simpl; [tauto|].
  destruct (String.eqb_spec (exerciseId e) id) as [He|He]; [discriminate|].
  intros H [Hin|Hin]; [contradiction | now apply IH].
Qed.

Lemma uniqueIds_filter (keep : WorkoutExercise -> bool) (es : list WorkoutExercise) :
  NoDup (map exerciseId es) -> NoDup (map exerciseId (filter keep es)).
Proof.
  intros Hnd. induction es as [|e es IH]; simpl; [constructor|].
  simpl in Hnd. apply NoDup_cons_iff in Hnd. destruct Hnd as (Hnin & Hnd).
  destruct (keep e); simpl; [|now apply IH].
  apply NoDup_cons; [|now apply IH].
  intros Hin. apply Hnin. apply in_map_iff in Hin.
  destruct Hin as (e' & He' & Hin). apply filter_In in Hin.
  apply in_map_iff. exists e'. tauto.
Qed.

Lemma wellFormed_same (w w' : World) :
  Spec.sameSessions w w' -> Spec.wellFormed w -> Spec.wellFormed w'.
Proof.
  intros (Hc & Hh & Hd) (H1 & H2 & H3 & H4).
  unfold Spec.wellFormed. rewrite Hc, Hh, Hd. auto.
Qed.

Lemma inSync_same (w w' : World) :
  Spec.sameSessions w w' -> Spec.inSync w -> Spec.inSync w'.
Proof.
  intros (Hc & Hh & Hd) (H1 & H2). unfold Spec.inSync. rewrite Hc, Hh, Hd. auto.
Qed.

Lemma wellFormed_rewritten (env : Env) (failure : string) (updated : Workout) (w : World) :
  Spec.activeOk updated -> Spec.wellFormed w ->
  Spec.wellFormed (Spec.rewritten env failure updated w).
Proof.
  intros Hu (H1 & H2 & H3 & H4). unfold Spec.wellFormed, Spec.rewritten.
  destruct (setItemOk env); simpl;
    (split; [intros c Hc; injection Hc as <-; exact Hu|]);
    (split; [exact H2|]); (split; [|exact H4]); auto.
  intros c Hc; injection Hc as <-; exact Hu.
Qed.

Lemma inSync_rewritten (env : Env) (failure : string) (updated : Workout) (w : World) :
  setItemOk env = true -> Spec.inSync w ->
  Spec.inSync (Spec.rewritten env failure updated w).
Proof.
  intros Hok (H1 & H2). unfold Spec.inSync, Spec.rewritten. rewrite Hok. simpl. auto.
Qed.

(** The commands that fail before changing a session. *)
Lemma addExerciseToWorkout_none (env : Env) (id : string) (w : World) :
  currentWorkout (mem w) = None -> Spec.sameSessions w (addExerciseToWorkout env id w).
Proof.
  intros Hc. unfold addExerciseToWorkout, try_catch, try_catch_finally,
    addExerciseToWorkout_try, bind, get, throw, set_, ret.
  rewrite Hc. simpl. split; [reflexivity | split; reflexivity].
Qed.

Lemma addSetToExercise_none (env : Env) (id : string) (input : SetInput) (w : World) :
  (forall c, currentWorkout (mem w) = Some c -> Spec.entry id c = None) ->
  Spec.sameSessions w (addSetToExercise env id input w).
Proof.
  intros H. unfold addSetToExercise, try_catch, try_catch_finally,
    addSetToExercise_try, bind, get, throw, set_, ret.
  destruct (currentWorkout (mem w)) as [c|] eqn:Hc; simpl.
  - rewrite (find_none_findIndex _ _ (H c eq_refl)). simpl.
    split; [reflexivity | split; reflexivity].
  - split; [reflexivity | split; reflexivity].
Qed.

Section Preservation.

Variable env : Env.
Variable w : World.
Hypothesis w_ok : Spec.wellFormed w.

Lemma current_ok (c : Workout) : currentWorkout (mem w) = Some c -> Spec.activeOk c.
Proof. destruct w_ok as (H & _). apply H. Qed.

Lemma startWorkout_wellFormed (name : option string) :
  Spec.wellFormed (startWorkout env name w).
Proof.
  rewrite StoreFacts.startWorkout_run.
  destruct w_ok as (H1 & H2 & H3 & H4).
  assert (Hn : Spec.activeOk (newWorkout env name))
    by (split; [constructor | reflexivity]).
  unfold Spec.wellFormed.
  destruct (setItemOk env); simpl;
    (split; [intros c Hc; injection Hc as <-; exact Hn|]);
    (split; [exact H2|]); (split; [|exact H4]); auto.
  intros c Hc; injection Hc as <-; exact Hn.
Qed.

Lemma addExerciseToWorkout_wellFormed (id : string) :
  Spec.wellFormed (addExerciseToWorkout env id w).
Proof.
  destruct (currentWorkout (mem w)) as [c|] eqn:Hc.
  - destruct (Spec.entry id c) as [e|] eqn:He.
    + rewrite (StoreFacts.addExerciseToWorkout_duplicate env id w c e Hc He).
      apply (wellFormed_same w); [|exact w_ok].
      split; [reflexivity | split; reflexivity].
    + rewrite (StoreFacts.addExerciseToWorkout_run env id w c Hc He).
      apply (wellFormed_rewritten env "Failed to add exercise to workout");
        [|exact w_ok].
      destruct (current_ok c Hc) as (Hu & Hend). split; [|exact Hend].
      unfold Spec.uniqueIds in *. simpl. rewrite map_app. simpl.
      apply NoDup_app_remove_l with (l := []). simpl.
      apply (Permutation_NoDup (l := id :: map exerciseId (exercises c))).
      * apply Permutation_cons_append.
      * constructor; [now apply absent_id | exact Hu].
  - apply (wellFormed_same w); [now apply addExerciseToWorkout_none | exact w_ok].
Qed.

(** Replacing an entry by one for the same exercise keeps the session what
    an active session is. *)
Lemma updated_ok (c : Workout) (i : nat) (e e' : WorkoutExercise) :
  currentWorkout (mem w) = Some c ->
  nth_error (exercises c) i = Some e ->
  exerciseId e' = exerciseId e ->
  Spec.activeOk (with_exercises c (update_at i e' (exercises c))).
Proof.
  intros Hc Hn He. destruct (current_ok c Hc) as (Hu & Hend).
  split; [|exact Hend]. unfold Spec.uniqueIds in *. simpl.
  now rewrite (map_update_at exerciseId _ i e e' Hn He).
Qed.

Lemma addSetToExercise_wellFormed (id : string) (input : SetInput) :
  Spec.wellFormed (addSetToExercise env id input w).
Proof.
  destruct (currentWorkout (mem w)) as [c|] eqn:Hc.
  - destruct (Spec.entry id c) as [e|] eqn:He.
    + destruct (find_findIndex _ _ _ He) as (i & Hi & Hn).
      rewrite (StoreFacts.addSetToExercise_run env id input w c i e Hc Hi Hn).
      apply (wellFormed_rewritten env "Failed to add set to exercise");
        [|exact w_ok].
      now apply (updated_ok c i e).
    + apply (wellFormed_same w); [|exact w_ok].
      apply addSetToExercise_none. intros c' Hc'. congruence.
  - apply (wellFormed_same w); [|exact w_ok].
    apply addSetToExercise_none. intros c' Hc'. congruence.
Qed.

Lemma updateExerciseNotes_wellFormed (id text : string) :
  Spec.wellFormed (updateExerciseNotes env id text w).
Proof.
  destruct (currentWorkout (mem w)) as [c|] eqn:Hc.
  - destruct (Spec.entry id c) as [e|] eqn:He.
    + destruct (find_findIndex _ _ _ He) as (i & Hi & Hn).
      rewrite (CommandFacts.updateExerciseNotes_run env id text w c i e Hc Hi Hn).
      apply wellFormed_rewritten; [|exact w_ok]. now apply (updated_ok c i e).
    + rewrite (proj1 (CommandFacts.no_entry_no_change env id text 0 w c Hc He)).
      exact w_ok.
  - rewrite (proj1 (CommandFacts.no_session_no_change env id text 0 w Hc)).
    exact w_ok.
Qed.

Lemma removeSetFromExercise_wellFormed (id : string) (setIndex : Z) :
  Spec.wellFormed (removeSetFromExercise env id setIndex w).
Proof.
  destruct (currentWorkout (mem w)) as [c|] eqn:Hc.
  - destruct (Spec.entry id c) as [e|] eqn:He.
    + destruct (find_findIndex _ _ _ He) as (i & Hi & Hn).
      rewrite (CommandFacts.removeSetFromExercise_run env id setIndex w c i e Hc Hi Hn).
      apply wellFormed_rewritten; [|exact w_ok]. now apply (updated_ok c i e).
    + rewrite (proj2 (CommandFacts.no_entry_no_change env id "" setIndex w c Hc He)).
      exact w_ok.
  - rewrite (proj2 (proj2 (CommandFacts.no_session_no_change env id "" setIndex w Hc))).
    exact w_ok.
Qed.

Lemma removeExerciseFromWorkout_wellFormed (id : string) :
  Spec.wellFormed (removeExerciseFromWorkout env id w).
Proof.
  destruct (currentWorkout (mem w)) as [c|] eqn:Hc.
  - rewrite (CommandFacts.removeExerciseFromWorkout_run env id w c Hc).
    apply wellFormed_rewritten; [|exact w_ok].
    destruct (current_ok c Hc) as (Hu & Hend). split; [|exact Hend].
    unfold Spec.uniqueIds in *. simpl. now apply uniqueIds_filter.
  - rewrite (proj1 (proj2 (CommandFacts.no_session_no_change env id "" 0 w Hc))).
    exact w_ok.
Qed.

Lemma completeWorkout_wellFormed : Spec.wellFormed (completeWorkout env w).
Proof.
  destruct w_ok as (H1 & H2 & H3 & H4).
  destruct (currentWorkout (mem w)) as [c|] eqn:Hc.
  - destruct (exercises c) as [|e es] eqn:He.
    + rewrite (StoreFacts.completeWorkout_empty env w c Hc He).
      apply (wellFormed_same w); [|exact w_ok].
      split; [symmetry; exact Hc | split; reflexivity].
    + assert (Hne : exercises c <> []) by (rewrite He; discriminate).
      rewrite (StoreFacts.completeWorkout_run env w c Hc Hne). cbv zeta.
      assert (Hdone : Spec.storedOk (with_endTime c (Some (now env)))).
      { destruct (H1 c eq_refl) as (Hu & _).
        split; [exact Hu | split; [discriminate | exact Hne]]. }
      unfold Spec.wellFormed. simpl.
      split; [discriminate|]. split; [intros x [<-|Hx]; auto|].
      split.
      * destruct (removeItemOk env); [discriminate | exact H3].
      * destruct (setItemOk env); [|exact H4].
        intros h x Hh Hx. injection Hh as <-. destruct Hx as [<-|Hx]; auto.
  - destruct (StoreFacts.completeWorkout_none env w Hc) as (_ & Hr). rewrite Hr.
    apply (wellFormed_same w); [|exact w_ok].
    split; [symmetry; exact Hc | split; reflexivity].
Qed.

Lemma abandonWorkout_wellFormed : Spec.wellFormed (abandonWorkout env w).
Proof.
  destruct w_ok as (H1 & H2 & H3 & H4).
  rewrite CommandFacts.abandonWorkout_run. unfold Spec.wellFormed.
  destruct (removeItemOk env); simpl;
    (split; [discriminate|]); (split; [exact H2|]); (split; [|exact H4]); auto.
  discriminate.
Qed.

Lemma loadWorkoutHistory_wellFormed (ok : bool) :
  Spec.wellFormed (loadWorkoutHistory ok w).
Proof.
  destruct w_ok as (H1 & H2 & H3 & H4).
  rewrite CommandFacts.loadWorkoutHistory_run. unfold Spec.wellFormed.
  destruct ok; simpl; [|auto].
  split; [exact H3|]. split; [|split; [exact H3 | exact H4]].
  intros c Hc. destruct (WORKOUT_HISTORY (disk w)) as [h|] eqn:Hh; [|contradiction].
  now apply (H4 h).
Qed.

Lemma deleteWorkout_wellFormed (workoutId : string) :
  Spec.wellFormed (deleteWorkout env workoutId w).
Proof.
  destruct w_ok as (H1 & H2 & H3 & H4).
  rewrite CommandFacts.deleteWorkout_run. cbv zeta. unfold Spec.wellFormed.
  assert (Hf : forall c, In c (filter (fun x => negb (String.eqb (w_id x) workoutId))
                                      (workoutHistory (mem w))) -> Spec.storedOk c).
  { intros c Hc. apply filter_In in Hc. now apply H2. }
  destruct (setItemOk env); simpl;
    (split; [exact H1|]); (split; [exact Hf|]); (split; [exact H3|]); auto.
  intros h c Hh Hc. injection Hh as <-. now apply Hf.
Qed.

Lemma duplicateWorkout_wellFormed (workoutId : string) :
  Spec.wellFormed (duplicateWorkout env workoutId w).
Proof.
  destruct (getWorkoutById (mem w) workoutId) as [original|] eqn:Hf.
  - rewrite (CommandFacts.duplicateWorkout_run env workoutId w original Hf).
    apply wellFormed_rewritten; [|exact w_ok].
    destruct w_ok as (_ & H2 & _).
    apply find_some in Hf. destruct Hf as (Hin & _).
    destruct (H2 original Hin) as (Hu & _).
    split; [|reflexivity]. unfold Spec.uniqueIds in *. simpl.
    now rewrite map_map.
  - rewrite (CommandFacts.duplicateWorkout_missing env workoutId w Hf).
    apply (wellFormed_same w); [|exact w_ok].
    split; [reflexivity | split; reflexivity].
Qed.

End Preservation.

Lemma run_wellFormed (step : Env * Command) (w : World) :
  Spec.wellFormed w -> Spec.wellFormed (run step w).
Proof.
  intros Hw. destruct step as (env, c). destruct c; simpl.
  - now apply startWorkout_wellFormed.
  - now apply addExerciseToWorkout_wellFormed.
  - now apply addSetToExercise_wellFormed.
  - now apply updateExerciseNotes_wellFormed.
  - now apply removeExerciseFromWorkout_wellFormed.
  - now apply removeSetFromExercise_wellFormed.
  - now apply completeWorkout_wellFormed.
  - now apply abandonWorkout_wellFormed.
  - now apply loadWorkoutHistory_wellFormed.
  - now apply deleteWorkout_wellFormed.
  - now apply duplicateWorkout_wellFormed.
Qed.

End InvariantFacts.

(** ** Storage follows memory while the writes succeed *)

Module SyncFacts.

Import WorkoutStore InvariantFacts.

Section Sync.

Variable env : Env.
Variable w : World.
Hypothesis writes : setItemOk env = true.
Hypothesis removes : removeItemOk env = true.
Hypothesis w_sync : Spec.inSync w.

Lemma startWorkout_inSync (name : option string) :
  Spec.inSync (startWorkout env name w).
Proof.
  rewrite StoreFacts.startWorkout_run, writes. destruct w_sync as (H1 & H2).
  split; [reflexivity | exact H2].
Qed.

Lemma addExerciseToWorkout_inSync (id : string) :
  Spec.inSync (addExerciseToWorkout env id w).
Proof.
  destruct (currentWorkout (mem w)) as [c|] eqn:Hc.
  - destruct (Spec.entry id c) as [e|] eqn:He.
    + rewrite (StoreFacts.addExerciseToWorkout_duplicate env id w c e Hc He).
      apply (inSync_same w); [|exact w_sync].
      split; [reflexivity | split; reflexivity].
    + rewrite (StoreFacts.addExerciseToWorkout_run env id w c Hc He).
      now apply (inSync_rewritten env "Failed to add exercise to workout").
  - apply (inSync_same w); [now apply addExerciseToWorkout_none | exact w_sync].
Qed.

Lemma addSetToExercise_inSync (id : string) (input : SetInput) :
  Spec.inSync (addSetToExercise env id input w).
Proof.
  destruct (currentWorkout (mem w)) as [c|] eqn:Hc.
  - destruct (Spec.entry id c) as [e|] eqn:He.
    + destruct (find_findIndex _ _ _ He) as (i & Hi & Hn).
      rewrite (StoreFacts.addSetToExercise_run env id input w c i e Hc Hi Hn).
      now apply (inSync_rewritten env "Failed to add set to exercise").
    + apply (inSync_same w); [|exact w_sync].
      apply addSetToExercise_none. intros c' Hc'. congruence.
  - apply (inSync_same w); [|exact w_sync].
    apply addSetToExercise_none. intros c' Hc'. congruence.
Qed.

Lemma updateExerciseNotes_inSync (id text : string) :
  Spec.inSync (updateExerciseNotes env id text w).
Proof.
  destruct (currentWorkout (mem w)) as [c|] eqn:Hc.
  - destruct (Spec.entry id c) as [e|] eqn:He.
    + destruct (find_findIndex _ _ _ He) as (i & Hi & Hn).
      rewrite (CommandFacts.updateExerciseNotes_run env id text w c i e Hc Hi Hn).
      now apply inSync_rewritten.
    + rewrite (proj1 (CommandFacts.no_entry_no_change env id text 0 w c Hc He)).
      exact w_sync.
  - rewrite (proj1 (CommandFacts.no_session_no_change env id text 0 w Hc)).
    exact w_sync.
Qed.

Lemma removeSetFromExercise_inSync (id : string) (setIndex : Z) :
  Spec.inSync (removeSetFromExercise env id setIndex w).
Proof.
  destruct (currentWorkout (mem w)) as [c|] eqn:Hc.
  - destruct (Spec.entry id c) as [e|] eqn:He.
    + destruct (find_findIndex _ _ _ He) as (i & Hi & Hn).
      rewrite (CommandFacts.removeSetFromExercise_run env id setIndex w c i e Hc Hi Hn).
      now apply inSync_rewritten.
    + rewrite (proj2 (CommandFacts.no_entry_no_change env id "" setIndex w c Hc He)).
      exact w_sync.
  - rewrite (proj2 (proj2 (CommandFacts.no_session_no_change env id "" setIndex w Hc))).
    exact w_sync.
Qed.

Lemma removeExerciseFromWorkout_inSync (id : string) :
  Spec.inSync (removeExerciseFromWorkout env id w).
Proof.
  destruct (currentWorkout (mem w)) as [c|] eqn:Hc.
  - rewrite (CommandFacts.removeExerciseFromWorkout_run env id w c Hc).
    now apply inSync_rewritten.
  - rewrite (proj1 (proj2 (CommandFacts.no_session_no_change env id "" 0 w Hc))).
    exact w_sync.
Qed.

Lemma completeWorkout_inSync : Spec.inSync (completeWorkout env w).
Proof.
  destruct (currentWorkout (mem w)) as [c|] eqn:Hc.
  - destruct (exercises c) as [|e es] eqn:He.
    + rewrite (StoreFacts.completeWorkout_empty env w c Hc He).
      apply (inSync_same w); [|exact w_sync].
      split; [symmetry; exact Hc | split; reflexivity].
    + assert (Hne : exercises c <> []) by (rewrite He; discriminate).
      rewrite (StoreFacts.completeWorkout_run env w c Hc Hne). cbv zeta.
      rewrite writes, removes. split; reflexivity.
  - destruct (StoreFacts.completeWorkout_none env w Hc) as (_ & Hr). rewrite Hr.
    apply (inSync_same w); [|exact w_sync].
    split; [symmetry; exact Hc | split; reflexivity].
Qed.

Lemma abandonWorkout_inSync : Spec.inSync (abandonWorkout env w).
Proof.
  rewrite CommandFacts.abandonWorkout_run, removes. destruct w_sync as (H1 & H2).
  split; [reflexivity | exact H2].
Qed.

Lemma deleteWorkout_inSync (workoutId : string) :
  Spec.inSync (deleteWorkout env workoutId w).
Proof.
  rewrite CommandFacts.deleteWorkout_run. cbv zeta. rewrite writes.
  destruct w_sync as (H1 & H2). split; [exact H1 | reflexivity].
Qed.

Lemma duplicateWorkout_inSync (workoutId : string) :
  Spec.inSync (duplicateWorkout env workoutId w).
Proof.
  destruct (getWorkoutById (mem w) workoutId) as [original|] eqn:Hf.
  - rewrite (CommandFacts.duplicateWorkout_run env workoutId w original Hf).
    now apply inSync_rewritten.
  - rewrite (CommandFacts.duplicateWorkout_missing env workoutId w Hf).
    apply (inSync_same w); [|exact w_sync].
    split; [reflexivity | split; reflexivity].
Qed.

End Sync.

(** Loading puts memory in step with storage, whatever memory held. *)
Lemma loadWorkoutHistory_inSync (w : World) :
  Spec.inSync (loadWorkoutHistory true w).
Proof.
  rewrite CommandFacts.loadWorkoutHistory_run. split; [reflexivity|]. simpl.
  destruct (WORKOUT_HISTORY (disk w)); reflexivity.
Qed.

Lemma run_inSync (step : Env * Command) (w : World) :
  Spec.stepOk step -> Spec.inSync w -> Spec.inSync (run step w).
Proof.
  destruct step as (env, c). intros (Hw & Hr & Hl) Hs. simpl in Hw, Hr, Hl.
  destruct c; simpl.
  - now apply startWorkout_inSync.
  - now apply addExerciseToWorkout_inSync.
  - now apply addSetToExercise_inSync.
  - now apply updateExerciseNotes_inSync.
  - now apply removeExerciseFromWorkout_inSync.
  - now apply removeSetFromExercise_inSync.
  - now apply completeWorkout_inSync.
  - now apply abandonWorkout_inSync.
  - subst. apply loadWorkoutHistory_inSync.
  - now apply deleteWorkout_inSync.
  - now apply duplicateWorkout_inSync.
Qed.

Lemma runAll_inSync (steps : list (Env * Command)) :
  forall w, Forall Spec.stepOk steps -> Spec.inSync w ->
            Spec.inSync (runAll steps w).
Proof.
  induction steps as [|step steps IH]; intros w Hok Hs; simpl; [exact Hs|].
  inversion Hok; subst. apply IH; [assumption|]. now apply run_inSync.
Qed.

(** A store in step with its storage is what a restart gives back. *)
Lemma restart_restores (w : World) :
  Spec.inSync w ->
  currentWorkout (mem (loadWorkoutHistory true (Spec.launched (disk w))))
    = currentWorkout (mem w)
  /\ workoutHistory (mem (loadWorkoutHistory true (Spec.launched (disk w))))
     = workoutHistory (mem w).
Proof.
  intros (H1 & H2). rewrite CommandFacts.loadWorkoutHistory_run. simpl.
  split; [exact H1|].
  destruct (WORKOUT_HISTORY (disk w)); [exact H2 | symmetry; exact H2].
Qed.

End SyncFacts.

(** X9: Whatever commands run and whichever writes fail, the sessions of the
    store keep their shape, in memory and in storage: no session lists an
    exercise twice, the active session has no end time, and every session of
    the history has an end time and at least one exercise. *)
Theorem sessions_stay_well_formed (steps : list (WorkoutStore.Env * WorkoutStore.Command))
  (w : WorkoutStore.World) :
  Spec.wellFormed w -> Spec.wellFormed (WorkoutStore.runAll steps w).
Proof.
  revert w. induction steps as [|step steps IH]; intros w Hw; simpl; [exact Hw|].
  apply IH. now apply InvariantFacts.run_wellFormed.
Qed.

Lemma sessions_stay_well_formed_sample :
  Spec.wellFormed (WorkoutStore.runAll Sample.badConnection Sample.world0).
Proof.
  apply (sessions_stay_well_formed Sample.badConnection Sample.world0).
  unfold Spec.wellFormed, Sample.world0. simpl.
  split; [discriminate|]. split; [contradiction|]. split; discriminate.
Defined.

(** X10: From a store whose storage holds what its memory holds, and while
    every read and write succeeds, storage holds what memory holds after
    each command, so loading into a freshly launched store gives back the
    same active session and the same history.  A successful load puts any
    store in that state, so the same holds, without the premise, of commands
    that follow one.  A launched store that has not loaded is in that state
    only if storage holds no session; commands run on it write the history
    of memory over the stored one: a session started, given an exercise and
    completed becomes the whole stored history, whatever was stored. *)
Theorem storage_follows_successful_commands :
  (forall (steps : list (WorkoutStore.Env * WorkoutStore.Command))
          (w : WorkoutStore.World),
      Forall Spec.stepOk steps ->
      Spec.inSync w ->
      let w' := WorkoutStore.runAll steps w in
      let restarted :=
        WorkoutStore.loadWorkoutHistory true (Spec.launched (WorkoutStore.disk w')) in
      Spec.inSync w'
      /\ WorkoutStore.currentWorkout (WorkoutStore.mem restarted)
         = WorkoutStore.currentWorkout (WorkoutStore.mem w')
      /\ WorkoutStore.workoutHistory (WorkoutStore.mem restarted)
         = WorkoutStore.workoutHistory (WorkoutStore.mem w'))
  /\ (forall (steps : list (WorkoutStore.Env * WorkoutStore.Command))
             (env : WorkoutStore.Env) (w : WorkoutStore.World),
      Forall Spec.stepOk steps ->
      let w' :=
        WorkoutStore.runAll ((env, WorkoutStore.LoadWorkoutHistory true) :: steps) w in
      let restarted :=
        WorkoutStore.loadWorkoutHistory true (Spec.launched (WorkoutStore.disk w')) in
      Spec.inSync w'
      /\ WorkoutStore.currentWorkout (WorkoutStore.mem restarted)
         = WorkoutStore.currentWorkout (WorkoutStore.mem w')
      /\ WorkoutStore.workoutHistory (WorkoutStore.mem restarted)
         = WorkoutStore.workoutHistory (WorkoutStore.mem w'))
  /\ (forall storage : AsyncStorage,
      Spec.inSync (Spec.launched storage)
      <-> CURRENT_WORKOUT storage = None
          /\ (WORKOUT_HISTORY storage = None \/ WORKOUT_HISTORY storage = Some []))
  /\ (forall (env1 env2 env3 : WorkoutStore.Env) (storage : AsyncStorage)
             (name : option string) (id : string),
      WorkoutStore.setItemOk env1 = true ->
      WorkoutStore.setItemOk env2 = true ->
      WorkoutStore.setItemOk env3 = true ->
      WORKOUT_HISTORY
        (WorkoutStore.disk
           (WorkoutStore.runAll
              [(env1, WorkoutStore.StartWorkout name);
               (env2, WorkoutStore.AddExerciseToWorkout id);
               (env3, WorkoutStore.CompleteWorkout)]
              (Spec.launched storage)))
      = Some [WorkoutStore.with_endTime
                (WorkoutStore.with_exercises (WorkoutStore.newWorkout env1 name)
                                             [WorkoutStore.newExercise id])
                (Some (WorkoutStore.now env3))]).
Proof.
  split; [|split; [|split]].
  - intros steps w Hok Hs w' restarted.
    assert (Hs' : Spec.inSync w') by now apply SyncFacts.runAll_inSync.
    split; [exact Hs'|]. now apply SyncFacts.restart_restores.
  - intros steps env w Hok w' restarted.
    assert (Hs' : Spec.inSync w').
    { unfold w'. cbn [WorkoutStore.runAll fold_left WorkoutStore.run].
      apply SyncFacts.runAll_inSync; [exact Hok|].
      apply SyncFacts.loadWorkoutHistory_inSync. }
    split; [exact Hs'|]. now apply SyncFacts.restart_restores.
  - intros storage. unfold Spec.inSync, Spec.launched. simpl.
    destruct (WORKOUT_HISTORY storage) as [h|].
    + split.
      * intros (Hc & ->). split; [exact Hc | now right].
      * intros (Hc & [Hh|Hh]); [discriminate|]. split; [exact Hc | congruence].
    + split; [intros (Hc & _); split; [exact Hc | now left] | intros (Hc & _); auto].
  - intros env1 env2 env3 storage name id H1 H2 H3.
    cbn [WorkoutStore.runAll fold_left WorkoutStore.run].
    rewrite StoreFacts.startWorkout_run, H1.
    match goal with
    | |- context [WorkoutStore.addExerciseToWorkout env2 id ?w1] =>
        rewrite (StoreFacts.addExerciseToWorkout_run env2 id w1
                   (WorkoutStore.newWorkout env1 name) eq_refl eq_refl), H2
    end.
    match goal with
    | |- context [WorkoutStore.completeWorkout env3 ?w2] =>
        rewrite (StoreFacts.completeWorkout_run env3 w2
                   (WorkoutStore.with_exercises (WorkoutStore.newWorkout env1 name)
                                                [WorkoutStore.newExercise id]) eq_refl);
          [|simpl; discriminate]
    end.
    simpl. now rewrite H3.
Qed.

(** A day of training from an empty store; the same commands after a load
    into a store launched on two stored sessions; and a session logged in
    that store without a load, which leaves one session in storage. *)
Lemma storage_follows_successful_commands_sample :
  (let w' := WorkoutStore.runAll Sample.trainingDay Sample.world0 in
   let restarted :=
     WorkoutStore.loadWorkoutHistory true (Spec.launched (WorkoutStore.disk w')) in
   Spec.inSync w'
   /\ WorkoutStore.currentWorkout (WorkoutStore.mem restarted)
      = WorkoutStore.currentWorkout (WorkoutStore.mem w')
   /\ WorkoutStore.workoutHistory (WorkoutStore.mem restarted)
      = WorkoutStore.workoutHistory (WorkoutStore.mem w'))
  /\ Spec.inSync
       (WorkoutStore.runAll
          ((Sample.env0, WorkoutStore.LoadWorkoutHistory true) :: Sample.trainingDay)
          (Spec.launched (Sample.stored [Sample.heavy; Sample.light])))
  /\ option_map (@List.length Workout)
       (WORKOUT_HISTORY
          (WorkoutStore.disk
             (WorkoutStore.runAll
                [(Sample.env0, WorkoutStore.StartWorkout (Some "Push Day"));
                 (Sample.env0, WorkoutStore.AddExerciseToWorkout "bench-press");
                 (Sample.env1, WorkoutStore.CompleteWorkout)]
                (Spec.launched (Sample.stored [Sample.heavy; Sample.light])))))
     = Some 1%nat.
Proof.
  destruct storage_follows_successful_commands as (H1 & H2 & _ & H4).
  assert (Hok : Forall Spec.stepOk Sample.trainingDay).
  { unfold Sample.trainingDay.
    repeat (constructor; [split; [reflexivity | split; [reflexivity | exact I]]|]).
    constructor. }
  split; [|split].
  - apply (H1 Sample.trainingDay Sample.world0 Hok). split; reflexivity.
  - exact (proj1 (H2 Sample.trainingDay Sample.env0
                     (Spec.launched (Sample.stored [Sample.heavy; Sample.light])) Hok)).
  - rewrite (H4 Sample.env0 Sample.env0 Sample.env1
                (Sample.stored [Sample.heavy; Sample.light]) (Some "Push Day")
                "bench-press" eq_refl eq_refl eq_refl).
    reflexivity.
Defined.

(** ** Sorting by a key, newest first *)

Section SortByKey.

Context {A : Type}.
Variable key : A -> Z.

Variable desc : A -> A -> Z.
Hypothesis desc_key : forall a b, desc a b = (key b - key a)%Z.

Lemma insert_by_front (x : A) (l : list A) :
  Forall (fun b => (key b <= key x)%Z) l -> insert_by desc x l = x :: l.
Proof.
  intros H. destruct l as [|y l]; [reflexivity|]. simpl.
  inversion H as [|? ? Hy _]; subst. rewrite desc_key.
  destruct (Z.leb_spec (key y - key x) 0); [reflexivity | lia].
Qed.

Lemma filter_insert_by (keep : A -> bool) (x : A) (l : list A) :
  StronglySorted (fun a b => (key b <= key a)%Z) l ->
  filter keep (insert_by desc x l)
  = if keep x then insert_by desc x (filter keep l) else filter keep l.
Proof.
  induction 1 as [|y l Hs IH Hall]; simpl.
  - destruct (keep x); reflexivity.
  - destruct (Z.leb_spec (desc x y) 0) as [Hle|Hgt]; rewrite desc_key in *.
    + simpl. destruct (keep x) eqn:Hx; [|reflexivity].
      destruct (keep y) eqn:Hy.
      * simpl. rewrite desc_key.
        destruct (Z.leb_spec (key y - key x) 0); [reflexivity | lia].
      * rewrite insert_by_front; [reflexivity|].
        rewrite Forall_forall in *. intros z Hz. apply filter_In in Hz.
        destruct Hz as (Hz & _). specialize (Hall z Hz). simpl in Hall. lia.
    + simpl. rewrite IH. destruct (keep x) eqn:Hx, (keep y) eqn:Hy; try reflexivity.
      simpl. rewrite desc_key.
      destruct (Z.leb_spec (key y - key x) 0); [lia | reflexivity].
Qed.

Lemma js_sort_later (l : list A) : StronglySorted (fun a b => (key b <= key a)%Z) (js_sort desc l).
Proof.
  apply js_sort_sorted; intros; rewrite ?desc_key in *; lia.
Qed.

(** Sorting and filtering commute: the sort is stable. *)
Lemma js_sort_filter (keep : A -> bool) (l : list A) :
  js_sort desc (filter keep l) = filter keep (js_sort desc l).
Proof.
  induction l as [|x l IH]; [reflexivity|].
  change (js_sort desc (x :: l)) with (insert_by desc x (js_sort desc l)).
  rewrite filter_insert_by by apply js_sort_later.
  simpl. destruct (keep x); [|exact IH].
  change (js_sort desc (x :: filter keep l))
    with (insert_by desc x (js_sort desc (filter keep l))).
  now rewrite IH.
Qed.

End SortByKey.

Section SliceFacts.

Context {A : Type}.

Lemma firstn_capped (n : nat) (l : list A) :
  firstn (Nat.min n (List.length l)) l = firstn n l.
Proof.
  destruct (Nat.le_ge_cases n (List.length l)) as [H|H].
  - now rewrite Nat.min_l.
  - rewrite Nat.min_r by exact H. rewrite firstn_all.
    symmetry. now apply firstn_all2.
Qed.

(** A page: [limit] elements from [offset] on. *)
Lemma js_slice_page (l : list A) (offset limit : Z) :
  (0 <= offset)%Z -> (0 <= limit)%Z ->
  js_slice l offset (Some (offset + limit)%Z)
  = firstn (Z.to_nat limit) (skipn (Z.to_nat offset) l).
Proof.
  intros Ho Hl. unfold js_slice, clamp_index.
  destruct (Z.ltb_spec offset 0) as [|_]; [lia|].
  destruct (Z.ltb_spec (offset + limit) 0) as [|_]; [lia|].
  set (len := List.length l).
  destruct (Z.le_gt_cases (Z.of_nat len) offset) as [Hout|Hin].
  - rewrite (Z.min_r offset) by lia. rewrite (Z.min_r (offset + limit)) by lia.
    rewrite Z.sub_diag. simpl.
    rewrite (skipn_all2 (n := Z.to_nat offset)) by (fold len; lia).
    now rewrite firstn_nil.
  - rewrite (Z.min_l offset) by lia.
    rewrite <- (firstn_capped (Z.to_nat limit)). f_equal.
    rewrite length_skipn. fold len. lia.
Qed.

(** No end: everything from [offset] on. *)
Lemma js_slice_from (l : list A) (offset : Z) :
  (0 <= offset)%Z -> js_slice l offset None = skipn (Z.to_nat offset) l.
Proof.
  intros Ho. unfold js_slice, clamp_index.
  destruct (Z.ltb_spec offset 0) as [|_]; [lia|].
  set (len := List.length l).
  destruct (Z.le_gt_cases (Z.of_nat len) offset) as [Hout|Hin].
  - rewrite (Z.min_r offset) by lia. rewrite Z.sub_diag. simpl.
    symmetry. apply skipn_all2. fold len. lia.
  - rewrite (Z.min_l offset) by lia.
    apply firstn_all2. rewrite length_skipn. fold len. lia.
Qed.

(** A negative end counts from the end of the array. *)
Lemma js_slice_drop_last (l : list A) (n : Z) :
  (0 < n)%Z ->
  js_slice l 0 (Some (- n)%Z) = firstn (List.length l - Z.to_nat n) l.
Proof.
  intros Hn. unfold js_slice, clamp_index.
  destruct (Z.ltb_spec 0 0) as [|_]; [lia|].
  destruct (Z.ltb_spec (- n) 0) as [_|]; [|lia].
  rewrite Z.min_l by lia. simpl. f_equal. lia.
Qed.

Lemma firstn_firstn_skipn (a b : nat) (l : list A) :
  firstn a l ++ firstn b (skipn a l) = firstn (a + b) l.
Proof.
  revert l. induction a as [|a IH]; intros l; simpl; [reflexivity|].
  destruct l as [|x l]; simpl; [now rewrite firstn_nil|].
  now rewrite IH.
Qed.

End SliceFacts.

(** ** Facts about the service *)

Module ServiceFacts.

Import WorkoutService.

Lemma getWorkoutHistory_slice (storage : AsyncStorage) (limit offset : option Z) :
  getWorkoutHistory storage limit offset
  = js_slice (getWorkoutHistory storage None None) (offset_or0 offset)
             (end_of limit (offset_or0 offset)).
Proof.
  unfold getWorkoutHistory. destruct (WORKOUT_HISTORY storage) as [history|].
  - cbv zeta. simpl offset_or0 at 1. simpl end_of at 1. now rewrite js_slice_all.
  - unfold js_slice. now rewrite skipn_nil, firstn_nil.
Qed.

(** The sessions in storage, as a list. *)
Lemma getWorkoutHistory_stored (storage : AsyncStorage) :
  getWorkoutHistory storage None None
  = js_sort byStartTimeDesc match WORKOUT_HISTORY storage with
                            | Some h => h
                            | None => []
                            end.
Proof.
  unfold getWorkoutHistory. destruct (WORKOUT_HISTORY storage); [|reflexivity].
  apply js_slice_all.
Qed.

Lemma sort_filter (keep : Workout -> bool) (l : list Workout) :
  js_sort byStartTimeDesc (filter keep l) = filter keep (js_sort byStartTimeDesc l).
Proof. apply (js_sort_filter startTime). reflexivity. Qed.

Lemma filter_all_length {A : Type} (keep : A -> bool) (l : list A) :
  List.length (filter keep l) = List.length l -> filter keep l = l.
Proof.
  induction l as [|x l IH]; simpl; [reflexivity|].
  destruct (keep x); simpl; intros H.
  - f_equal. apply IH. lia.
  - pose proof (filter_length_le keep l). lia.
Qed.

Lemma filter_none_found {A : Type} (q : A -> bool) (l : list A) :
  Nat.eqb (List.length (filter (fun x => negb (q x)) l)) (List.length l)
  = negb (existsb q l).
Proof.
  induction l as [|x l IH]; simpl; [reflexivity|].
  destruct (q x); simpl.
  - pose proof (filter_length_le (fun x => negb (q x)) l).
    apply Nat.eqb_neq. lia.
  - exact IH.
Qed.

Lemma find_existsb {A : Type} (q : A -> bool) (l : list A) :
  match find q l with Some _ => true | None => false end = existsb q l.
Proof.
  induction l as [|x l IH]; simpl; [reflexivity|]. destruct (q x); [reflexivity|exact IH].
Qed.

Lemma existsb_perm {A : Type} (q : A -> bool) (l l' : list A) :
  Permutation l l' -> existsb q l = existsb q l'.
Proof.
  induction 1; simpl.
  - reflexivity.
  - now f_equal.
  - destruct (q x), (q y); reflexivity.
  - congruence.
Qed.

(** [getWorkoutById] finds an id exactly when a stored session has it. *)
Lemma getWorkoutById_found (storage : AsyncStorage) (workoutId : string) :
  match getWorkoutById storage workoutId with Some _ => true | None => false end
  = existsb (fun w => String.eqb (w_id w) workoutId)
            match WORKOUT_HISTORY storage with
            | Some h => h
            | None => []
            end.
Proof.
  unfold getWorkoutById. rewrite find_existsb, getWorkoutHistory_stored.
  symmetry. apply existsb_perm, js_sort_perm.
Qed.

Lemma service_deleteWorkout_run (env : WorkoutStore.Env) (reason workoutId : string)
  (storage : AsyncStorage) :
  let stored := match WORKOUT_HISTORY storage with
                | Some h => h
                | None => []
                end in
  let found := existsb (fun w => String.eqb (w_id w) workoutId) stored in
  deleteWorkout env reason workoutId storage
  = if found
    then if WorkoutStore.setItemOk env
         then (Ok true,
               {| CURRENT_WORKOUT := CURRENT_WORKOUT storage;
                  WORKOUT_HISTORY :=
                    Some (filter (fun w => negb (String.eqb (w_id w) workoutId)) stored) |})
         else (Err ("Failed to delete workout" ++ ": " ++ reason)%string, storage)
    else (Ok false, storage).
Proof.
  unfold deleteWorkout, failed, setHistory.
  destruct (WORKOUT_HISTORY storage) as [history|]; [|reflexivity].
  cbv zeta. rewrite (filter_none_found (fun w => String.eqb (w_id w) workoutId)).
  destruct (existsb _ history); simpl; [|reflexivity].
  destruct (WorkoutStore.setItemOk env); reflexivity.
Qed.

End ServiceFacts.

(** X11: the pages of [getWorkoutHistory].  With an offset that is not
    negative, a positive limit gives that many sessions of the whole sorted
    history from the offset on (fewer at its end); a limit of 0 is no limit;
    consecutive pages put together are one longer page; and a negative limit
    without offset drops that many of the oldest sessions. *)
Theorem getWorkoutHistory_pages :
  forall (storage : AsyncStorage) (offset limit limit' : Z),
    (0 <= offset)%Z -> (0 < limit)%Z -> (0 < limit')%Z ->
    let all := WorkoutService.getWorkoutHistory storage None None in
    let page := fun l o => WorkoutService.getWorkoutHistory storage (Some l) (Some o) in
    page limit offset = firstn (Z.to_nat limit) (skipn (Z.to_nat offset) all)
    /\ page 0%Z offset = skipn (Z.to_nat offset) all
    /\ page limit offset ++ page limit' (offset + limit)%Z
       = page (limit + limit')%Z offset
    /\ WorkoutService.getWorkoutHistory storage (Some (- limit)%Z) None
       = firstn (List.length all - Z.to_nat limit) all.
Proof.
  intros storage offset limit limit' Ho Hl Hl' all page.
  assert (Hpage : forall l o, (0 <= o)%Z -> (0 < l)%Z ->
            page l o = firstn (Z.to_nat l) (skipn (Z.to_nat o) all)).
  { intros l o Hno Hnl. unfold page.
    rewrite ServiceFacts.getWorkoutHistory_slice. fold all.
    unfold WorkoutService.offset_or0, WorkoutService.end_of.
    destruct (Z.eqb_spec l 0); [lia|]. apply js_slice_page; lia. }
  split; [now apply Hpage|]. split; [|split].
  - unfold page. rewrite ServiceFacts.getWorkoutHistory_slice. fold all.
    simpl. now apply js_slice_from.
  - rewrite !Hpage by lia.
    replace (Z.to_nat (offset + limit)) with (Z.to_nat limit + Z.to_nat offset)%nat
      by lia.
    rewrite <- skipn_skipn, firstn_firstn_skipn. f_equal. lia.
  - rewrite ServiceFacts.getWorkoutHistory_slice. fold all.
    unfold WorkoutService.offset_or0, WorkoutService.end_of.
    destruct (Z.eqb_spec (- limit) 0); [lia|].
    rewrite Z.add_0_l. now apply js_slice_drop_last.
Qed.

Lemma getWorkoutHistory_pages_sample :
  WorkoutService.getWorkoutHistory
    (Sample.stored [Sample.light; Sample.heavy; Sample.twoSets]) (Some 1%Z) (Some 1%Z)
  = [Sample.light].
Proof.
  destruct (getWorkoutHistory_pages
              (Sample.stored [Sample.light; Sample.heavy; Sample.twoSets]) 1 1 1)
    as (H & _); [lia | lia | lia |].
  rewrite H. reflexivity.
Defined.

(** X12: [deleteWorkout] of the service answers true exactly when
    [getWorkoutById] finds the id.  When the write is accepted, the history
    query afterwards is the one before without the sessions of that id, the
    id is no longer found, every other id is found as before and the active
    session is untouched; an id that is not stored leaves storage as it is.
    A rejected write leaves storage as it is and, for a stored id, throws. *)
Theorem service_deleteWorkout_reports :
  forall (env : WorkoutStore.Env) (reason workoutId : string) (storage : AsyncStorage),
    let r := WorkoutService.deleteWorkout env reason workoutId storage in
    (WorkoutStore.setItemOk env = true ->
       fst r = Ok match WorkoutService.getWorkoutById storage workoutId with
                  | Some _ => true
                  | None => false
                  end
       /\ WorkoutService.getWorkoutHistory (snd r) None None
          = filter (fun w => negb (String.eqb (w_id w) workoutId))
                   (WorkoutService.getWorkoutHistory storage None None)
       /\ WorkoutService.getWorkoutById (snd r) workoutId = None
       /\ (forall other, other <> workoutId ->
             WorkoutService.getWorkoutById (snd r) other
             = WorkoutService.getWorkoutById storage other)
       /\ WorkoutService.getCurrentWorkout (snd r)
          = WorkoutService.getCurrentWorkout storage)
    /\ (WorkoutService.getWorkoutById storage workoutId = None -> r = (Ok false, storage))
    /\ (WorkoutStore.setItemOk env = false ->
        snd r = storage
        /\ (WorkoutService.getWorkoutById storage workoutId <> None ->
            fst r = Err ("Failed to delete workout: " ++ reason)%string)).
Proof.
  intros env reason workoutId storage r.
  pose proof (ServiceFacts.service_deleteWorkout_run env reason workoutId storage) as Hrun.
  pose proof (ServiceFacts.getWorkoutById_found storage workoutId) as Hfound.
  cbv zeta in Hrun. fold r in Hrun.
  set (stored := match WORKOUT_HISTORY storage with Some h => h | None => [] end) in *.
  assert (Hquery : WorkoutService.getWorkoutHistory
                     {| CURRENT_WORKOUT := CURRENT_WORKOUT storage;
                        WORKOUT_HISTORY :=
                          Some (filter (fun w => negb (String.eqb (w_id w) workoutId))
                                       stored) |} None None
                   = filter (fun w => negb (String.eqb (w_id w) workoutId))
                            (WorkoutService.getWorkoutHistory storage None None)).
  { rewrite !ServiceFacts.getWorkoutHistory_stored. simpl. fold stored.
    apply ServiceFacts.sort_filter. }
  assert (Hsame : existsb (fun w => String.eqb (w_id w) workoutId) stored = false ->
                  filter (fun w => negb (String.eqb (w_id w) workoutId))
                         (WorkoutService.getWorkoutHistory storage None None)
                  = WorkoutService.getWorkoutHistory storage None None).
  { intros Hno. rewrite ServiceFacts.getWorkoutHistory_stored. fold stored.
    rewrite <- ServiceFacts.sort_filter. f_equal.
    apply ServiceFacts.filter_all_length. apply Nat.eqb_eq.
    rewrite (ServiceFacts.filter_none_found (fun w => String.eqb (w_id w) workoutId)).
    now rewrite Hno. }
  split; [|split].
  - intros Hok. rewrite Hfound, Hrun, Hok.
    destruct (existsb _ stored) eqn:Hex; simpl.
    + split; [reflexivity|]. split; [exact Hquery|].
      unfold WorkoutService.getWorkoutById. rewrite Hquery.
      split; [apply HistoryListFacts.find_filtered_out|].
      split; [|reflexivity].
      intros other Hne. now apply HistoryListFacts.find_filtered_other.
    + split; [reflexivity|]. split; [symmetry; now apply Hsame|].
      split; [|split; [reflexivity|reflexivity]].
      destruct (WorkoutService.getWorkoutById storage workoutId); [discriminate|].
      reflexivity.
  - intros Hnone. rewrite Hnone in Hfound. rewrite Hrun, <- Hfound. reflexivity.
  - intros Hno. rewrite Hrun, Hno.
    destruct (existsb _ stored) eqn:Hex; simpl; (split; [reflexivity|]).
    + reflexivity.
    + intros Hsome. destruct (WorkoutService.getWorkoutById storage workoutId);
        [discriminate | contradiction].
Qed.

Lemma service_deleteWorkout_sample :
  fst (WorkoutService.deleteWorkout Sample.env0 "disk full" "light"
         (Sample.stored [Sample.light; Sample.heavy]))
  = Ok true
  /\ WorkoutService.getWorkoutHistory
       (snd (WorkoutService.deleteWorkout Sample.env0 "disk full" "light"
               (Sample.stored [Sample.light; Sample.heavy]))) None None
     = [Sample.heavy].
Proof.
  destruct (service_deleteWorkout_reports Sample.env0 "disk full" "light"
              (Sample.stored [Sample.light; Sample.heavy])) as (H & _).
  destruct (H eq_refl) as (H1 & H2 & _).
  split; [exact H1 | exact H2].
Defined.

(** ** The store and the service on the same storage *)

Module AgreementFacts.

Lemma existsb_find (id : string) (es : list WorkoutExercise) :
  existsb (fun e => String.eqb (exerciseId e) id) es
  = match find (fun e => String.eqb (exerciseId e) id) es with
    | Some _ => true
    | None => false
    end.
Proof. symmetry. apply ServiceFacts.find_existsb. Qed.

Section Agreement.

Variable env : WorkoutStore.Env.
Variable reason : string.
Variable w : WorkoutStore.World.
Hypothesis w_sync : Spec.inSync w.

Lemma current_sync :
  WorkoutService.getCurrentWorkout (WorkoutStore.disk w)
  = WorkoutStore.currentWorkout (WorkoutStore.mem w).
Proof. apply w_sync. Qed.

Lemma history_sync :
  match WORKOUT_HISTORY (WorkoutStore.disk w) with
  | Some h => h
  | None => []
  end = WorkoutStore.workoutHistory (WorkoutStore.mem w).
Proof.
  destruct w_sync as (_ & H).
  destruct (WORKOUT_HISTORY (WorkoutStore.disk w)); [exact H | symmetry; exact H].
Qed.

Lemma addExerciseToWorkout_agree (id : string) :
  snd (WorkoutService.addExerciseToWorkout env reason id (WorkoutStore.disk w))
  = WorkoutStore.disk (WorkoutStore.addExerciseToWorkout env id w).
Proof.
  unfold WorkoutService.addExerciseToWorkout, WorkoutService.failed,
    WorkoutService.setCurrent.
  rewrite current_sync.
  destruct (WorkoutStore.currentWorkout (WorkoutStore.mem w)) as [c|] eqn:Hc.
  - rewrite existsb_find.
    destruct (find _ (exercises c)) as [e|] eqn:He.
    + now rewrite (StoreFacts.addExerciseToWorkout_duplicate env id w c e Hc He).
    + rewrite (StoreFacts.addExerciseToWorkout_run env id w c Hc He).
      destruct (WorkoutStore.setItemOk env); reflexivity.
  - symmetry. apply (InvariantFacts.addExerciseToWorkout_none env id w Hc).
Qed.

Lemma addSetToExercise_agree (id : string) (input : SetInput) :
  snd (WorkoutService.addSetToExercise env reason id input (WorkoutStore.disk w))
  = WorkoutStore.disk (WorkoutStore.addSetToExercise env id input w).
Proof.
  unfold WorkoutService.addSetToExercise, WorkoutService.failed,
    WorkoutService.setCurrent.
  rewrite current_sync.
  destruct (WorkoutStore.currentWorkout (WorkoutStore.mem w)) as [c|] eqn:Hc.
  - destruct (Spec.entry id c) as [e|] eqn:He.
    + destruct (find_findIndex _ _ _ He) as (i & Hi & Hn).
      rewrite (StoreFacts.addSetToExercise_run env id input w c i e Hc Hi Hn).
      rewrite Hi, Hn. destruct (WorkoutStore.setItemOk env); reflexivity.
    + rewrite (find_none_findIndex _ _ He). symmetry.
      apply (InvariantFacts.addSetToExercise_none env id input w).
      intros c' Hc'. congruence.
  - symmetry. apply (InvariantFacts.addSetToExercise_none env id input w).
    intros c' Hc'. congruence.
Qed.

Lemma completeWorkout_agree :
  snd (WorkoutService.completeWorkout env reason (WorkoutStore.disk w))
  = WorkoutStore.disk (WorkoutStore.completeWorkout env w).
Proof.
  unfold WorkoutService.completeWorkout, WorkoutService.failed, WorkoutService.both,
    WorkoutService.setHistory, WorkoutService.removeCurrent.
  rewrite current_sync, history_sync.
  destruct (WorkoutStore.currentWorkout (WorkoutStore.mem w)) as [c|] eqn:Hc.
  - destruct (exercises c) as [|e es] eqn:He.
    + now rewrite (StoreFacts.completeWorkout_empty env w c Hc He).
    + assert (Hne : exercises c <> []) by (rewrite He; discriminate).
      rewrite (StoreFacts.completeWorkout_run env w c Hc Hne).
      destruct (WorkoutStore.setItemOk env), (WorkoutStore.removeItemOk env);
        simpl; try reflexivity; destruct (WorkoutStore.disk w); reflexivity.
  - destruct (StoreFacts.completeWorkout_none env w Hc) as (_ & Hr). now rewrite Hr.
Qed.

End Agreement.

End AgreementFacts.

(** X13: on a store in step with its storage, the commands of the store and
    those of the service leave the same storage behind, whether the writes
    are accepted or rejected: adding an exercise, adding a set and completing
    the session write the same active session and the same history. *)
Theorem store_and_service_agree :
  forall (env : WorkoutStore.Env) (reason id : string) (input : SetInput)
         (w : WorkoutStore.World),
    Spec.inSync w ->
    snd (WorkoutService.addExerciseToWorkout env reason id (WorkoutStore.disk w))
      = WorkoutStore.disk (WorkoutStore.addExerciseToWorkout env id w)
    /\ snd (WorkoutService.addSetToExercise env reason id input (WorkoutStore.disk w))
       = WorkoutStore.disk (WorkoutStore.addSetToExercise env id input w)
    /\ snd (WorkoutService.completeWorkout env reason (WorkoutStore.disk w))
       = WorkoutStore.disk (WorkoutStore.completeWorkout env w).
Proof.
  intros env reason id input w Hs.
  split; [now apply AgreementFacts.addExerciseToWorkout_agree|].
  split; [now apply AgreementFacts.addSetToExercise_agree|].
  now apply AgreementFacts.completeWorkout_agree.
Qed.

Lemma store_and_service_agree_sample :
  snd (WorkoutService.completeWorkout Sample.env1 "disk full"
         (WorkoutStore.disk Sample.started))
  = WorkoutStore.disk (WorkoutStore.completeWorkout Sample.env1 Sample.started).
Proof.
  apply (store_and_service_agree Sample.env1 "disk full" "bench-press"
           Sample.tenByEighty Sample.started).
  split; reflexivity.
Defined.

(** X14: [completeWorkout] of the service on an active session with an
    exercise.  With both writes accepted it returns the session with the
    clock as end time, empties the active slot, and the history query gains
    that session at its place in the order.  The two writes are not atomic:
    when only the write of the history is rejected the call throws and the
    session is in neither slot of storage; when only the removal is rejected
    the call throws and the session is in both. *)
Theorem service_completeWorkout_outcomes :
  forall (env : WorkoutStore.Env) (reason : string) (storage : AsyncStorage)
         (c : Workout),
    WorkoutService.getCurrentWorkout storage = Some c ->
    exercises c <> [] ->
    let r := WorkoutService.completeWorkout env reason storage in
    let completed := WorkoutStore.with_endTime c (Some (WorkoutStore.now env)) in
    (WorkoutStore.setItemOk env = true -> WorkoutStore.removeItemOk env = true ->
       fst r = Ok completed
       /\ WorkoutService.getCurrentWorkout (snd r) = None
       /\ WorkoutService.getWorkoutHistory (snd r) None None
          = insert_by WorkoutService.byStartTimeDesc completed
              (WorkoutService.getWorkoutHistory storage None None))
    /\ (WorkoutStore.setItemOk env = false -> WorkoutStore.removeItemOk env = true ->
        fst r = Err ("Failed to complete workout: " ++ reason)%string
        /\ WorkoutService.getCurrentWorkout (snd r) = None
        /\ WORKOUT_HISTORY (snd r) = WORKOUT_HISTORY storage)
    /\ (WorkoutStore.setItemOk env = true -> WorkoutStore.removeItemOk env = false ->
        fst r = Err ("Failed to complete workout: " ++ reason)%string
        /\ WorkoutService.getCurrentWorkout (snd r) = Some c
        /\ exists h, WORKOUT_HISTORY (snd r) = Some (completed :: h)).
Proof.
  intros env reason storage c Hc Hne r completed. subst r.
  unfold WorkoutService.completeWorkout, WorkoutService.failed, WorkoutService.both,
    WorkoutService.setHistory, WorkoutService.removeCurrent.
  rewrite Hc. destruct (exercises c) as [|e es] eqn:He; [contradiction|].
  cbn [List.length Nat.eqb].
  split; [|split]; intros Hw Hr; rewrite Hw, Hr; simpl.
  - split; [reflexivity|]. split; [reflexivity|].
    rewrite !ServiceFacts.getWorkoutHistory_stored. reflexivity.
  - split; [reflexivity|]. split; reflexivity.
  - split; [reflexivity|]. split; [exact Hc|]. eexists. reflexivity.
Qed.

Lemma service_completeWorkout_sample :
  fst (WorkoutService.completeWorkout Sample.envFail "disk full"
         (WorkoutStore.disk Sample.started))
  = Err "Failed to complete workout: disk full"
  /\ WorkoutService.getCurrentWorkout
       (snd (WorkoutService.completeWorkout Sample.envFail "disk full"
               (WorkoutStore.disk Sample.started))) = None
  /\ WORKOUT_HISTORY
       (snd (WorkoutService.completeWorkout Sample.envFail "disk full"
               (WorkoutStore.disk Sample.started))) = None.
Proof.
  assert (Hne : exercises Sample.pushDay <> []) by (simpl; discriminate).
  destruct (service_completeWorkout_outcomes Sample.envFail "disk full"
              (WorkoutStore.disk Sample.started) Sample.pushDay eq_refl Hne)
    as (_ & H & _).
  exact (H eq_refl eq_refl).
Defined.

(** ** Facts about the Set model *)

Module SetFacts.

Import SetValidator.

(** The six tests of the validator, field by field. *)
Lemma isValid_tests (r w t : option num) (c : option bool) :
  isValid {| p_reps := r; p_weight := w; p_completed := c; p_restTime := t |}
  = negb (not_number_or (fun r => nle r (Fin 0) || negb (isInteger r)) r)
    && negb (truthy_and_gt 1000 r)
    && (negb (not_number_or (fun w => nlt w (Fin 0)) w)
        && negb (truthy_and_gt 10000 w))
    && (negb (not_number_or (fun t => nlt t (Fin 0)) t)
        && negb (truthy_and_gt 7200 t)).
Proof.
  unfold isValid, validate, errors_of. cbn [p_reps p_weight p_restTime].
  destruct (not_number_or _ r), (not_number_or _ w), (not_number_or _ t),
    (truthy_and_gt 1000 r), (truthy_and_gt 10000 w), (truthy_and_gt 7200 t);
    reflexivity.
Qed.

Lemma isValid_absent (set : PartialSet) :
  p_reps set = None \/ p_weight set = None \/ p_restTime set = None ->
  isValid set = false.
Proof.
  destruct set as [r w c t]. cbn [p_reps p_weight p_restTime]. rewrite isValid_tests.
  intros [-> | [-> | ->]]; cbn [not_number_or negb andb];
    rewrite ?andb_false_r; reflexivity.
Qed.

Lemma Qle_bool_false (a b : Q) : Qle_bool a b = false <-> b < a.
Proof.
  split; intros H.
  - apply Qnot_le_lt. intros Hle. apply Qle_bool_iff in Hle. congruence.
  - destruct (Qle_bool a b) eqn:E; [|reflexivity].
    apply Qle_bool_iff in E. apply Qlt_not_le in H. contradiction.
Qed.

Lemma Qeq_bool_false (a b : Q) : Qeq_bool a b = false <-> ~ a == b.
Proof.
  split; intros H.
  - intros E. apply Qeq_bool_iff in E. congruence.
  - destruct (Qeq_bool a b) eqn:E; [|reflexivity].
    apply Qeq_bool_iff in E. contradiction.
Qed.

(** A number within bounds, as the two tests of the validator see it. *)
Lemma bounded_iff (x bound : Q) :
  0 <= bound ->
  (Qle_bool 0 x && negb (negb (Qeq_bool x 0) && Qgtb x bound) = true
   <-> 0 <= x /\ x <= bound).
Proof.
  intros Hb. unfold Qgtb.
  rewrite andb_true_iff, negb_true_iff, andb_false_iff, !negb_false_iff,
    Qle_bool_iff, Qeq_bool_iff, Qle_bool_iff.
  split.
  - intros (H0 & [Hz|Hle]); split; auto. rewrite Hz. exact Hb.
  - intros (H0 & Hle). auto.
Qed.

(** The repetitions the validator lets through. *)
Lemma reps_tests (r : option num) :
  negb (not_number_or (fun r => nle r (Fin 0) || negb (isInteger r)) r)
  && negb (truthy_and_gt 1000 r) = true
  <-> exists q, r = Some (Fin q) /\ 0 < q /\ q <= 1000 /\ Q_isInteger q = true.
Proof.
  destruct r as [[q| | |]|];
    cbn [not_number_or truthy_and_gt truthy isInteger nle nlt ngt];
    try (split; [discriminate | intros (q' & H & _); discriminate]).
  rewrite andb_true_iff, !negb_true_iff, orb_false_iff, andb_false_iff,
    !negb_false_iff, Qle_bool_false, Qeq_bool_iff, Qle_bool_iff.
  split.
  - intros ((Hpos & Hint) & [Hz|Hle]).
    + rewrite Hz in Hpos. now apply Qlt_irrefl in Hpos.
    + exists q. tauto.
  - intros (q' & Hq & H). injection Hq as <-. tauto.
Qed.

(** The weight or rest time the validator lets through. *)
Lemma number_tests (bound : Q) (v : option num) :
  0 <= bound ->
  (negb (not_number_or (fun w => nlt w (Fin 0)) v) && negb (truthy_and_gt bound v) = true
   <-> exists x, v = Some x /\ Spec.withinOrNaN bound x).
Proof.
  intros Hb.
  destruct v as [[q| | |]|]; cbn [not_number_or truthy_and_gt truthy nlt ngt].
  - rewrite negb_involutive.
    change (negb (Qle_bool q bound)) with (Qgtb q bound).
    rewrite (bounded_iff q bound Hb). split.
    + intros H. exists (Fin q). split; [reflexivity | exact H].
    + intros (x & Hx & H). injection Hx as <-. exact H.
  - split; [discriminate | intros (x & Hx & H); injection Hx as <-; contradiction].
  - split; [discriminate | intros (x & Hx & H); injection Hx as <-; contradiction].
  - split; [intros _; exists NaN; split; [reflexivity | exact I] | reflexivity].
  - split; [discriminate | intros (x & Hx & _); discriminate].
Qed.

(** What the validator lets through, whatever the data. *)
Lemma isValid_data (data : PartialSet) :
  isValid data = true
  <-> exists r w t,
        p_reps data = Some (Fin r) /\ p_weight data = Some w /\ p_restTime data = Some t
        /\ 0 < r /\ r <= 1000 /\ Q_isInteger r = true
        /\ Spec.withinOrNaN 10000 w /\ Spec.withinOrNaN 7200 t.
Proof.
  destruct data as [r w c t]. cbn [p_reps p_weight p_restTime].
  rewrite isValid_tests. do 2 rewrite andb_true_iff.
  rewrite reps_tests, !number_tests by discriminate.
  split.
  - intros (((q & -> & H1) & (x & -> & H2)) & (y & -> & H3)).
    exists q, x, y. tauto.
  - intros (q & x & y & Hq & Hx & Hy & H). subst r w t.
    split; [split|]; [exists q | exists x | exists y]; tauto.
Qed.

Lemma isValid_iff (r w t : Q) (c : option bool) :
  isValid {| p_reps := Some (Fin r); p_weight := Some (Fin w); p_completed := c;
             p_restTime := Some (Fin t) |} = true
  <-> (0 < r /\ r <= 1000 /\ Q_isInteger r = true
       /\ 0 <= w /\ w <= 10000 /\ 0 <= t /\ t <= 7200).
Proof.
  rewrite isValid_data. cbn [p_reps p_weight p_restTime].
  split.
  - intros (q & x & y & Hq & Hx & Hy & H).
    injection Hq as <-. injection Hx as <-. injection Hy as <-.
    cbn [Spec.withinOrNaN] in H. tauto.
  - intros H. exists r, (Fin w), (Fin t). cbn [Spec.withinOrNaN]. tauto.
Qed.

Lemma Q_isInteger_comp (a b : Q) : a == b -> Q_isInteger a = Q_isInteger b.
Proof. intros H. unfold Q_isInteger. now rewrite (Qred_complete a b H). Qed.

Lemma isInteger_floor (r : Q) : Q_isInteger r = true -> inject_Z (Qfloor r) == r.
Proof.
  unfold Q_isInteger. intros H. apply Pos.eqb_eq in H.
  rewrite <- (Qred_correct r) at 2.
  rewrite <- (Qfloor_comp (Qred r) r (Qred_correct r)).
  destruct (Qred r) as [n d]. simpl in H. subst d. simpl.
  now rewrite Z.div_1_r.
Qed.

(** What [sanitize] makes of a weight or a rest time the validator lets
    through: the number itself, and 0 of [NaN]. *)
Lemma sanitize_number (bound : Q) (v : num) :
  0 <= bound ->
  Spec.withinOrNaN bound v ->
  exists x, nmax (Fin 0) (or0 (Some v)) = Fin x
            /\ x == SetModel.finite v /\ 0 <= x /\ x <= bound.
Proof.
  intros Hbound.
  destruct v as [q| | |]; cbn [Spec.withinOrNaN or0 n_or0 SetModel.finite];
    try contradiction.
  - intros (H0 & Hb). destruct (Qeq_bool q 0) eqn:E.
    + apply Qeq_bool_iff in E. exists 0. split; [reflexivity|]. rewrite E.
      split; [reflexivity|]. split; [apply Qle_refl | exact Hbound].
    + cbn [nmax nlt]. destruct (Qle_bool q 0) eqn:E0; cbn [negb].
      * apply Qle_bool_iff in E0. exists 0. split; [reflexivity|].
        assert (Hq : q == 0) by now apply Qle_antisym.
        rewrite Hq. split; [reflexivity|]. split; [apply Qle_refl | exact Hbound].
      * exists q. split; [reflexivity|]. split; [reflexivity | tauto].
  - intros _. exists 0. split; [reflexivity|]. split; [reflexivity|].
    split; [apply Qle_refl | exact Hbound].
Qed.

(** What [sanitize] makes of repetitions the validator lets through. *)
Lemma sanitize_reps (r : Q) :
  0 < r -> Q_isInteger r = true ->
  exists x, nmax (Fin 0) (floor (or0 (Some (Fin r)))) = Fin x /\ x == r.
Proof.
  intros Hr Hi. cbn [or0 n_or0].
  rewrite (proj2 (Qeq_bool_false r 0)) by (intros E; rewrite E in Hr; now apply Qlt_irrefl in Hr).
  cbn [floor nmax nlt].
  pose proof (isInteger_floor r Hi) as Hfloor.
  rewrite (proj2 (Qle_bool_false (inject_Z (Qfloor r)) 0)) by now rewrite Hfloor.
  cbn [negb]. exists (inject_Z (Qfloor r)). split; [reflexivity | exact Hfloor].
Qed.

(** The numbers of validated data are finite after [sanitize]. *)
Lemma sanitize_finite (data : PartialSet) :
  isValid data = true ->
  exists r w t,
    s_reps (sanitize data) = Fin r /\ s_weight (sanitize data) = Fin w
    /\ s_restTime (sanitize data) = Fin t.
Proof.
  intros Hv. apply isValid_data in Hv.
  destruct Hv as (r & w & t & Hr & Hw & Ht & H1 & H2 & H3 & H4 & H5).
  unfold sanitize. rewrite Hr, Hw, Ht. cbn [s_reps s_weight s_restTime].
  destruct (sanitize_reps r H1 H3) as (x & Hx & _).
  destruct (sanitize_number 10000 w ltac:(discriminate) H4) as (y & Hy & _).
  destruct (sanitize_number 7200 t ltac:(discriminate) H5) as (z & Hz & _).
  exists x, y, z. auto.
Qed.

(** [sanitize] keeps the numbers of a set that [validate] accepts. *)
Lemma sanitize_valid (r w t : Q) (c : option bool) :
  0 < r -> Q_isInteger r = true -> 0 <= w -> 0 <= t ->
  let s := SetModel.held
             (sanitize {| p_reps := Some (Fin r); p_weight := Some (Fin w);
                          p_completed := c; p_restTime := Some (Fin t) |}) in
  reps s == r /\ weight s == w /\ restTime s == t.
Proof.
  intros Hr Hi Hw Ht. unfold SetModel.held, sanitize.
  cbn [p_reps p_weight p_restTime reps weight restTime s_reps s_weight s_restTime].
  destruct (sanitize_reps r Hr Hi) as (x & Hx & Ex).
  destruct (sanitize_number w (Fin w) Hw (conj Hw (Qle_refl w))) as (y & Hy & Ey & _).
  destruct (sanitize_number t (Fin t) Ht (conj Ht (Qle_refl t))) as (z & Hz & Ez & _).
  rewrite Hx, Hy, Hz. cbn [SetModel.finite] in *. auto.
Qed.

Lemma validSet_same (a b : WorkoutSet) :
  Spec.sameSet a b -> Spec.validSet a -> Spec.validSet b.
Proof.
  intros (Hr & Hw & Ht & _). unfold Spec.validSet.
  rewrite (Q_isInteger_comp _ _ Hr), Hr, Hw, Ht. tauto.
Qed.

Lemma new_run (data : PartialSet) :
  SetModel.new data
  = if isValid data then Ok (SetModel.held (sanitize data))
    else Err ("Invalid set data: " ++ String.concat ", " (errors_of data))%string.
Proof.
  unfold SetModel.new, isValid, validate. simpl.
  destruct (Nat.eqb (List.length (errors_of data)) 0); reflexivity.
Qed.

(** What the constructor accepts, and what the object then holds. *)
Lemma new_accepts (r w t : Q) (c : option bool) :
  0 < r -> r <= 1000 -> Q_isInteger r = true ->
  0 <= w -> w <= 10000 -> 0 <= t -> t <= 7200 ->
  exists s,
    SetModel.new {| p_reps := Some (Fin r); p_weight := Some (Fin w); p_completed := c;
                    p_restTime := Some (Fin t) |} = Ok s
    /\ reps s == r /\ weight s == w /\ restTime s == t
    /\ completed s = match c with Some b => b | None => true end.
Proof.
  intros Hr Hr' Hi Hw Hw' Ht Ht'. eexists. rewrite new_run.
  rewrite (proj2 (isValid_iff r w t c)) by tauto.
  split; [reflexivity|].
  destruct (sanitize_valid r w t c Hr Hi Hw Ht) as (H1 & H2 & H3).
  repeat (split; [assumption|]). reflexivity.
Qed.

(** What the model holds of data the constructor accepts. *)
Lemma new_holds (data : PartialSet) (s : WorkoutSet) :
  SetModel.new data = Ok s ->
  exists r w t,
    p_reps data = Some (Fin r) /\ p_weight data = Some w /\ p_restTime data = Some t
    /\ (0 < r /\ r <= 1000 /\ Q_isInteger r = true
        /\ Spec.withinOrNaN 10000 w /\ Spec.withinOrNaN 7200 t)
    /\ reps s == r /\ weight s == SetModel.finite w /\ restTime s == SetModel.finite t
    /\ 0 <= weight s /\ weight s <= 10000 /\ 0 <= restTime s /\ restTime s <= 7200
    /\ completed s = match p_completed data with Some b => b | None => true end.
Proof.
  rewrite new_run. destruct (isValid data) eqn:Hv; [|discriminate].
  intros Hs. injection Hs as <-. apply isValid_data in Hv.
  destruct Hv as (r & w & t & Hr & Hw & Ht & H1 & H2 & H3 & H4 & H5).
  exists r, w, t. split; [exact Hr|]. split; [exact Hw|]. split; [exact Ht|].
  split; [tauto|].
  unfold SetModel.held, sanitize. rewrite Hr, Hw, Ht.
  cbn [reps weight restTime completed s_reps s_weight s_restTime s_completed].
  destruct (sanitize_reps r H1 H3) as (x & Hx & Ex).
  destruct (sanitize_number 10000 w ltac:(discriminate) H4) as (y & Hy & Ey & Hy0 & Hy1).
  destruct (sanitize_number 7200 t ltac:(discriminate) H5) as (z & Hz & Ez & Hz0 & Hz1).
  rewrite Hx, Hy, Hz. cbn [SetModel.finite].
  repeat (split; [assumption|]). reflexivity.
Qed.

Lemma validSet_new (data : PartialSet) (s : WorkoutSet) :
  SetModel.new data = Ok s -> Spec.validSet s.
Proof.
  intros Hnew. destruct (new_holds data s Hnew)
    as (r & w & t & _ & _ & _ & (H1 & H2 & H3 & _) & Er & _ & _ & Hw0 & Hw1 & Ht0 & Ht1 & _).
  unfold Spec.validSet. rewrite (Q_isInteger_comp _ _ Er), Er. tauto.
Qed.

(** A copy of a valid set with another flag. *)
Lemma copy_completed (s : WorkoutSet) (c : bool) :
  Spec.validSet s ->
  exists s', SetModel.new (SetModel.spread_completed s c) = Ok s'
             /\ completed s' = c
             /\ reps s' == reps s /\ weight s' == weight s
             /\ restTime s' == restTime s.
Proof.
  intros (H1 & H2 & H3 & H4 & H5 & H6 & H7).
  destruct (new_accepts (reps s) (weight s) (restTime s) (Some c) H1 H2 H3 H4 H5 H6 H7)
    as (s' & Hs' & Er & Ew & Et & Ec).
  exists s'. tauto.
Qed.

Section OneRepMax.

Variable s : WorkoutSet.
Hypothesis reps_ge1 : 1 <= reps s.
Hypothesis weight_ge0 : 0 <= weight s.

Lemma estimate_formula :
  ~ reps s == 1 -> reps s <= 36 ->
  SetModel.getEstimatedOneRepMax s = weight s * (36 / (37 - reps s)).
Proof.
  intros H1 H36. unfold SetModel.getEstimatedOneRepMax, Qgtb.
  apply Qeq_bool_false in H1. apply Qle_bool_iff in H36. now rewrite H1, H36.
Qed.

Lemma estimate_guarded :
  reps s == 1 \/ 36 < reps s -> SetModel.getEstimatedOneRepMax s = weight s.
Proof.
  unfold SetModel.getEstimatedOneRepMax, Qgtb. intros [H|H].
  - apply Qeq_bool_iff in H. now rewrite H.
  - apply Qle_bool_false in H. rewrite H. simpl. now destruct (Qeq_bool (reps s) 1).
Qed.

Lemma estimate_bounds :
  weight s <= SetModel.getEstimatedOneRepMax s
  /\ SetModel.getEstimatedOneRepMax s <= 36 * weight s.
Proof.
  assert (Hw36 : weight s <= 36 * weight s) by lra.
  destruct (Qeq_dec (reps s) 1) as [H1|H1].
  { rewrite estimate_guarded by tauto. split; [apply Qle_refl | exact Hw36]. }
  destruct (Qlt_le_dec 36 (reps s)) as [H36|H36].
  { rewrite estimate_guarded by tauto. split; [apply Qle_refl | exact Hw36]. }
  rewrite (estimate_formula H1 H36).
  assert (Hd : 0 < 37 - reps s) by lra.
  assert (Hlo : 1 <= 36 / (37 - reps s)) by (apply Qle_shift_div_l; lra).
  assert (Hhi : 36 / (37 - reps s) <= 36) by (apply Qle_shift_div_r; lra).
  split.
  - setoid_replace (weight s) with (weight s * 1) at 1 by ring.
    rewrite !(Qmult_comm (weight s)). now apply Qmult_le_compat_r.
  - rewrite (Qmult_comm (weight s)). now apply Qmult_le_compat_r.
Qed.

End OneRepMax.

Lemma estimate_monotone (s s' : WorkoutSet) :
  1 <= reps s -> reps s <= reps s' -> reps s' <= 36 ->
  0 <= weight s -> weight s == weight s' ->
  SetModel.getEstimatedOneRepMax s <= SetModel.getEstimatedOneRepMax s'.
Proof.
  intros H1 Hle H36 Hw0 Hw.
  destruct (Qeq_dec (reps s) 1) as [E|E].
  - rewrite (estimate_guarded s) by tauto. rewrite Hw.
    apply estimate_bounds; lra.
  - assert (E' : ~ reps s' == 1) by lra.
    rewrite (estimate_formula s E) by lra. rewrite (estimate_formula s' E' H36).
    rewrite Hw, !(Qmult_comm (weight s')).
    apply Qmult_le_compat_r; [|lra].
    apply Qle_shift_div_r; [lra|].
    assert (Hq : 0 <= 36 / (37 - reps s')) by (apply Qle_shift_div_l; lra).
    assert (Hcancel : 36 / (37 - reps s') * (37 - reps s') == 36)
      by (field; lra).
    rewrite <- Hcancel at 1. rewrite !(Qmult_comm (36 / (37 - reps s'))).
    apply Qmult_le_compat_r; [lra | exact Hq].
Qed.

End SetFacts.


(** X15: the constructor of the Set model accepts exactly the data with
    repetitions, weight and rest time present, the repetitions a positive
    integer of at most 1000, the weight a number from 0 to 10000 or [NaN],
    and the rest time a number from 0 to 7200 or [NaN]; an infinity is
    rejected everywhere, and [NaN] as repetitions.  The numbers are finite
    after [sanitize], and the object holds the repetitions, the weight and
    the rest time given, with 0 in the place of [NaN]; a completed flag left
    out counts as true. *)
Theorem SetModel_new_accepts :
  forall data : PartialSet,
    ((exists s, SetModel.new data = Ok s)
     <-> (exists r w t,
            p_reps data = Some (Fin r) /\ p_weight data = Some w
            /\ p_restTime data = Some t
            /\ 0 < r /\ r <= 1000 /\ Q_isInteger r = true
            /\ Spec.withinOrNaN 10000 w /\ Spec.withinOrNaN 7200 t))
    /\ (forall s, SetModel.new data = Ok s ->
          exists r w t,
            SetValidator.s_reps (SetValidator.sanitize data) = Fin r
            /\ SetValidator.s_weight (SetValidator.sanitize data) = Fin w
            /\ SetValidator.s_restTime (SetValidator.sanitize data) = Fin t
            /\ s = {| reps := r; weight := w;
                      completed := SetValidator.s_completed (SetValidator.sanitize data);
                      restTime := t |})
    /\ (forall s r w t,
          SetModel.new data = Ok s ->
          p_reps data = Some (Fin r) -> p_weight data = Some w -> p_restTime data = Some t ->
          reps s == r
          /\ weight s == match w with Fin x => x | _ => 0 end
          /\ restTime s == match t with Fin x => x | _ => 0 end
          /\ completed s = match p_completed data with Some c => c | None => true end).
Proof.
  intros data. split; [split|split].
  - intros (s & Hs).
    destruct (SetFacts.new_holds data s Hs) as (r & w & t & Hr & Hw & Ht & H & _).
    exists r, w, t. tauto.
  - intros H. apply SetFacts.isValid_data in H.
    rewrite SetFacts.new_run, H. eexists. reflexivity.
  - intros s Hs. rewrite SetFacts.new_run in Hs.
    destruct (SetValidator.isValid data) eqn:Hv; [|discriminate].
    injection Hs as <-.
    destruct (SetFacts.sanitize_finite data Hv) as (r & w & t & Hr & Hw & Ht).
    exists r, w, t. unfold SetModel.held. rewrite Hr, Hw, Ht. auto.
  - intros s r w t Hnew Hr Hw Ht.
    destruct (SetFacts.new_holds data s Hnew)
      as (r' & w' & t' & Hr' & Hw' & Ht' & _ & Er & Ew & Et & _ & _ & _ & _ & Ec).
    rewrite Hr in Hr'. rewrite Hw in Hw'. rewrite Ht in Ht'.
    injection Hr' as <-. injection Hw' as <-. injection Ht' as <-.
    unfold SetModel.finite in Ew, Et. auto.
Qed.

(** X15 at work: a thousand repetitions are accepted; a weight that is
    [NaN] is accepted and held as 0; infinite repetitions are refused. *)
Lemma SetModel_new_sample :
  (exists s, SetModel.new {| p_reps := Some (Fin 1000); p_weight := Some (Fin 0);
                             p_completed := None; p_restTime := Some (Fin 7200) |}
             = Ok s)
  /\ (exists s, SetModel.new {| p_reps := Some (Fin 10); p_weight := Some NaN;
                                p_completed := None; p_restTime := Some (Fin 60) |}
                = Ok s
                /\ weight s == 0)
  /\ ~ (exists s, SetModel.new {| p_reps := Some PInf; p_weight := Some (Fin 80);
                                  p_completed := None; p_restTime := Some (Fin 60) |}
                  = Ok s).
Proof.
  split; [|split].
  - apply (proj1 (SetModel_new_accepts _)).
    exists 1000, (Fin 0), (Fin 7200). cbn [Spec.withinOrNaN].
    repeat split; try reflexivity; discriminate.
  - destruct (proj2 (proj1 (SetModel_new_accepts
                {| p_reps := Some (Fin 10); p_weight := Some NaN;
                   p_completed := None; p_restTime := Some (Fin 60) |})))
      as (s & Hs).
    { exists 10, NaN, (Fin 60). cbn [Spec.withinOrNaN].
      repeat split; try reflexivity; discriminate. }
    exists s. split; [exact Hs|].
    exact (proj1 (proj2 (proj2 (proj2 (SetModel_new_accepts _))
                          s 10 NaN (Fin 60) Hs eq_refl eq_refl eq_refl))).
  - intros H. apply (proj1 (SetModel_new_accepts _)) in H.
    destruct H as (r & w & t & Hr & _). discriminate Hr.
Defined.

(** X16: a Set model holds valid numbers, and so do its copies:
    [markCompleted] and [markIncomplete] never throw and change the flag
    only; [updateRestTime] changes the rest time only, and throws exactly
    when the new rest time is negative or above 7200. *)
Theorem SetModel_copies_stay_valid :
  forall (data : PartialSet) (s : WorkoutSet),
    SetModel.new data = Ok s ->
    Spec.validSet s
    /\ (exists s', SetModel.markCompleted s = Ok s' /\ completed s' = true
                   /\ reps s' == reps s /\ weight s' == weight s
                   /\ restTime s' == restTime s)
    /\ (exists s', SetModel.markIncomplete s = Ok s' /\ completed s' = false
                   /\ reps s' == reps s /\ weight s' == weight s
                   /\ restTime s' == restTime s)
    /\ (forall t, 0 <= t -> t <= 7200 ->
          exists s', SetModel.updateRestTime s t = Ok s' /\ restTime s' == t
                     /\ reps s' == reps s /\ weight s' == weight s
                     /\ completed s' = completed s)
    /\ (forall t, t < 0 \/ 7200 < t ->
          exists msg, SetModel.updateRestTime s t = Err msg).
Proof.
  intros data s Hnew. pose proof (SetFacts.validSet_new data s Hnew) as Hv.
  split; [exact Hv|].
  split; [exact (SetFacts.copy_completed s true Hv)|].
  split; [exact (SetFacts.copy_completed s false Hv)|].
  destruct Hv as (H1 & H2 & H3 & H4 & H5 & H6 & H7).
  split.
  - intros t Ht Ht'.
    destruct (SetFacts.new_accepts (reps s) (weight s) t (Some (completed s))
                H1 H2 H3 H4 H5 Ht Ht') as (s' & Hs' & Er & Ew & Et & Ec).
    exists s'. unfold SetModel.updateRestTime, SetModel.spread_restTime. tauto.
  - intros t Ht. unfold SetModel.updateRestTime. rewrite SetFacts.new_run.
    destruct (SetValidator.isValid (SetModel.spread_restTime s t)) eqn:Hvalid;
      [|eexists; reflexivity].
    apply SetFacts.isValid_iff in Hvalid. lra.
Qed.

Lemma SetModel_copies_sample :
  exists s', SetModel.markIncomplete (Sample.mkSet 10 80) = Ok s'
             /\ completed s' = false /\ reps s' == 10.
Proof.
  destruct (SetModel_copies_stay_valid (SetModel.spread (Sample.mkSet 10 80))
              (Sample.mkSet 10 80) eq_refl) as (_ & _ & (s' & Hs' & Hc & Hr & _) & _).
  exists s'. split; [exact Hs'|]. split; [exact Hc | exact Hr].
Defined.

(** X17: for a set of at least one repetition and a weight that is not
    negative, the estimated one-repetition maximum is at least the weight
    and at most 36 times the weight; up to 36 repetitions more repetitions
    at the same weight never lower it; and from 36 to 37 repetitions it falls
    from 36 times the weight back to the weight. *)
Theorem getEstimatedOneRepMax_bounds :
  forall s s' : WorkoutSet,
    1 <= reps s -> 0 <= weight s -> weight s == weight s' ->
    (weight s <= SetModel.getEstimatedOneRepMax s
     /\ SetModel.getEstimatedOneRepMax s <= 36 * weight s)
    /\ (reps s <= reps s' -> reps s' <= 36 ->
        SetModel.getEstimatedOneRepMax s <= SetModel.getEstimatedOneRepMax s')
    /\ (reps s == 36 -> reps s' == 37 ->
        SetModel.getEstimatedOneRepMax s == 36 * weight s
        /\ SetModel.getEstimatedOneRepMax s' = weight s').
Proof.
  intros s s' H1 Hw0 Hw.
  split; [now apply SetFacts.estimate_bounds|].
  split; [intros; now apply SetFacts.estimate_monotone|].
  intros H36 H37. split.
  - rewrite SetFacts.estimate_formula by lra. rewrite H36. field.
  - apply SetFacts.estimate_guarded. right. lra.
Qed.

Lemma getEstimatedOneRepMax_sample :
  SetModel.getEstimatedOneRepMax (Sample.mkSet 36 100) == 3600
  /\ SetModel.getEstimatedOneRepMax (Sample.mkSet 37 100) = 100.
Proof.
  destruct (getEstimatedOneRepMax_bounds (Sample.mkSet 36 100) (Sample.mkSet 37 100))
    as (_ & _ & H); [discriminate | discriminate | reflexivity |].
  destruct (H ltac:(reflexivity) ltac:(reflexivity)) as (Ha & Hb).
  split; [rewrite Ha; reflexivity | exact Hb].
Defined.



(** ** Facts about the progress queries *)

Module TotalsFacts.

Import ProgressService.






End TotalsFacts.

Module FrequencyFacts.

Import ProgressService.







End FrequencyFacts.

Module TrendFacts.

Import ProgressService.

Lemma ngt_Fin (a b : Q) : ngt (Fin a) (Fin b) = true <-> b < a.
Proof.
  unfold ngt, nlt. rewrite negb_true_iff. apply SetFacts.Qle_bool_false.
Qed.

Lemma nlt_Fin (a b : Q) : nlt (Fin a) (Fin b) = true <-> a < b.
Proof.
  unfold nlt. rewrite negb_true_iff. apply SetFacts.Qle_bool_false.
Qed.

Lemma div_gt_pos (a f c : Q) : 0 < f -> (c < a / f <-> c * f < a).
Proof.
  intros Hf. split; intros H.
  - assert (Ha : a == a / f * f) by (field; lra). rewrite Ha.
    apply Qmult_lt_compat_r; assumption.
  - apply Qlt_shift_div_l; assumption.
Qed.

Lemma div_lt_pos (a f c : Q) : 0 < f -> (a / f < c <-> a < c * f).
Proof.
  intros Hf. split; intros H.
  - assert (Ha : a == a / f * f) by (field; lra). rewrite Ha.
    apply Qmult_lt_compat_r; assumption.
  - apply Qlt_shift_div_r; assumption.
Qed.

Lemma div_gt_neg (a f c : Q) : f < 0 -> (c < a / f <-> a < c * f).
Proof.
  intros Hf. assert (E : a / f == (- a) / (- f)) by (field; lra).
  rewrite E, div_gt_pos by lra. split; intros H; lra.
Qed.

Lemma div_lt_neg (a f c : Q) : f < 0 -> (a / f < c <-> c * f < a).
Proof.
  intros Hf. assert (E : a / f == (- a) / (- f)) by (field; lra).
  rewrite E, div_lt_pos by lra. split; intros H; lra.
Qed.

Lemma last_end {A : Type} (l : list A) (x d : A) : last (l ++ [x]) d = x.
Proof. apply last_last. Qed.

(** The trend of a list that starts at [f] and ends at [l]. *)
Lemma trend_run (f l : Q) (middle : list num) :
  calculateTrendDirection (Fin f :: middle ++ [Fin l])
  = let change := ndiv (Fin (l + - f)) (Fin f) in
    if ngt change (Fin (5 # 100)) then up
    else if nlt change (Fin (- (5 # 100))) then down
    else stable.
Proof.
  unfold calculateTrendDirection.
  assert (Hlen : Nat.ltb (List.length (Fin f :: middle ++ [Fin l])) 2 = false).
  { apply Nat.ltb_ge. simpl. rewrite length_app. simpl. lia. }
  rewrite Hlen.
  assert (Hlast : last (Fin f :: middle ++ [Fin l]) (Fin f) = Fin l)
    by apply (last_end (Fin f :: middle)).
  cbv zeta. rewrite Hlast. reflexivity.
Qed.

Lemma trend_cases (t : Trend) (c : num) :
  t = (if ngt c (Fin (5 # 100)) then up
       else if nlt c (Fin (- (5 # 100))) then down else stable) ->
  (t = up <-> ngt c (Fin (5 # 100)) = true)
  /\ (t = down <-> ngt c (Fin (5 # 100)) = false /\ nlt c (Fin (- (5 # 100))) = true).
Proof.
  intros ->. destruct (ngt c (Fin (5 # 100))), (nlt c (Fin (- (5 # 100))));
    split; split; intros H; try discriminate; try tauto; try reflexivity;
    destruct H; discriminate.
Qed.

End TrendFacts.

(** X21: the trend of a list of two or more numbers that starts at a
    finite [f] and ends at a finite [l] depends on the two ends only.  For a
    positive start, a trend up means an end above the start and a trend down
    an end below it; an end at least 6% above the start gives up, an end at
    least 6% below it gives down, and an end within 4% of the start gives
    stable.  From a start of 0 (the positive zero that a sum from 0 or
    [Math.max(0, ...)] gives) the trend is up for a positive end and down
    for a negative one.  For a negative start the reading is reversed: up
    means an end below the start, down an end above it. *)
Theorem calculateTrendDirection_cases :
  forall (f l : Q) (middle : list num),
    let t := calculateTrendDirection (Fin f :: middle ++ [Fin l]) in
    (0 < f ->
     (t = up -> f < l) /\ (t = down -> l < f)
     /\ ((106 # 100) * f <= l -> t = up)
     /\ (l <= (94 # 100) * f -> t = down)
     /\ ((96 # 100) * f <= l -> l <= (104 # 100) * f -> t = stable))
    /\ (f == 0 -> (t = up <-> 0 < l) /\ (t = down <-> l < 0))
    /\ (f < 0 ->
        (t = up -> l < f) /\ (t = down -> f < l)
        /\ (l <= (106 # 100) * f -> t = up)
        /\ ((94 # 100) * f <= l -> t = down)
        /\ ((104 # 100) * f <= l -> l <= (96 # 100) * f -> t = stable)).
Proof.
  intros f l middle t.
  pose proof (TrendFacts.trend_run f l middle) as Hrun. fold t in Hrun. cbv zeta in Hrun.
  destruct (TrendFacts.trend_cases t _ Hrun) as (Hup & Hdown).
  assert (Hstable : t = stable
                    <-> ngt (ndiv (Fin (l + - f)) (Fin f)) (Fin (5 # 100)) = false
                        /\ nlt (ndiv (Fin (l + - f)) (Fin f)) (Fin (- (5 # 100))) = false).
  { rewrite Hrun.
    destruct (ngt _ (Fin (5 # 100))), (nlt _ (Fin (- (5 # 100))));
      split; intros H; try discriminate; try tauto; destruct H; discriminate. }
  clear Hrun. unfold ndiv in Hup, Hdown, Hstable.
  split; [|split]; intros Hf.
  - rewrite (proj2 (SetFacts.Qeq_bool_false f 0)) in Hup, Hdown, Hstable by lra.
    assert (Hgt : ngt (Fin ((l + - f) / f)) (Fin (5 # 100)) = true
                  <-> (105 # 100) * f < l).
    { rewrite TrendFacts.ngt_Fin, TrendFacts.div_gt_pos by assumption.
      split; intros H; lra. }
    assert (Hlt : nlt (Fin ((l + - f) / f)) (Fin (- (5 # 100))) = true
                  <-> l < (95 # 100) * f).
    { rewrite TrendFacts.nlt_Fin, TrendFacts.div_lt_pos by assumption.
      split; intros H; lra. }
    split; [intros H; apply Hup, Hgt in H; lra|].
    split; [intros H; apply Hdown in H; destruct H as (_ & H); apply Hlt in H; lra|].
    split; [intros H; apply Hup, Hgt; lra|].
    split.
    + intros H. apply Hdown. split; [|apply Hlt; lra].
      apply Bool.not_true_iff_false. intros E. apply Hgt in E. lra.
    + intros H1 H2. apply Hstable. split.
      * apply Bool.not_true_iff_false. intros E. apply Hgt in E. lra.
      * apply Bool.not_true_iff_false. intros E. apply Hlt in E. lra.
  - rewrite Hup, Hdown. rewrite (proj2 (Qeq_bool_iff f 0) Hf). unfold sign_case.
    destruct (Qcompare_spec (l + - f) 0) as [E|E|E]; cbn [ngt nlt].
    + split; split; try discriminate; try (intros (_ & ?); discriminate);
        intros H; exfalso; lra.
    + split; [split; [discriminate | intros H; exfalso; lra]|].
      split; [intros _; lra | intros _; split; reflexivity].
    + split; [split; [intros _; lra | reflexivity]|].
      split; [intros (? & _); discriminate | intros H; exfalso; lra].
  - rewrite (proj2 (SetFacts.Qeq_bool_false f 0)) in Hup, Hdown, Hstable by lra.
    assert (Hgt : ngt (Fin ((l + - f) / f)) (Fin (5 # 100)) = true
                  <-> l < (105 # 100) * f).
    { rewrite TrendFacts.ngt_Fin, TrendFacts.div_gt_neg by assumption.
      split; intros H; lra. }
    assert (Hlt : nlt (Fin ((l + - f) / f)) (Fin (- (5 # 100))) = true
                  <-> (95 # 100) * f < l).
    { rewrite TrendFacts.nlt_Fin, TrendFacts.div_lt_neg by assumption.
      split; intros H; lra. }
    split; [intros H; apply Hup, Hgt in H; lra|].
    split; [intros H; apply Hdown in H; destruct H as (_ & H); apply Hlt in H; lra|].
    split; [intros H; apply Hup, Hgt; lra|].
    split.
    + intros H. apply Hdown. split; [|apply Hlt; lra].
      apply Bool.not_true_iff_false. intros E. apply Hgt in E. lra.
    + intros H1 H2. apply Hstable. split.
      * apply Bool.not_true_iff_false. intros E. apply Hgt in E. lra.
      * apply Bool.not_true_iff_false. intros E. apply Hlt in E. lra.
Qed.

Module PercentageFacts.

Import ProgressService.

Lemma heaviest_from (l : list WorkoutSet) (a : Q) :
  exists q, fold_left nmax (map (fun s => Fin (weight s)) l) (Fin a) = Fin q
            /\ a <= q /\ forall s, In s l -> weight s <= q.
Proof.
  revert a. induction l as [|x l IH]; intros a; simpl.
  - exists a. split; [reflexivity|]. split; [apply Qle_refl | contradiction].
  - destruct (Qle_bool (weight x) a) eqn:E; simpl.
    + apply Qle_bool_iff in E. destruct (IH a) as (q & Hq & Ha & Hl).
      exists q. split; [exact Hq|]. split; [exact Ha|].
      intros s [<-|Hs]; [lra | now apply Hl].
    + apply SetFacts.Qle_bool_false in E. destruct (IH (weight x)) as (q & Hq & Ha & Hl).
      exists q. split; [exact Hq|]. split; [lra|].
      intros s [<-|Hs]; [lra | now apply Hl].
Qed.

Lemma heaviest_le (l : list WorkoutSet) (a bound : Q) :
  a <= bound ->
  (forall s, In s l -> weight s <= bound) ->
  exists q, fold_left nmax (map (fun s => Fin (weight s)) l) (Fin a) = Fin q
            /\ q <= bound.
Proof.
  revert a. induction l as [|x l IH]; intros a Ha Hall; simpl.
  - exists a. split; [reflexivity | exact Ha].
  - destruct (Qle_bool (weight x) a); simpl.
    + apply IH; [exact Ha | intros s Hs; apply Hall; now right].
    + apply IH; [apply Hall; now left | intros s Hs; apply Hall; now right].
Qed.

Lemma maxWeightOf_none (e : WorkoutExercise) : sets e = [] -> maxWeightOf e = NInf.
Proof. intros H. unfold maxWeightOf. now rewrite H. Qed.

Lemma maxWeightOf_some (e : WorkoutExercise) :
  sets e <> [] ->
  exists q, maxWeightOf e = Fin q /\ forall s, In s (sets e) -> weight s <= q.
Proof.
  unfold maxWeightOf, nmax_list. destruct (sets e) as [|x l]; [congruence|]. intros _.
  simpl. destruct (heaviest_from l (weight x)) as (q & Hq & Ha & Hl).
  exists q. split; [exact Hq|]. intros s [<-|Hs]; [exact Ha | now apply Hl].
Qed.

Lemma maxWeightOf_form (e : WorkoutExercise) :
  maxWeightOf e = NInf \/ exists q, maxWeightOf e = Fin q.
Proof.
  destruct (sets e) as [|x l] eqn:E.
  - left. now apply maxWeightOf_none.
  - right. destruct (maxWeightOf_some e) as (q & Hq & _); [congruence|]. now exists q.
Qed.

(** The percentage once the two sessions and their entries are found. *)
Lemma percentage_run (ws : list Workout) (id : string) (w0 : Workout)
  (rest : list Workout) (e1 e2 : WorkoutExercise) :
  (2 <= List.length ws)%nat ->
  js_sort byStartTimeAsc ws = w0 :: rest ->
  findExercise id w0 = Some e1 ->
  findExercise id (last (w0 :: rest) w0) = Some e2 ->
  calculateProgressPercentage ws id
  = if ngt (maxWeightOf e1) (Fin 0)
    then nmul (ndiv (nsub (maxWeightOf e2) (maxWeightOf e1)) (maxWeightOf e1)) (Fin 100)
    else Fin 0.
Proof.
  intros Hlen Hsort H1 H2. unfold calculateProgressPercentage.
  rewrite (proj2 (Nat.ltb_ge _ _) Hlen). cbv zeta. now rewrite Hsort, H1, H2.
Qed.

Lemma percentage_lost (ws : list Workout) (id : string) (w0 : Workout)
  (rest : list Workout) (e1 e2 : WorkoutExercise) :
  (2 <= List.length ws)%nat ->
  js_sort byStartTimeAsc ws = w0 :: rest ->
  findExercise id w0 = Some e1 ->
  findExercise id (last (w0 :: rest) w0) = Some e2 ->
  (exists s, In s (sets e1) /\ 0 < weight s) ->
  sets e2 = [] ->
  calculateProgressPercentage ws id = NInf.
Proof.
  intros Hlen Hsort H1 H2 (s & Hs & Hpos) Hempty.
  unfold calculateProgressPercentage.
  rewrite (proj2 (Nat.ltb_ge _ _) Hlen). cbv zeta. rewrite Hsort, H1, H2.
  rewrite (maxWeightOf_none e2 Hempty).
  destruct (maxWeightOf_some e1) as (q & Hq & Hall).
  { intros E. rewrite E in Hs. contradiction. }
  rewrite Hq. specialize (Hall s Hs).
  rewrite (proj2 (TrendFacts.ngt_Fin q 0)) by lra. simpl.
  rewrite (proj2 (Qle_bool_iff 0 q)) by lra. reflexivity.
Qed.

End PercentageFacts.

Lemma calculateTrendDirection_sample :
  calculateTrendDirection [Fin 100; Fin 90; Fin 106] = up
  /\ calculateTrendDirection [Fin 100; Fin 120; Fin 103] = stable.
Proof.
  split.
  - destruct (calculateTrendDirection_cases 100 106 [Fin 90]) as (H & _).
    destruct (H ltac:(reflexivity)) as (_ & _ & Hup & _).
    apply Hup. unfold Qle. simpl. lia.
  - destruct (calculateTrendDirection_cases 100 103 [Fin 120]) as (H & _).
    destruct (H ltac:(reflexivity)) as (_ & _ & _ & _ & Hstable).
    apply Hstable; unfold Qle; simpl; lia.
Defined.





(** X22: the progress percentage compares the heaviest set of the exercise
    in the oldest and in the newest session.  It is 0 for fewer than two
    sessions, and 0 when no set of the oldest session has a positive weight.
    When the heaviest set of the oldest session has a positive weight, the
    percentage is above 0 if the heaviest set of the newest session is
    heavier, below 0 if it is lighter and 0 if it is as heavy; and it is
    minus infinity when the newest session lists the exercise without any
    set. *)
Theorem progressPercentage_cases :
  (forall (ws : list Workout) (id : string),
      (List.length ws < 2)%nat -> calculateProgressPercentage ws id = Fin 0)
  /\ (forall (ws : list Workout) (id : string) (oldest : Workout) (rest : list Workout)
             (e1 e2 : WorkoutExercise),
      (2 <= List.length ws)%nat ->
      js_sort byStartTimeAsc ws = oldest :: rest ->
      findExercise id oldest = Some e1 ->
      findExercise id (last (oldest :: rest) oldest) = Some e2 ->
      (forall s, In s (sets e1) -> weight s <= 0) ->
      calculateProgressPercentage ws id = Fin 0)
  /\ (forall (ws : list Workout) (id : string) (oldest : Workout) (rest : list Workout)
             (e1 e2 : WorkoutExercise) (a b : Q),
      (2 <= List.length ws)%nat ->
      js_sort byStartTimeAsc ws = oldest :: rest ->
      findExercise id oldest = Some e1 ->
      findExercise id (last (oldest :: rest) oldest) = Some e2 ->
      maxWeightOf e1 = Fin a ->
      maxWeightOf e2 = Fin b ->
      0 < a ->
      (a < b -> ngt (calculateProgressPercentage ws id) (Fin 0) = true)
      /\ (b < a -> nlt (calculateProgressPercentage ws id) (Fin 0) = true)
      /\ (a == b -> num_eq (calculateProgressPercentage ws id) (Fin 0)))
  /\ (forall (ws : list Workout) (id : string) (oldest : Workout) (rest : list Workout)
             (e1 e2 : WorkoutExercise),
      (2 <= List.length ws)%nat ->
      js_sort byStartTimeAsc ws = oldest :: rest ->
      findExercise id oldest = Some e1 ->
      findExercise id (last (oldest :: rest) oldest) = Some e2 ->
      (exists s, In s (sets e1) /\ 0 < weight s) ->
      sets e2 = [] ->
      calculateProgressPercentage ws id = NInf).
Proof.
  split; [|split; [|split]].
  - intros ws id Hlen. unfold calculateProgressPercentage.
    now rewrite (proj2 (Nat.ltb_lt _ _) Hlen).
  - intros ws id oldest rest e1 e2 Hlen Hsort H1 H2 Hall.
    rewrite (PercentageFacts.percentage_run ws id oldest rest e1 e2 Hlen Hsort H1 H2).
    destruct (PercentageFacts.maxWeightOf_form e1) as [->|(q & Hq)]; [reflexivity|].
    rewrite Hq.
    destruct (ngt (Fin q) (Fin 0)) eqn:E; [|reflexivity].
    apply TrendFacts.ngt_Fin in E. exfalso.
    destruct (sets e1) as [|x l] eqn:Hs.
    + rewrite (PercentageFacts.maxWeightOf_none e1 Hs) in Hq. discriminate.
    + unfold maxWeightOf, nmax_list in Hq. rewrite Hs in Hq. cbn [map fold_left] in Hq.
      assert (Hx : nmax NInf (Fin (weight x)) = Fin (weight x)) by reflexivity.
      rewrite Hx in Hq.
      destruct (PercentageFacts.heaviest_le l (weight x) 0) as (q' & Hq' & Hle).
      * apply Hall. now left.
      * intros s Hin. apply Hall. now right.
      * rewrite Hq' in Hq. injection Hq as <-. lra.
  - intros ws id oldest rest e1 e2 a b Hlen Hsort H1 H2 Ha Hb Hpos.
    rewrite (PercentageFacts.percentage_run ws id oldest rest e1 e2 Hlen Hsort H1 H2).
    rewrite Ha, Hb. rewrite (proj2 (TrendFacts.ngt_Fin a 0) Hpos).
    cbn [nsub nopp nadd ndiv]. rewrite (proj2 (SetFacts.Qeq_bool_false a 0)) by lra.
    cbn [nmul num_eq]. rewrite TrendFacts.ngt_Fin, TrendFacts.nlt_Fin.
    assert (Hq : (b + - a) / a * 100 == (b - a) * (100 / a)) by (field; lra).
    assert (Hk : 0 < 100 / a) by (apply Qlt_shift_div_l; lra).
    rewrite Hq. split; [|split]; intros H; [nra | nra |].
    rewrite H. ring.
  - intros ws id oldest rest e1 e2. apply PercentageFacts.percentage_lost.
Qed.

(** Two sessions of bench press: from 60 to 100 the percentage is above 0;
    with the newer session left without a set it is minus infinity. *)
Lemma progressPercentage_sample :
  ngt (calculateProgressPercentage [Sample.heavy; Sample.light] "bench-press") (Fin 0)
    = true
  /\ calculateProgressPercentage
       [Sample.session "b" Sample.jan20 []; Sample.light] "bench-press" = NInf.
Proof.
  destruct progressPercentage_cases as (_ & _ & Hsign & H).
  split.
  - assert (Hlen : (2 <= List.length [Sample.heavy; Sample.light])%nat)
      by (simpl; lia).
    destruct (Hsign [Sample.heavy; Sample.light] "bench-press" Sample.light
                    [Sample.heavy] (Sample.bench [Sample.mkSet 10 60])
                    (Sample.bench [Sample.mkSet 5 100]) 60 100
                    Hlen eq_refl eq_refl eq_refl eq_refl eq_refl eq_refl)
      as (Hup & _).
    exact (Hup eq_refl).
  - apply (H [Sample.session "b" Sample.jan20 []; Sample.light] "bench-press"
             Sample.light [Sample.session "b" Sample.jan20 []]
             (Sample.bench [Sample.mkSet 10 60]) (Sample.bench [])).
    + simpl. lia.
    + reflexivity.
    + reflexivity.
    + reflexivity.
    + exists (Sample.mkSet 10 60). split; [now left | reflexivity].
    + reflexivity.
Defined.

(** ** Facts about the strength progression *)

Module ProgressionFacts.

Import ProgressService.








End ProgressionFacts.



(** ** Facts about the Workout model *)

Module ModelFacts.

Section WithTrim.

Variable trim : string -> string.
Variable clock : Z.
Hypothesis trim_idem : forall s, trim (trim s) = trim s.
Hypothesis trim_empty : trim "" = "".

Lemma workout_new_run (data : PartialWorkout) :
  WorkoutModel.new trim clock data
  = if fst (WorkoutModel.validate trim data)
    then Ok (WorkoutModel.sanitize trim clock data)
    else Err ("Invalid workout data: "
              ++ String.concat ", " (WorkoutModel.errors_of trim data))%string.
Proof.
  unfold WorkoutModel.new, WorkoutModel.validate. simpl.
  destruct (Nat.eqb (List.length (WorkoutModel.errors_of trim data)) 0); reflexivity.
Qed.

Lemma errors_of_run (data : PartialWorkout) :
  WorkoutModel.errors_of trim data
  = (if WorkoutModel.blank trim (pw_id data) then ["Workout ID is required"] else [])
    ++ (if WorkoutModel.blank trim (pw_name data) then ["Workout name is required"] else [])
    ++ (match pw_startTime data with None => ["Valid start time is required"] | _ => [] end)
    ++ (if WorkoutModel.endsBeforeStart data then ["End time must be after start time"] else [])
    ++ (match pw_exercises data with None => ["Exercises must be an array"] | _ => [] end).
Proof.
  unfold WorkoutModel.errors_of, SetValidator.push_if.
  destruct (WorkoutModel.blank trim (pw_id data)),
    (WorkoutModel.blank trim (pw_name data)), (pw_startTime data),
    (WorkoutModel.endsBeforeStart data), (pw_exercises data); reflexivity.
Qed.

Lemma blank_false (s : string) :
  WorkoutModel.blank trim (Some s) = false <-> trim s <> "".
Proof.
  unfold WorkoutModel.blank. rewrite orb_false_iff. split.
  - intros (_ & H). now apply String.eqb_neq.
  - intros H. split; apply String.eqb_neq; [|exact H].
    intros ->. now rewrite trim_empty in H.
Qed.

Lemma trimmed_ok (s : string) : trim s = s -> WorkoutModel.trimmed trim (Some s) = s.
Proof.
  intros H. unfold WorkoutModel.trimmed. rewrite H.
  destruct (String.eqb_spec s ""); congruence.
Qed.

Lemma trimmed_trim (s : option string) :
  trim (WorkoutModel.trimmed trim s) = WorkoutModel.trimmed trim s.
Proof.
  unfold WorkoutModel.trimmed. destruct s as [v|]; [|exact trim_empty].
  destruct (String.eqb (trim v) ""); [exact trim_empty | apply trim_idem].
Qed.

Lemma trimmed_some (s : string) :
  trim s <> "" -> WorkoutModel.trimmed trim (Some s) = trim s.
Proof.
  intros H. unfold WorkoutModel.trimmed.
  destruct (String.eqb_spec (trim s) ""); congruence.
Qed.

(** What the constructor accepts. *)
Lemma workout_new_ok (data : PartialWorkout) (d : Workout) :
  WorkoutModel.new trim clock data = Ok d ->
  d = WorkoutModel.sanitize trim clock data
  /\ WorkoutModel.blank trim (pw_id data) = false
  /\ WorkoutModel.blank trim (pw_name data) = false
  /\ WorkoutModel.endsBeforeStart data = false
  /\ pw_startTime data <> None /\ pw_exercises data <> None.
Proof.
  rewrite workout_new_run. unfold WorkoutModel.validate. cbn [fst].
  rewrite errors_of_run.
  destruct (WorkoutModel.blank trim (pw_id data)); [discriminate|].
  destruct (WorkoutModel.blank trim (pw_name data)); [discriminate|].
  destruct (pw_startTime data); [|discriminate].
  destruct (WorkoutModel.endsBeforeStart data); [discriminate|].
  destruct (pw_exercises data); [|discriminate].
  simpl. intros H. injection H as <-. repeat split; congruence.
Qed.

Lemma modelOk_new (data : PartialWorkout) (d : Workout) :
  WorkoutModel.new trim clock data = Ok d -> Spec.modelOk trim d.
Proof.
  intros H. destruct (workout_new_ok data d H) as (-> & Hid & Hname & Hend & Hs & _).
  unfold Spec.modelOk, WorkoutModel.sanitize. simpl.
  destruct (pw_id data) as [i|]; [|discriminate].
  destruct (pw_name data) as [n|]; [|discriminate].
  apply blank_false in Hid, Hname.
  rewrite !trimmed_some by assumption. rewrite !trim_idem, trimmed_trim.
  split; [reflexivity|]. split; [exact Hid|]. split; [reflexivity|].
  split; [exact Hname|]. split; [reflexivity|].
  intros e He. unfold WorkoutModel.endsBeforeStart in Hend. rewrite He in Hend.
  destruct (pw_startTime data) as [t|]; [|congruence].
  apply Z.leb_gt in Hend. exact Hend.
Qed.

(** Copies of a model, built again by the constructor. *)
Lemma workout_new_copy (d : Workout) (endT : option Z) (es : list WorkoutExercise)
  (text : string) :
  Spec.modelOk trim d ->
  trim text = text ->
  (forall e, endT = Some e -> (startTime d < e)%Z) ->
  WorkoutModel.new trim clock
    {| pw_id := Some (w_id d); pw_name := Some (w_name d);
       pw_startTime := Some (startTime d); pw_endTime := endT;
       pw_exercises := Some es; pw_notes := Some text |}
  = Ok {| w_id := w_id d; w_name := w_name d; startTime := startTime d;
          endTime := endT; exercises := es; notes := text |}.
Proof.
  intros (Hi & Hi' & Hn & Hn' & Ht & He) Htext Hend.
  rewrite workout_new_run. unfold WorkoutModel.validate. cbn [fst]. rewrite errors_of_run.
  cbn [pw_id pw_name pw_startTime pw_endTime pw_exercises].
  rewrite (proj2 (blank_false (w_id d))) by congruence.
  rewrite (proj2 (blank_false (w_name d))) by congruence.
  assert (Hb : WorkoutModel.endsBeforeStart
                 {| pw_id := Some (w_id d); pw_name := Some (w_name d);
                    pw_startTime := Some (startTime d); pw_endTime := endT;
                    pw_exercises := Some es; pw_notes := Some text |} = false).
  { unfold WorkoutModel.endsBeforeStart. simpl. destruct endT as [e|]; [|reflexivity].
    apply Z.leb_gt. now apply Hend. }
  rewrite Hb. cbn [app List.length Nat.eqb]. unfold WorkoutModel.sanitize.
  cbn [pw_id pw_name pw_startTime pw_endTime pw_exercises pw_notes].
  now rewrite !trimmed_ok by assumption.
Qed.

Lemma complete_late (d : Workout) (t : Z) :
  Spec.modelOk trim d -> (startTime d < t)%Z ->
  WorkoutModel.complete trim clock d (Some t) = Ok (WorkoutStore.with_endTime d (Some t)).
Proof.
  intros Hd Ht. unfold WorkoutModel.complete, WorkoutModel.spread_endTime.
  rewrite (workout_new_copy d (Some t) (exercises d) (notes d) Hd).
  - reflexivity.
  - apply Hd.
  - intros e He. injection He as <-. exact Ht.
Qed.

Lemma complete_early (d : Workout) (t : Z) :
  Spec.modelOk trim d -> (t <= startTime d)%Z ->
  WorkoutModel.complete trim clock d (Some t)
  = Err "Invalid workout data: End time must be after start time".
Proof.
  intros (Hi & Hi' & Hn & Hn' & _) Ht.
  unfold WorkoutModel.complete, WorkoutModel.spread_endTime.
  rewrite workout_new_run. unfold WorkoutModel.validate. cbn [fst]. rewrite errors_of_run.
  cbn [pw_id pw_name pw_startTime pw_endTime pw_exercises].
  rewrite (proj2 (blank_false (w_id d))) by congruence.
  rewrite (proj2 (blank_false (w_name d))) by congruence.
  unfold WorkoutModel.endsBeforeStart. cbn [pw_startTime pw_endTime].
  rewrite (proj2 (Z.leb_le _ _) Ht). reflexivity.
Qed.

End WithTrim.

End ModelFacts.

Module ModelTotals.




End ModelTotals.

(** X24: a Workout model holds trimmed texts, an identifier and a name that
    are not empty, and an end time, if any, after its start time.
    [complete] with a time after the start gives the model with that end
    time and nothing else changed; with a time at or before the start it
    throws; without a time it takes the clock.  So the duration of a model
    is positive whenever it has one. *)
Theorem WorkoutModel_complete :
  forall (trim : string -> string) (clock : Z),
    (forall s, trim (trim s) = trim s) -> trim "" = "" ->
    forall (data : PartialWorkout) (d : Workout),
      WorkoutModel.new trim clock data = Ok d ->
      Spec.modelOk trim d
      /\ (forall t, (t <= startTime d)%Z ->
            WorkoutModel.complete trim clock d (Some t)
            = Err "Invalid workout data: End time must be after start time")
      /\ (forall t, (startTime d < t)%Z ->
            WorkoutModel.complete trim clock d (Some t)
            = Ok (WorkoutStore.with_endTime d (Some t)))
      /\ WorkoutModel.complete trim clock d None
         = WorkoutModel.complete trim clock d (Some clock)
      /\ (forall duration, WorkoutModel.getDuration d = Some duration ->
            (0 < duration)%Z
            /\ exists minutes, WorkoutModel.getDurationMinutes d = Some minutes
                               /\ (0 <= minutes)%Z).
Proof.
  intros trim clock Hidem Hempty data d Hnew.
  pose proof (ModelFacts.modelOk_new trim clock Hidem Hempty data d Hnew) as Hd.
  split; [exact Hd|].
  split; [intros t Ht; now apply ModelFacts.complete_early|].
  split; [intros t Ht; now apply ModelFacts.complete_late|].
  split; [reflexivity|].
  intros duration Hdur. unfold WorkoutModel.getDurationMinutes. rewrite Hdur.
  unfold WorkoutModel.getDuration in Hdur.
  destruct (endTime d) as [e|] eqn:He; [|discriminate]. injection Hdur as <-.
  destruct Hd as (_ & _ & _ & _ & _ & Hend). specialize (Hend e He).
  split; [lia|].
  destruct (Z.eqb_spec (e - startTime d) 0); [lia|].
  eexists. split; [reflexivity|].
  assert (Hq : 0 <= inject_Z (e - startTime d) / (1000 * 60) + (1 # 2)).
  { assert (0 <= inject_Z (e - startTime d) / (1000 * 60)); [|lra].
    apply Qle_shift_div_l; [reflexivity|]. rewrite Qmult_0_l.
    change 0 with (inject_Z 0). rewrite <- Zle_Qle. lia. }
  apply Qfloor_resp_le in Hq. exact Hq.
Qed.

Lemma WorkoutModel_complete_sample :
  WorkoutModel.complete (fun s => s) 1000 Sample.pushDay None
  = Err "Invalid workout data: End time must be after start time".
Proof.
  destruct (WorkoutModel_complete (fun s => s) 1000 (fun s => eq_refl) eq_refl
              (WorkoutModel.spread Sample.pushDay) Sample.pushDay eq_refl)
    as (_ & H & _).
  exact (H 1000%Z ltac:(simpl; lia)).
Defined.



(** X26: [createWorkout] of the service stores and returns a new active
    session with the trimmed name, no end time and no exercise, in place of
    whatever session was active, and leaves the history alone; a name of
    white space only is refused and storage left as it is, and so is it when
    the write is rejected.  The store's [startWorkout] keeps the name as it
    was typed. *)
Theorem createWorkout_validates :
  forall (trim : string -> string) (env : WorkoutStore.Env) (reason : string)
         (name : option string) (storage : AsyncStorage),
    trim "" = "" -> trim (WorkoutStore.freshId env) <> "" ->
    let given := WorkoutStore.name_or_default name (WorkoutStore.freshName env) in
    let created :=
      {| w_id := trim (WorkoutStore.freshId env); w_name := trim given;
         startTime := WorkoutStore.now env; endTime := None; exercises := [];
         notes := "" |} in
    (trim given <> "" -> WorkoutStore.setItemOk env = true ->
       WorkoutService.createWorkout trim env reason name storage
       = (Ok created, {| CURRENT_WORKOUT := Some created;
                         WORKOUT_HISTORY := WORKOUT_HISTORY storage |}))
    /\ (trim given <> "" -> WorkoutStore.setItemOk env = false ->
        WorkoutService.createWorkout trim env reason name storage
        = (Err ("Failed to create workout: " ++ reason)%string, storage))
    /\ (trim given = "" ->
        WorkoutService.createWorkout trim env reason name storage
        = (Err "Failed to create workout: Invalid workout data: Workout name is required",
           storage))
    /\ (forall w, exists c,
          WorkoutStore.currentWorkout (WorkoutStore.mem (WorkoutStore.startWorkout env name w))
          = Some c /\ w_name c = given).
Proof.
  intros trim env reason name storage Hempty Hid given created.
  assert (Hblank : WorkoutModel.blank trim (Some (WorkoutStore.freshId env)) = false)
    by now apply ModelFacts.blank_false.
  assert (Hrun : forall b,
             WorkoutModel.blank trim (Some given) = b ->
             WorkoutService.createWorkout trim env reason name storage
             = if b
               then (Err "Failed to create workout: Invalid workout data: Workout name is required",
                     storage)
               else if WorkoutStore.setItemOk env
                    then (Ok created, {| CURRENT_WORKOUT := Some created;
                                         WORKOUT_HISTORY := WORKOUT_HISTORY storage |})
                    else (Err ("Failed to create workout: " ++ reason)%string, storage)).
  { intros b Hb. unfold WorkoutService.createWorkout, WorkoutService.failed,
      WorkoutService.setCurrent. cbv zeta. fold given.
    rewrite ModelFacts.workout_new_run. unfold WorkoutModel.validate. cbn [fst].
    rewrite ModelFacts.errors_of_run.
    cbn [pw_id pw_name pw_startTime pw_endTime pw_exercises].
    rewrite Hblank, Hb. unfold WorkoutModel.endsBeforeStart.
    cbn [pw_startTime pw_endTime]. destruct b; [reflexivity|].
    cbn [app List.length Nat.eqb]. unfold WorkoutModel.sanitize.
    cbn [pw_id pw_name pw_startTime pw_endTime pw_exercises pw_notes].
    apply (ModelFacts.blank_false trim Hempty) in Hb.
    rewrite !(ModelFacts.trimmed_some trim) by assumption.
    assert (Hn : WorkoutModel.trimmed trim (Some "") = "").
    { unfold WorkoutModel.trimmed. rewrite Hempty. reflexivity. }
    rewrite Hn. fold created.
    destruct (WorkoutStore.setItemOk env); reflexivity. }
  split; [|split; [|split]].
  - intros Hn Hok. rewrite (Hrun false), Hok; [reflexivity|].
    now apply ModelFacts.blank_false.
  - intros Hn Hok. rewrite (Hrun false), Hok; [reflexivity|].
    now apply ModelFacts.blank_false.
  - intros Hn. rewrite (Hrun true); [reflexivity|].
    unfold WorkoutModel.blank. rewrite Hn. apply orb_true_r.
  - intros w. rewrite StoreFacts.startWorkout_run.
    exists (WorkoutStore.newWorkout env name).
    destruct (WorkoutStore.setItemOk env); split; reflexivity.
Qed.

Lemma createWorkout_sample :
  WorkoutService.createWorkout Sample.trimSpaces Sample.env0 "disk full" (Some "   ")
    (WorkoutStore.disk Sample.started)
  = (Err "Failed to create workout: Invalid workout data: Workout name is required",
     WorkoutStore.disk Sample.started).
Proof.
  destruct (createWorkout_validates Sample.trimSpaces Sample.env0 "disk full"
              (Some "   ") (WorkoutStore.disk Sample.started) eq_refl)
    as (_ & _ & H & _); [discriminate|].
  apply H. reflexivity.
Defined.

(** ** Facts about the comparison of versions *)

Module VersionFacts.

Import MigrationService.

Lemma nlt_irrefl (x : num) : nlt x x = false.
Proof.
  destruct x as [q| | |]; try reflexivity. simpl.
  apply negb_false_iff, Qle_bool_iff, Qle_refl.
Qed.

Lemma nlt_asym (x y : num) : nlt x y = true -> nlt y x = false.
Proof.
  destruct x as [p| | |], y as [q| | |]; simpl; try discriminate; try reflexivity.
  rewrite negb_true_iff, negb_false_iff. intros H.
  apply SetFacts.Qle_bool_false in H. apply Qle_bool_iff. lra.
Qed.

Lemma compareFrom_range (a b : list num) (remaining : nat) :
  forall i, In (compareFrom a b i remaining) [(-1)%Z; 0%Z; 1%Z].
Proof.
  induction remaining as [|r IH]; intros i; simpl; [tauto|].
  destruct (nlt (part a i) (part b i)); [tauto|].
  destruct (ngt (part a i) (part b i)); [tauto|]. apply IH.
Qed.

Lemma compareFrom_same (a : list num) (remaining : nat) :
  forall i, compareFrom a a i remaining = 0%Z.
Proof.
  induction remaining as [|r IH]; intros i; simpl; [reflexivity|].
  unfold ngt. rewrite nlt_irrefl. apply IH.
Qed.

Lemma compareFrom_swap (a b : list num) (remaining : nat) :
  forall i, compareFrom b a i remaining = (- compareFrom a b i remaining)%Z.
Proof.
  induction remaining as [|r IH]; intros i; simpl; [reflexivity|].
  unfold ngt.
  destruct (nlt (part a i) (part b i)) eqn:Hab.
  - rewrite (nlt_asym _ _ Hab). reflexivity.
  - destruct (nlt (part b i) (part a i)); [reflexivity | apply IH].
Qed.

Lemma part_beyond (a : list num) (i : nat) :
  (List.length a <= i)%nat -> part a i = Fin 0.
Proof.
  intros H. unfold part. now rewrite (proj2 (nth_error_None a i) H).
Qed.

(** Past the end of both versions every part is 0. *)
Lemma compareFrom_beyond (a b : list num) (remaining : nat) :
  forall i, (List.length a <= i)%nat -> (List.length b <= i)%nat ->
            compareFrom a b i remaining = 0%Z.
Proof.
  induction remaining as [|r IH]; intros i Ha Hb; simpl; [reflexivity|].
  rewrite (part_beyond a i Ha), (part_beyond b i Hb). simpl.
  apply IH; lia.
Qed.

(** More rounds than parts change nothing. *)
Lemma compareFrom_more (a b : list num) (remaining : nat) :
  forall i extra,
    (Nat.max (List.length a) (List.length b) <= i + remaining)%nat ->
    compareFrom a b i (remaining + extra) = compareFrom a b i remaining.
Proof.
  induction remaining as [|r IH]; intros i extra H.
  - simpl. apply compareFrom_beyond; lia.
  - simpl. destruct (nlt (part a i) (part b i)); [reflexivity|].
    destruct (ngt (part a i) (part b i)); [reflexivity|]. apply IH. lia.
Qed.

Lemma compareFrom_parts (a a' b : list num) (remaining : nat) :
  (forall i, part a' i = part a i) ->
  forall i, compareFrom a' b i remaining = compareFrom a b i remaining.
Proof.
  intros Hp. induction remaining as [|r IH]; intros i; simpl; [reflexivity|].
  now rewrite Hp, IH.
Qed.

Lemma part_padded (a : list num) (z : num) (i : nat) :
  n_or0 z = Fin 0 -> part (a ++ [z]) i = part a i.
Proof.
  intros Hz. unfold part.
  destruct (Nat.lt_ge_cases i (List.length a)) as [Hlt|Hge].
  - now rewrite nth_error_app1.
  - rewrite nth_error_app2 by exact Hge.
    rewrite (proj2 (nth_error_None a i) Hge).
    destruct (i - List.length a)%nat as [|k]; simpl; [exact Hz|].
    now destruct k.
Qed.

Lemma compareVersions_padded (a b : list num) (z : num) :
  n_or0 z = Fin 0 ->
  compareVersions (a ++ [z]) b = compareVersions a b.
Proof.
  intros Hz. unfold compareVersions. cbv zeta.
  rewrite (compareFrom_parts a (a ++ [z]) b _ (fun i => part_padded a z i Hz)).
  rewrite length_app. simpl.
  set (m := Nat.max (List.length a) (List.length b)).
  destruct (Nat.le_gt_cases (List.length a + 1) (List.length b)) as [H|H].
  - f_equal. lia.
  - replace (Nat.max (List.length a + 1) (List.length b))
      with (m + (List.length a + 1 - m))%nat by lia.
    apply compareFrom_more. lia.
Qed.

End VersionFacts.

(** X27: [compareVersions], on the numbers of two versions, answers -1, 0
    or 1; a version equals itself; swapping the versions negates the
    answer; and a trailing part that is 0 or not a number makes no
    difference, on either side, so 1.0 and 1.0.0 compare equal and no
    migration is due from one to the other. *)
Theorem compareVersions_order :
  forall (a b : list num) (z : num),
    n_or0 z = Fin 0 ->
    In (MigrationService.compareVersions a b) [(-1)%Z; 0%Z; 1%Z]
    /\ MigrationService.compareVersions a a = 0%Z
    /\ MigrationService.compareVersions b a = (- MigrationService.compareVersions a b)%Z
    /\ MigrationService.compareVersions (a ++ [z]) b = MigrationService.compareVersions a b
    /\ MigrationService.compareVersions a (b ++ [z]) = MigrationService.compareVersions a b
    /\ MigrationService.shouldRunMigration a (a ++ [z]) = false.
Proof.
  intros a b z Hz.
  assert (Hswap : forall x y, MigrationService.compareVersions y x
                              = (- MigrationService.compareVersions x y)%Z).
  { intros x y. unfold MigrationService.compareVersions. cbv zeta.
    rewrite (Nat.max_comm (List.length y)). apply VersionFacts.compareFrom_swap. }
  assert (Hsame : forall x, MigrationService.compareVersions x x = 0%Z)
    by (intros x; apply VersionFacts.compareFrom_same).
  split; [apply VersionFacts.compareFrom_range|].
  split; [apply Hsame|]. split; [apply Hswap|].
  split; [now apply VersionFacts.compareVersions_padded|].
  split.
  - rewrite (Hswap (b ++ [z]) a), (VersionFacts.compareVersions_padded b a z Hz).
    rewrite (Hswap a b). lia.
  - unfold MigrationService.shouldRunMigration.
    rewrite (Hswap (a ++ [z]) a), (VersionFacts.compareVersions_padded a a z Hz), Hsame.
    reflexivity.
Qed.

Lemma compareVersions_sample :
  MigrationService.compareVersions [Fin 1; Fin 0; Fin 0] [Fin 1; Fin 0] = 0%Z.
Proof.
  destruct (compareVersions_order [Fin 1; Fin 0] [Fin 1; Fin 0] (Fin 0) eq_refl)
    as (_ & Hsame & _ & Hpad & _).
  change [Fin 1; Fin 0; Fin 0] with ([Fin 1; Fin 0] ++ [Fin 0]).
  rewrite Hpad. exact Hsame.
Defined.


